(** * KalaKriti: the relational model and the [seed_data] command

    A shallow embedding of [kalakriti/models.py], of the management
    command [kalakriti/management/commands/seed_data.py] and of the part
    of [kalakriti/admin.py] that edits order items, together with the
    properties of the data model and of the seeder.

    Conventions of the embedding.
    - A table is the list of its rows in insertion order; a row is a
      record with one field per model field.
    - Primary keys are naturals.  A new key is larger than every key of
      the table and than every key issued before, which abstracts both
      the integer sequences and [uuid4].
    - [DecimalField] values and the two-decimal [FloatField] ratings are
      integers counting hundredths: [Decimal("2499.00")] is [249900].
    - Time stamps are readings of a logical clock.
    - Python's [random] module is a stream of raw variates; every call
      consumes one.  What [random.seed(label)] makes of a label is the
      field [twister] of the process state and is left open. *)

From Stdlib Require Import ZArith String Ascii List Lia Bool.
From stdpp Require Import base tactics option list strings pretty gmap.

Open Scope string_scope.
Open Scope Z_scope.

(** ** Field types *)

Definition pk := nat.
Bind Scope nat_scope with pk.
Definition hundredths := Z.
Definition datetime := Z.
Definition json_dict := list (string * string).

(** ** [django.contrib.auth.models.User] *)

Module User.
Record t := Build {
  id : pk;
  username : string;
  email : string;
  password : string;
  is_staff : bool;
  is_superuser : bool;
  is_active : bool;
  date_joined : datetime }.

Definition with_password (enc : string) (u : t) : t :=
  Build (id u) (username u) (email u) enc (is_staff u) (is_superuser u)
        (is_active u) (date_joined u).

(** [make_password]: the salt and the digest are not modelled. *)
Definition make_password (raw : string) : string := "pbkdf2_sha256$" ++ raw.

(** [is_password_usable]: the stored value does not start with [!]. *)
Definition has_usable_password (u : t) : bool :=
  negb (String.prefix "!" (password u)).

Definition set_password (raw : string) (u : t) : t :=
  with_password (make_password raw) u.
End User.

(** ** [kalakriti/models.py] *)

Module UserProfile.
Record t := Build {
  id : pk;
  user : pk;
  user_type : string;
  phone : string;
  address : string;
  city : string;
  state : string;
  pincode : string;
  profile_image : option string;
  terms_accepted_at : option datetime;
  terms_version : string;
  seller_verified : bool;
  created_at : datetime;
  updated_at : datetime }.
End UserProfile.

Module Seller.
Record t := Build {
  id : pk;
  user : pk;
  shop_name : string;
  shop_description : string;
  shop_logo : option string;
  phone : string;
  state : string;
  bank_account : string;
  bank_name : string;
  ifsc_code : string;
  total_products : Z;
  total_sales : hundredths;
  rating : hundredths;
  is_verified : bool;
  is_active : bool;
  created_at : datetime;
  updated_at : datetime }.

Definition with_totals (n : Z) (sales : hundredths) (s : t) : t :=
  Build (id s) (user s) (shop_name s) (shop_description s) (shop_logo s)
        (phone s) (state s) (bank_account s) (bank_name s) (ifsc_code s)
        n sales (rating s) (is_verified s) (is_active s) (created_at s)
        (updated_at s).
End Seller.

Module SellerProduct.
Record t := Build {
  id : pk;
  seller : pk;
  product : pk;
  seller_sku : string;
  seller_price : hundredths;
  seller_stock : Z;
  added_at : datetime;
  updated_at : datetime }.
End SellerProduct.

Module ProductActivity.
Record t := Build {
  id : pk;
  seller : pk;
  product : pk;
  activity_type : string;
  user : option pk;
  details : json_dict;
  created_at : datetime }.

Definition with_user (u : option pk) (a : t) : t :=
  Build (id a) (seller a) (product a) (activity_type a) u (details a)
        (created_at a).
End ProductActivity.

Module Category.
Record t := Build {
  id : pk;
  name : string;
  slug : string;
  description : string;
  image : string;
  created_at : datetime }.
End Category.

Module Region.
Record t := Build {
  id : pk;
  name : string;
  slug : string;
  description : string;
  image : string;
  cultural_heritage : string;
  created_at : datetime }.
End Region.

Module Artisan.
Record t := Build {
  id : pk;
  name : string;
  slug : string;
  bio : string;
  image : string;
  region : pk;
  specialty : string;
  years_of_experience : Z;
  email : string;
  phone : string;
  website : string;
  social_media_links : json_dict;
  featured : bool;
  created_at : datetime;
  updated_at : datetime }.
End Artisan.

Module Product.
Record t := Build {
  id : pk;
  name : string;
  slug : string;
  description : string;
  category : option pk;
  region : option pk;
  artisan : option pk;
  seller : option pk;
  price : hundredths;
  original_price : option hundredths;
  stock : Z;
  image : string;
  gallery_images : list string;
  featured : bool;
  in_stock : bool;
  rating : hundredths;
  reviews_count : Z;
  created_at : datetime;
  updated_at : datetime }.

Definition with_fks (c r a s : option pk) (p : t) : t :=
  Build (id p) (name p) (slug p) (description p) c r a s (price p)
        (original_price p) (stock p) (image p) (gallery_images p)
        (featured p) (in_stock p) (rating p) (reviews_count p)
        (created_at p) (updated_at p).

Definition with_price (x : hundredths) (now : datetime) (p : t) : t :=
  Build (id p) (name p) (slug p) (description p) (category p) (region p)
        (artisan p) (seller p) x (original_price p) (stock p) (image p)
        (gallery_images p) (featured p) (in_stock p) (rating p)
        (reviews_count p) (created_at p) now.
End Product.

Module CulturalStory.
Record t := Build {
  id : pk;
  title : string;
  slug : string;
  content : string;
  author : string;
  featured_image : string;
  region : pk;
  category : string;
  created_at : datetime;
  updated_at : datetime;
  published : bool }.
End CulturalStory.

Module StoryPost.
Record t := Build {
  id : pk;
  user : pk;
  content : string;
  mentioned_product : option pk;
  mentioned_artisan : option pk;
  created_at : datetime;
  updated_at : datetime }.

Definition with_mentions (p a : option pk) (s : t) : t :=
  Build (id s) (user s) (content s) p a (created_at s) (updated_at s).
End StoryPost.

Module GalleryImage.
Record t := Build {
  id : pk;
  title : string;
  image : string;
  description : string;
  artisan : option pk;
  product : option pk;
  region : option pk;
  created_at : datetime;
  featured : bool }.
End GalleryImage.

Module Order.
Record t := Build {
  id : pk;
  user : pk;
  total_amount : hundredths;
  status : string;
  shipping_address : string;
  created_at : datetime;
  updated_at : datetime }.
End Order.

Module OrderItem.
Record t := Build {
  id : pk;
  order : pk;
  product : pk;
  quantity : Z;
  price : hundredths }.
End OrderItem.

Module Newsletter.
Record t := Build {
  id : pk;
  email : string;
  subscribed_at : datetime }.
End Newsletter.

Module Favorite.
Record t := Build {
  id : pk;
  user : pk;
  product : pk;
  created_at : datetime }.
End Favorite.

(** ** The database *)

Record DB := BuildDB {
  users : list User.t;
  user_profiles : list UserProfile.t;
  sellers : list Seller.t;
  seller_products : list SellerProduct.t;
  product_activities : list ProductActivity.t;
  categories : list Category.t;
  regions : list Region.t;
  artisans : list Artisan.t;
  products : list Product.t;
  cultural_stories : list CulturalStory.t;
  story_posts : list StoryPost.t;
  gallery : list GalleryImage.t;
  orders : list Order.t;
  order_items : list OrderItem.t;
  newsletters : list Newsletter.t;
  favorites : list Favorite.t }.

Definition empty_db : DB :=
  BuildDB [] [] [] [] [] [] [] [] [] [] [] [] [] [] [] [].

Definition set_users (l : list User.t) (d : DB) : DB :=
  BuildDB l (user_profiles d) (sellers d) (seller_products d) (product_activities d) (categories d) (regions d) (artisans d) (products d) (cultural_stories d) (story_posts d) (gallery d) (orders d) (order_items d) (newsletters d) (favorites d).
Definition set_user_profiles (l : list UserProfile.t) (d : DB) : DB :=
  BuildDB (users d) l (sellers d) (seller_products d) (product_activities d) (categories d) (regions d) (artisans d) (products d) (cultural_stories d) (story_posts d) (gallery d) (orders d) (order_items d) (newsletters d) (favorites d).
Definition set_sellers (l : list Seller.t) (d : DB) : DB :=
  BuildDB (users d) (user_profiles d) l (seller_products d) (product_activities d) (categories d) (regions d) (artisans d) (products d) (cultural_stories d) (story_posts d) (gallery d) (orders d) (order_items d) (newsletters d) (favorites d).
Definition set_seller_products (l : list SellerProduct.t) (d : DB) : DB :=
  BuildDB (users d) (user_profiles d) (sellers d) l (product_activities d) (categories d) (regions d) (artisans d) (products d) (cultural_stories d) (story_posts d) (gallery d) (orders d) (order_items d) (newsletters d) (favorites d).
Definition set_product_activities (l : list ProductActivity.t) (d : DB) : DB :=
  BuildDB (users d) (user_profiles d) (sellers d) (seller_products d) l (categories d) (regions d) (artisans d) (products d) (cultural_stories d) (story_posts d) (gallery d) (orders d) (order_items d) (newsletters d) (favorites d).
Definition set_categories (l : list Category.t) (d : DB) : DB :=
  BuildDB (users d) (user_profiles d) (sellers d) (seller_products d) (product_activities d) l (regions d) (artisans d) (products d) (cultural_stories d) (story_posts d) (gallery d) (orders d) (order_items d) (newsletters d) (favorites d).
Definition set_regions (l : list Region.t) (d : DB) : DB :=
  BuildDB (users d) (user_profiles d) (sellers d) (seller_products d) (product_activities d) (categories d) l (artisans d) (products d) (cultural_stories d) (story_posts d) (gallery d) (orders d) (order_items d) (newsletters d) (favorites d).
Definition set_artisans (l : list Artisan.t) (d : DB) : DB :=
  BuildDB (users d) (user_profiles d) (sellers d) (seller_products d) (product_activities d) (categories d) (regions d) l (products d) (cultural_stories d) (story_posts d) (gallery d) (orders d) (order_items d) (newsletters d) (favorites d).
Definition set_products (l : list Product.t) (d : DB) : DB :=
  BuildDB (users d) (user_profiles d) (sellers d) (seller_products d) (product_activities d) (categories d) (regions d) (artisans d) l (cultural_stories d) (story_posts d) (gallery d) (orders d) (order_items d) (newsletters d) (favorites d).
Definition set_cultural_stories (l : list CulturalStory.t) (d : DB) : DB :=
  BuildDB (users d) (user_profiles d) (sellers d) (seller_products d) (product_activities d) (categories d) (regions d) (artisans d) (products d) l (story_posts d) (gallery d) (orders d) (order_items d) (newsletters d) (favorites d).
Definition set_story_posts (l : list StoryPost.t) (d : DB) : DB :=
  BuildDB (users d) (user_profiles d) (sellers d) (seller_products d) (product_activities d) (categories d) (regions d) (artisans d) (products d) (cultural_stories d) l (gallery d) (orders d) (order_items d) (newsletters d) (favorites d).
Definition set_gallery (l : list GalleryImage.t) (d : DB) : DB :=
  BuildDB (users d) (user_profiles d) (sellers d) (seller_products d) (product_activities d) (categories d) (regions d) (artisans d) (products d) (cultural_stories d) (story_posts d) l (orders d) (order_items d) (newsletters d) (favorites d).
Definition set_orders (l : list Order.t) (d : DB) : DB :=
  BuildDB (users d) (user_profiles d) (sellers d) (seller_products d) (product_activities d) (categories d) (regions d) (artisans d) (products d) (cultural_stories d) (story_posts d) (gallery d) l (order_items d) (newsletters d) (favorites d).
Definition set_order_items (l : list OrderItem.t) (d : DB) : DB :=
  BuildDB (users d) (user_profiles d) (sellers d) (seller_products d) (product_activities d) (categories d) (regions d) (artisans d) (products d) (cultural_stories d) (story_posts d) (gallery d) (orders d) l (newsletters d) (favorites d).
Definition set_newsletters (l : list Newsletter.t) (d : DB) : DB :=
  BuildDB (users d) (user_profiles d) (sellers d) (seller_products d) (product_activities d) (categories d) (regions d) (artisans d) (products d) (cultural_stories d) (story_posts d) (gallery d) (orders d) (order_items d) l (favorites d).
Definition set_favorites (l : list Favorite.t) (d : DB) : DB :=
  BuildDB (users d) (user_profiles d) (sellers d) (seller_products d) (product_activities d) (categories d) (regions d) (artisans d) (products d) (cultural_stories d) (story_posts d) (gallery d) (orders d) (order_items d) (newsletters d) l.

(** A manager ([Model.objects]) gives access to one table: its rows, the
    primary key of a row, and [clash], which tells whether two rows
    cannot coexist under the [unique] and [unique_together] declarations
    of the model. *)

Record Manager (Row : Type) := BuildManager {
  rows : DB → list Row;
  put : list Row → DB → DB;
  pk_of : Row → pk;
  clash : Row → Row → bool }.
Arguments rows {Row} _ _.
Arguments put {Row} _ _ _.
Arguments pk_of {Row} _ _.
Arguments clash {Row} _ _ _.

Definition eqb_of {A} `{EqDecision A} (x y : A) : bool := bool_decide (x = y).

(** [username] is unique. *)
Definition User_objects : Manager User.t :=
  BuildManager _ users set_users User.id
    (λ a b, eqb_of (User.username a) (User.username b)).
(** [user] is one-to-one. *)
Definition UserProfile_objects : Manager UserProfile.t :=
  BuildManager _ user_profiles set_user_profiles UserProfile.id
    (λ a b, eqb_of (UserProfile.user a) (UserProfile.user b)).
(** [user] is one-to-one. *)
Definition Seller_objects : Manager Seller.t :=
  BuildManager _ sellers set_sellers Seller.id
    (λ a b, eqb_of (Seller.user a) (Seller.user b)).
(** [seller_sku] is unique; [unique_together = ('seller', 'product')]. *)
Definition SellerProduct_objects : Manager SellerProduct.t :=
  BuildManager _ seller_products set_seller_products SellerProduct.id
    (λ a b, eqb_of (SellerProduct.seller_sku a) (SellerProduct.seller_sku b)
            || eqb_of (SellerProduct.seller a, SellerProduct.product a)
                      (SellerProduct.seller b, SellerProduct.product b)).
Definition ProductActivity_objects : Manager ProductActivity.t :=
  BuildManager _ product_activities set_product_activities ProductActivity.id
    (λ _ _, false).
(** [slug] is unique. *)
Definition Category_objects : Manager Category.t :=
  BuildManager _ categories set_categories Category.id
    (λ a b, eqb_of (Category.slug a) (Category.slug b)).
Definition Region_objects : Manager Region.t :=
  BuildManager _ regions set_regions Region.id
    (λ a b, eqb_of (Region.slug a) (Region.slug b)).
Definition Artisan_objects : Manager Artisan.t :=
  BuildManager _ artisans set_artisans Artisan.id
    (λ a b, eqb_of (Artisan.slug a) (Artisan.slug b)).
Definition Product_objects : Manager Product.t :=
  BuildManager _ products set_products Product.id
    (λ a b, eqb_of (Product.slug a) (Product.slug b)).
Definition CulturalStory_objects : Manager CulturalStory.t :=
  BuildManager _ cultural_stories set_cultural_stories CulturalStory.id
    (λ a b, eqb_of (CulturalStory.slug a) (CulturalStory.slug b)).
Definition StoryPost_objects : Manager StoryPost.t :=
  BuildManager _ story_posts set_story_posts StoryPost.id (λ _ _, false).
Definition GalleryImage_objects : Manager GalleryImage.t :=
  BuildManager _ gallery set_gallery GalleryImage.id (λ _ _, false).
Definition Order_objects : Manager Order.t :=
  BuildManager _ orders set_orders Order.id (λ _ _, false).
Definition OrderItem_objects : Manager OrderItem.t :=
  BuildManager _ order_items set_order_items OrderItem.id (λ _ _, false).
(** [email] is unique. *)
Definition Newsletter_objects : Manager Newsletter.t :=
  BuildManager _ newsletters set_newsletters Newsletter.id
    (λ a b, eqb_of (Newsletter.email a) (Newsletter.email b)).
(** [unique_together = ('user', 'product')]. *)
Definition Favorite_objects : Manager Favorite.t :=
  BuildManager _ favorites set_favorites Favorite.id
    (λ a b, eqb_of (Favorite.user a, Favorite.product a)
                   (Favorite.user b, Favorite.product b)).

(** ** The process: database, media directory, random module, clock *)

(** A file under [settings.MEDIA_ROOT]: a directory, or a placeholder
    picture of 900 by 600 pixels in one colour with a label drawn on it. *)
Inductive File :=
| Directory
| Jpeg (width height : Z) (colour : Z * Z * Z) (label : string).

(** The global generator of the [random] module. *)
Record Rng := BuildRng { variates : nat → Z; cursor : nat }.

(** The stages of the seeder, recorded when a stage is entered. *)
Inductive Stage :=
| SUsers | SRegions | SCategories | SArtisans | SSellers | SProducts
| SSellerProducts | SStories | SStoryPosts | SGallery | SOrders
| SProductActivity | SNewsletters.

Record World := BuildWorld {
  db : DB;
  media : gmap string File;
  rng : Rng;
  twister : string → nat → Z;
  pillow : bool;
  clock : datetime;
  issued : pk;
  trace : list Stage }.

Definition set_db (d : DB) (w : World) : World :=
  BuildWorld d (media w) (rng w) (twister w) (pillow w) (clock w) (issued w) (trace w).
Definition set_media (m : gmap string File) (w : World) : World :=
  BuildWorld (db w) m (rng w) (twister w) (pillow w) (clock w) (issued w) (trace w).
Definition set_rng (g : Rng) (w : World) : World :=
  BuildWorld (db w) (media w) g (twister w) (pillow w) (clock w) (issued w) (trace w).
Definition set_clock (t : datetime) (w : World) : World :=
  BuildWorld (db w) (media w) (rng w) (twister w) (pillow w) t (issued w) (trace w).
Definition set_issued (i : pk) (w : World) : World :=
  BuildWorld (db w) (media w) (rng w) (twister w) (pillow w) (clock w) i (trace w).
Definition set_trace (l : list Stage) (w : World) : World :=
  BuildWorld (db w) (media w) (rng w) (twister w) (pillow w) (clock w) (issued w) l.

(** ** Computations that read and write the process and may raise *)

Inductive Exn :=
| MultipleObjectsReturned | IntegrityError | DatabaseError
| KeyError | IndexError | FileExistsError | FileNotFoundError
| NotADirectoryError | IsADirectoryError.

Inductive Result (A : Type) :=
| Ok (a : A)
| Raise (e : Exn).
Arguments Ok {A} a.
Arguments Raise {A} e.

Definition M (A : Type) : Type := World → Result A * World.

Definition ret {A} (a : A) : M A := λ w, (Ok a, w).
Definition raise {A} (e : Exn) : M A := λ w, (Raise e, w).
Definition bind {A B} (m : M A) (k : A → M B) : M B :=
  λ w, match m w with
       | (Ok a, w') => k a w'
       | (Raise e, w') => (Raise e, w')
       end.

#[global] Instance M_ret : MRet M := @ret.
#[global] Instance M_bind : MBind M := λ A B k m, bind m k.

Fixpoint mapM {A B} (f : A → M B) (l : list A) : M (list B) :=
  match l with
  | [] => ret []
  | a :: l' => b ← f a; bs ← mapM f l'; ret (b :: bs)
  end.

Fixpoint forM_ {A} (l : list A) (f : A → M unit) : M unit :=
  match l with
  | [] => ret tt
  | a :: l' => f a;; forM_ l' f
  end.

Definition get_db : M DB := λ w, (Ok (db w), w).
Definition modify_db (f : DB → DB) : M unit := λ w, (Ok tt, set_db (f (db w)) w).

(** [timezone.now()]: the reading of the clock, which then moves on. *)
Definition now : M datetime := λ w, (Ok (clock w), set_clock (clock w + 1) w).

(** [with transaction.atomic():] a block that raises leaves the database
    as it was on entry; its other effects (files, generator, clock,
    keys issued) stay. *)
Definition atomic {A} (m : M A) : M A :=
  λ w, match m w with
       | (Ok a, w') => (Ok a, w')
       | (Raise e, w') => (Raise e, set_db (db w) w')
       end.

Definition enter (s : Stage) : M unit := λ w, (Ok tt, set_trace (trace w ++ [s]) w).

(** ** The [random] module *)

Definition random_raw : M Z :=
  λ w, let g := rng w in
       (Ok (variates g (cursor g)),
        set_rng (BuildRng (variates g) (S (cursor g))) w).

(** [random.seed(label)] *)
Definition random_seed (label : string) : M unit :=
  λ w, (Ok tt, set_rng (BuildRng (twister w label) 0) w).

(** [random.randint(a, b)], for [a <= b] *)
Definition random_randint (a b : Z) : M Z :=
  x ← random_raw; ret (a + x mod (b - a + 1)).

(** [round(random.uniform(a, b), 2)], with [a] and [b] in hundredths *)
Definition random_uniform_round2 (a b : hundredths) : M hundredths :=
  x ← random_raw; ret (a + x mod (b - a + 1)).

(** [random.choice(seq)] *)
Definition random_choice {A} (seq : list A) : M A :=
  x ← random_raw;
  match seq !! Z.to_nat (x mod Z.of_nat (length seq)) with
  | Some a => ret a
  | None => raise IndexError
  end.

(** ** The object-relational layer *)

Section orm.
Context {Row : Type} (mgr : Manager Row).

(** The primary key of a new row: larger than every key of the table and
    than every key issued before. *)
Definition new_pk (w : World) : pk :=
  S (Nat.max (issued w) (list_max (map (pk_of mgr) (rows mgr (db w))))).

(** INSERT: the row gets a new primary key and must not clash with a row
    of the table. *)
Definition insert (mk : pk → Row) : M Row :=
  λ w, let r := mk (new_pk w) in
       if existsb (clash mgr r) (rows mgr (db w))
       then (Raise IntegrityError, w)
       else (Ok r, set_issued (new_pk w)
                     (set_db (put mgr (rows mgr (db w) ++ [r]) (db w)) w)).

(** [objects.create(...)]: fields with [auto_now_add] and [auto_now]
    take the time of the save. *)
Definition create (mk : pk → datetime → Row) : M Row :=
  t ← now; insert (λ i, mk i t).

(** [objects.filter(...)] with a lookup that is true of the selected rows *)
Definition select (lookup : Row → bool) (d : DB) : list Row :=
  List.filter lookup (rows mgr d).

(** [objects.get_or_create(<key> = k, defaults = ...)]: [mk] builds the
    row from the lookup values and the defaults. *)
Definition get_or_create {K} `{EqDecision K} (key : Row → K) (k : K)
    (mk : pk → datetime → Row) : M (Row * bool) :=
  d ← get_db;
  match select (λ r, eqb_of (key r) k) d with
  | [] => r ← create mk; ret (r, true)
  | [r] => ret (r, false)
  | _ => raise MultipleObjectsReturned
  end.

(** [obj.save(update_fields = [...])]: UPDATE of the row with the key of
    [obj]; it raises when no row has that key. *)
Definition save_fields (i : pk) (f : Row → Row) : M unit :=
  d ← get_db;
  if existsb (λ r, Nat.eqb (pk_of mgr r) i) (rows mgr d)
  then modify_db (put mgr (map (λ r, if Nat.eqb (pk_of mgr r) i then f r else r)
                               (rows mgr d)))
  else raise DatabaseError.

Definition delete_where (sel : Row → bool) (d : DB) : DB :=
  put mgr (List.filter (λ r, negb (sel r)) (rows mgr d)) d.

Definition update_where (sel : Row → bool) (f : Row → Row) (d : DB) : DB :=
  put mgr (map (λ r, if sel r then f r else r) (rows mgr d)) d.

Definition pks_where (sel : Row → bool) (d : DB) : list pk :=
  map (pk_of mgr) (select sel d).
End orm.

(** ** Deletion, with the [on_delete] declarations of [models.py] *)

Definition mem (i : pk) (ids : list pk) : bool := existsb (Nat.eqb i) ids.
Definition omem (o : option pk) (ids : list pk) : bool :=
  match o with Some i => mem i ids | None => false end.

(** Category: [Product.category] is SET_NULL. *)
Definition delete_categories (ids : list pk) (d : DB) : DB :=
  let d := update_where Product_objects (λ p, omem (Product.category p) ids)
             (λ p, Product.with_fks None (Product.region p) (Product.artisan p)
                                    (Product.seller p) p) d in
  delete_where Category_objects (λ c, mem (Category.id c) ids) d.

(** Artisan: [GalleryImage.artisan] is CASCADE; [Product.artisan] and
    [StoryPost.mentioned_artisan] are SET_NULL. *)
Definition delete_artisans (ids : list pk) (d : DB) : DB :=
  let d := delete_where GalleryImage_objects
             (λ g, omem (GalleryImage.artisan g) ids) d in
  let d := update_where Product_objects (λ p, omem (Product.artisan p) ids)
             (λ p, Product.with_fks (Product.category p) (Product.region p) None
                                    (Product.seller p) p) d in
  let d := update_where StoryPost_objects
             (λ s, omem (StoryPost.mentioned_artisan s) ids)
             (λ s, StoryPost.with_mentions (StoryPost.mentioned_product s) None s) d in
  delete_where Artisan_objects (λ a, mem (Artisan.id a) ids) d.

(** Region: [Artisan.region], [CulturalStory.region] and
    [GalleryImage.region] are CASCADE; [Product.region] is SET_NULL. *)
Definition delete_regions (ids : list pk) (d : DB) : DB :=
  let d := delete_artisans
             (pks_where Artisan_objects (λ a, mem (Artisan.region a) ids) d) d in
  let d := delete_where CulturalStory_objects
             (λ s, mem (CulturalStory.region s) ids) d in
  let d := delete_where GalleryImage_objects
             (λ g, omem (GalleryImage.region g) ids) d in
  let d := update_where Product_objects (λ p, omem (Product.region p) ids)
             (λ p, Product.with_fks (Product.category p) None (Product.artisan p)
                                    (Product.seller p) p) d in
  delete_where Region_objects (λ r, mem (Region.id r) ids) d.

(** Product: [SellerProduct.product], [ProductActivity.product],
    [GalleryImage.product], [OrderItem.product] and [Favorite.product] are
    CASCADE; [StoryPost.mentioned_product] is SET_NULL. *)
Definition delete_products (ids : list pk) (d : DB) : DB :=
  let d := delete_where SellerProduct_objects
             (λ s, mem (SellerProduct.product s) ids) d in
  let d := delete_where ProductActivity_objects
             (λ a, mem (ProductActivity.product a) ids) d in
  let d := delete_where GalleryImage_objects
             (λ g, omem (GalleryImage.product g) ids) d in
  let d := delete_where OrderItem_objects
             (λ i, mem (OrderItem.product i) ids) d in
  let d := delete_where Favorite_objects
             (λ f, mem (Favorite.product f) ids) d in
  let d := update_where StoryPost_objects
             (λ s, omem (StoryPost.mentioned_product s) ids)
             (λ s, StoryPost.with_mentions None (StoryPost.mentioned_artisan s) s) d in
  delete_where Product_objects (λ p, mem (Product.id p) ids) d.

(** Seller: [SellerProduct.seller] and [ProductActivity.seller] are
    CASCADE; [Product.seller] is SET_NULL. *)
Definition delete_sellers (ids : list pk) (d : DB) : DB :=
  let d := delete_where SellerProduct_objects
             (λ s, mem (SellerProduct.seller s) ids) d in
  let d := delete_where ProductActivity_objects
             (λ a, mem (ProductActivity.seller a) ids) d in
  let d := update_where Product_objects (λ p, omem (Product.seller p) ids)
             (λ p, Product.with_fks (Product.category p) (Product.region p)
                                    (Product.artisan p) None p) d in
  delete_where Seller_objects (λ s, mem (Seller.id s) ids) d.

(** Order: [OrderItem.order] is CASCADE. *)
Definition delete_orders (ids : list pk) (d : DB) : DB :=
  let d := delete_where OrderItem_objects (λ i, mem (OrderItem.order i) ids) d in
  delete_where Order_objects (λ o, mem (Order.id o) ids) d.

(** User: [UserProfile.user], [Seller.user], [StoryPost.user],
    [Order.user] and [Favorite.user] are CASCADE; [ProductActivity.user]
    is SET_NULL. *)
Definition delete_users (ids : list pk) (d : DB) : DB :=
  let d := delete_where UserProfile_objects (λ p, mem (UserProfile.user p) ids) d in
  let d := delete_sellers
             (pks_where Seller_objects (λ s, mem (Seller.user s) ids) d) d in
  let d := delete_where StoryPost_objects (λ s, mem (StoryPost.user s) ids) d in
  let d := delete_orders
             (pks_where Order_objects (λ o, mem (Order.user o) ids) d) d in
  let d := delete_where Favorite_objects (λ f, mem (Favorite.user f) ids) d in
  let d := update_where ProductActivity_objects
             (λ a, omem (ProductActivity.user a) ids)
             (ProductActivity.with_user None) d in
  delete_where User_objects (λ u, mem (User.id u) ids) d.

(** The models nothing refers to. *)
Definition delete_order_items (ids : list pk) : DB → DB :=
  delete_where OrderItem_objects (λ i, mem (OrderItem.id i) ids).
Definition delete_product_activities (ids : list pk) : DB → DB :=
  delete_where ProductActivity_objects (λ a, mem (ProductActivity.id a) ids).
Definition delete_seller_products (ids : list pk) : DB → DB :=
  delete_where SellerProduct_objects (λ s, mem (SellerProduct.id s) ids).
Definition delete_gallery_images (ids : list pk) : DB → DB :=
  delete_where GalleryImage_objects (λ g, mem (GalleryImage.id g) ids).
Definition delete_cultural_stories (ids : list pk) : DB → DB :=
  delete_where CulturalStory_objects (λ s, mem (CulturalStory.id s) ids).
Definition delete_story_posts (ids : list pk) : DB → DB :=
  delete_where StoryPost_objects (λ s, mem (StoryPost.id s) ids).
Definition delete_user_profiles (ids : list pk) : DB → DB :=
  delete_where UserProfile_objects (λ p, mem (UserProfile.id p) ids).
Definition delete_newsletters (ids : list pk) : DB → DB :=
  delete_where Newsletter_objects (λ n, mem (Newsletter.id n) ids).
Definition delete_favorites (ids : list pk) : DB → DB :=
  delete_where Favorite_objects (λ f, mem (Favorite.id f) ids).

(** [Model.objects.filter(...).delete()] *)
Definition queryset_delete {Row} (mgr : Manager Row) (sel : Row → bool)
    (del : list pk → DB → DB) : M unit :=
  modify_db (λ d, del (pks_where mgr sel d) d).

(** ** Strings: [slugify], [str.upper], slices and formatting *)

Definition code (c : ascii) : Z := Z.of_N (N_of_ascii c).
Definition chr (z : Z) : ascii := ascii_of_N (Z.to_N z).

Definition lower_char (c : ascii) : ascii :=
  if (65 <=? code c) && (code c <=? 90) then chr (code c + 32) else c.
Definition upper_char (c : ascii) : ascii :=
  if (97 <=? code c) && (code c <=? 122) then chr (code c - 32) else c.

(** [\w] on ASCII *)
Definition is_word (c : ascii) : bool :=
  ((97 <=? code c) && (code c <=? 122)) || ((65 <=? code c) && (code c <=? 90))
  || ((48 <=? code c) && (code c <=? 57)) || (code c =? 95).
(** [\s] on ASCII *)
Definition is_space (c : ascii) : bool :=
  (code c =? 32) || ((9 <=? code c) && (code c <=? 13)).
Definition is_hyphen (c : ascii) : bool := code c =? 45.

(** [re.sub(r"[-\s]+", "-", value)] *)
Fixpoint collapse (in_run : bool) (l : list ascii) : list ascii :=
  match l with
  | [] => []
  | c :: l' =>
      if is_hyphen c || is_space c
      then (if in_run then collapse true l' else "-"%char :: collapse true l')
      else c :: collapse false l'
  end.

Definition strippable (c : ascii) : bool := is_hyphen c || (code c =? 95).
Fixpoint lstrip (l : list ascii) : list ascii :=
  match l with
  | c :: l' => if strippable c then lstrip l' else l
  | [] => []
  end.
(** [.strip("-_")] *)
Definition strip (l : list ascii) : list ascii := rev (lstrip (rev (lstrip l))).

(** [django.utils.text.slugify] on ASCII text *)
Definition slugify (value : string) : string :=
  let lowered := map lower_char (list_ascii_of_string value) in
  let kept := List.filter (λ c, is_word c || is_space c || is_hyphen c) lowered in
  string_of_list_ascii (strip (collapse false kept)).

(** [s.upper()] *)
Definition upper (s : string) : string :=
  string_of_list_ascii (map upper_char (list_ascii_of_string s)).

(** [s[:n]] *)
Definition prefix_slice (n : nat) (s : string) : string := String.substring 0 n s.

(** [str(n)] for an integer *)
Definition str_of_int (n : Z) : string := pretty n.

(** [Path(p).parent] for a relative path: what stands before the last
    slash; a path without slash lies in the media root itself. *)
Fixpoint dirname (path : string) : option string :=
  match path with
  | EmptyString => None
  | String c rest =>
      match dirname rest with
      | Some d => Some (String c d)
      | None => if Ascii.eqb c "/" then Some EmptyString else None
      end
  end.

(** ** Dictionary and list access *)

(** [d[k]] *)
Definition getitem {A} (d : gmap string A) (k : string) : M A :=
  match d !! k with
  | Some a => ret a
  | None => raise KeyError
  end.

(** [l[i]] for [i >= 0] *)
Definition index {A} (l : list A) (i : nat) : M A :=
  match l !! i with
  | Some a => ret a
  | None => raise IndexError
  end.

(** ** [seed_data.Command] *)

Definition _reset_data : M unit :=
  queryset_delete OrderItem_objects (λ _, true) delete_order_items;;
  queryset_delete Order_objects (λ _, true) delete_orders;;
  queryset_delete ProductActivity_objects (λ _, true) delete_product_activities;;
  queryset_delete SellerProduct_objects (λ _, true) delete_seller_products;;
  queryset_delete Product_objects (λ _, true) delete_products;;
  queryset_delete GalleryImage_objects (λ _, true) delete_gallery_images;;
  queryset_delete CulturalStory_objects (λ _, true) delete_cultural_stories;;
  queryset_delete StoryPost_objects (λ _, true) delete_story_posts;;
  queryset_delete Artisan_objects (λ _, true) delete_artisans;;
  queryset_delete Seller_objects (λ _, true) delete_sellers;;
  queryset_delete UserProfile_objects (λ _, true) delete_user_profiles;;
  queryset_delete Newsletter_objects (λ _, true) delete_newsletters;;
  queryset_delete Category_objects (λ _, true) delete_categories;;
  queryset_delete Region_objects (λ _, true) delete_regions;;
  queryset_delete User_objects (λ u, negb (User.is_superuser u)) delete_users.

(** [Path.mkdir(parents=True, exist_ok=True)] under the media root *)
Definition mkdir (path : string) : M unit :=
  λ w, match media w !! path with
       | None => (Ok tt, set_media (<[path := Directory]> (media w)) w)
       | Some Directory => (Ok tt, w)
       | Some (Jpeg _ _ _ _) => (Raise FileExistsError, w)
       end.

Definition _ensure_media_dirs : M unit :=
  forM_ ["categories"; "regions"; "artisans"; "products"; "stories";
         "gallery"; "shop_logos"; "profiles"] mkdir.

Definition _color_for (seed : string) : M (Z * Z * Z) :=
  random_seed seed;;
  r ← random_randint 40 200;
  g ← random_randint 40 200;
  b ← random_randint 40 200;
  ret (r, g, b).

Definition image_items : list (string * string) :=
  [ ("categories/textiles.jpg", "Textiles");
    ("categories/pottery.jpg", "Pottery");
    ("categories/jewelry.jpg", "Jewelry");
    ("categories/paintings.jpg", "Paintings");
    ("regions/rajasthan.jpg", "Rajasthan");
    ("regions/gujarat.jpg", "Gujarat");
    ("regions/west-bengal.jpg", "West Bengal");
    ("regions/tamil-nadu.jpg", "Tamil Nadu");
    ("artisans/meera-sharma.jpg", "Meera");
    ("artisans/arjun-patel.jpg", "Arjun");
    ("artisans/riya-sen.jpg", "Riya");
    ("artisans/karthik-iyer.jpg", "Karthik");
    ("products/blue-pottery-vase.jpg", "Blue Vase");
    ("products/ajrakh-stole.jpg", "Ajrakh");
    ("products/terracotta-lamp.jpg", "Lamp");
    ("products/kalamkari-wall-art.jpg", "Kalamkari");
    ("products/silver-jhumkas.jpg", "Jhumkas");
    ("products/kantha-throw.jpg", "Kantha");
    ("stories/heritage-textiles.jpg", "Heritage");
    ("stories/craft-traditions.jpg", "Traditions");
    ("gallery/loom.jpg", "Loom");
    ("gallery/atelier.jpg", "Atelier");
    ("shop_logos/sadbhav-crafts.jpg", "Sadbhav");
    ("shop_logos/raaga-studio.jpg", "Raaga");
    ("shop_logos/sundar-collective.jpg", "Sundar");
    ("profiles/buyer1.jpg", "Buyer");
    ("profiles/buyer2.jpg", "Buyer") ].

Definition file_exists (path : string) : M bool :=
  λ w, (Ok (bool_decide (is_Some (media w !! path))), w).
(** [image.save(path, format="JPEG", quality=85)]: the file is opened
    for writing, which needs its folder to be there and to be a
    directory, and the path itself not to be one. *)
Definition image_save (path : string) (f : File) : M unit :=
  λ w, let folder := match dirname path with
                     | Some d => media w !! d
                     | None => Some Directory
                     end in
       match folder with
       | None => (Raise FileNotFoundError, w)
       | Some (Jpeg _ _ _ _) => (Raise NotADirectoryError, w)
       | Some Directory =>
           match media w !! path with
           | Some Directory => (Raise IsADirectoryError, w)
           | _ => (Ok tt, set_media (<[path := f]> (media w)) w)
           end
       end.

Definition create_image (item : string * string) : M unit :=
  let '(rel_path, label) := item in
  present ← file_exists rel_path;
  if (present : bool) then ret tt
  else colour ← _color_for label;
       image_save rel_path (Jpeg 900 600 colour label).

Definition _create_images : M unit :=
  λ w, if pillow w then forM_ image_items create_image w else (Ok tt, w).

Definition _get_or_create_user (username email password : string) : M User.t :=
  '(user, created) ← get_or_create User_objects User.username username
      (λ i t, User.Build i username email "" false false true t);
  if created || negb (User.has_usable_password user)
  then let user := User.set_password password user in
       save_fields User_objects (User.id user)
                   (User.with_password (User.password user));;
       ret user
  else ret user.

Definition _create_profile (user : User.t) (user_type phone city : string) : M unit :=
  get_or_create UserProfile_objects UserProfile.user (User.id user)
    (λ i t, UserProfile.Build i (User.id user) user_type phone
              (city ++ " Heritage Street, Craft Block") city "India" "302001"
              (Some (if eqb_of user_type "buyer" then "profiles/buyer1.jpg"
                     else "profiles/buyer2.jpg"))
              None "v1" false t t);;
  ret tt.

Definition _create_users : M (gmap string User.t) :=
  enter SUsers;;
  '(admin, _) ← get_or_create User_objects User.username "admin"
      (λ i t, User.Build i "admin" "admin@kala.local" "" true true true t);
  admin ← (if negb (User.has_usable_password admin)
           then let admin := User.set_password "Admin123!" admin in
                save_fields User_objects (User.id admin)
                            (User.with_password (User.password admin));;
                ret admin
           else ret admin);
  buyer1 ← _get_or_create_user "neha" "neha@kala.local" "Kala123!";
  buyer2 ← _get_or_create_user "vikram" "vikram@kala.local" "Kala123!";
  seller1 ← _get_or_create_user "sadbhav" "sadbhav@kala.local" "Kala123!";
  seller2 ← _get_or_create_user "raaga" "raaga@kala.local" "Kala123!";
  seller3 ← _get_or_create_user "sundar" "sundar@kala.local" "Kala123!";
  let users : gmap string User.t :=
    <["seller3" := seller3]> (<["seller2" := seller2]> (<["seller1" := seller1]>
    (<["buyer2" := buyer2]> (<["buyer1" := buyer1]> (<["admin" := admin]> ∅))))) in
  _create_profile buyer1 "buyer" "+91-9876543210" "Jaipur";;
  _create_profile buyer2 "buyer" "+91-9898989898" "Ahmedabad";;
  _create_profile seller1 "seller" "+91-9000000001" "Jaipur";;
  _create_profile seller2 "seller" "+91-9000000002" "Kolkata";;
  _create_profile seller3 "seller" "+91-9000000003" "Chennai";;
  ret users.

Definition _create_regions : M (list Region.t) :=
  enter SRegions;;
  mapM (λ '(name, description),
          let slug := slugify name in
          '(region, _) ← get_or_create Region_objects Region.slug slug
              (λ i t, Region.Build i name slug description
                        ("regions/" ++ slug ++ ".jpg")
                        (name ++ " preserves legacy craft communities and heritage guilds.")
                        t);
          ret region)
    [ ("Rajasthan", "Vibrant desert culture with block printing, blue pottery, and mirror work.");
      ("Gujarat", "Home to Ajrakh, Patola, and folk embroidery traditions.");
      ("West Bengal", "Known for Kantha, terracotta, and storytelling through textiles.");
      ("Tamil Nadu", "Celebrated for Kalamkari, bronze casting, and temple arts.") ].

Definition _create_categories : M (list Category.t) :=
  enter SCategories;;
  mapM (λ '(name, description),
          let slug := slugify name in
          '(category, _) ← get_or_create Category_objects Category.slug slug
              (λ i t, Category.Build i name slug description
                        ("categories/" ++ slug ++ ".jpg") t);
          ret category)
    [ ("Textiles", "Handwoven stoles, sarees, and throws.");
      ("Pottery", "Terracotta and glazed ceramic pieces.");
      ("Jewelry", "Silver, beadwork, and folk accessories.");
      ("Paintings", "Narrative paintings and wall art.") ].

Definition _create_artisans (regions : list Region.t) : M (list Artisan.t) :=
  enter SArtisans;;
  r0 ← index regions 0; r1 ← index regions 1;
  r2 ← index regions 2; r3 ← index regions 3;
  mapM (λ '(name, bio, specialty, experience, region, featured),
          let slug := slugify name in
          '(artisan, _) ← get_or_create Artisan_objects Artisan.slug slug
              (λ i t, Artisan.Build i name slug bio ("artisans/" ++ slug ++ ".jpg")
                        (Region.id region) specialty experience
                        (slug ++ "@kala.local") "+91-9000011122"
                        ("https://" ++ slug ++ ".example.com")
                        [("instagram", "https://instagram.com/" ++ slug)]
                        featured t t);
          ret artisan)
    [ ("Meera Sharma", "Blue pottery artisan specializing in floral glaze work.",
       "Blue Pottery", 12, r0, true);
      ("Arjun Patel", "Ajrakh block printer with a focus on natural dyes.",
       "Ajrakh Printing", 18, r1, true);
      ("Riya Sen", "Kantha storyteller bringing heritage motifs to modern throws.",
       "Kantha Embroidery", 10, r2, false);
      ("Karthik Iyer", "Kalamkari painter known for temple-inspired wall art.",
       "Kalamkari", 15, r3, false) ].

Definition _create_sellers (users : gmap string User.t) (regions : list Region.t)
    : M (list Seller.t) :=
  enter SSellers;;
  u1 ← getitem users "seller1"; r0 ← index regions 0;
  u2 ← getitem users "seller2"; r2 ← index regions 2;
  u3 ← getitem users "seller3"; r3 ← index regions 3;
  mapM (λ '(user, name, description, state, logo),
          rating ← random_uniform_round2 420 490;
          '(seller, _) ← get_or_create Seller_objects Seller.user (User.id user)
              (λ i t, Seller.Build i (User.id user) name description (Some logo)
                        "+91-9000000000" state "1234567890" "Kala Bank"
                        "KALA0001234" 0 0 rating true true t t);
          ret seller)
    [ (u1, "Sadbhav Crafts", "Curated heritage crafts from Rajasthan.",
       Region.name r0, "shop_logos/sadbhav-crafts.jpg");
      (u2, "Raaga Studio", "Textile studio celebrating Bengal artisans.",
       Region.name r2, "shop_logos/raaga-studio.jpg");
      (u3, "Sundar Collective", "Southern crafts and ritual art pieces.",
       Region.name r3, "shop_logos/sundar-collective.jpg") ].

Definition _create_products (categories : list Category.t) (regions : list Region.t)
    (artisans : list Artisan.t) (sellers : list Seller.t) : M (list Product.t) :=
  enter SProducts;;
  c1 ← index categories 1; r0 ← index regions 0;
  a0 ← index artisans 0; s0 ← index sellers 0;
  c0 ← index categories 0; r1 ← index regions 1; a1 ← index artisans 1;
  r2 ← index regions 2; a2 ← index artisans 2; s1 ← index sellers 1;
  c3 ← index categories 3; r3 ← index regions 3;
  a3 ← index artisans 3; s2 ← index sellers 2;
  c2 ← index categories 2;
  products ← mapM
    (λ '(name, desc, category, region, artisan, seller, price, image, featured, stock),
       let slug := slugify name in
       rating ← random_uniform_round2 410 490;
       reviews_count ← random_randint 6 42;
       '(product, _) ← get_or_create Product_objects Product.slug slug
           (λ i t, Product.Build i name slug desc
                     (Some (Category.id category)) (Some (Region.id region))
                     (Some (Artisan.id artisan)) (Some (Seller.id seller))
                     price (Some (price + 40000)) stock image [image] featured
                     (0 <? stock) rating reviews_count t t);
       ret product)
    [ ("Blue Pottery Vase", "Hand-painted blue pottery vase with floral patterns.",
       c1, r0, a0, s0, 249900, "products/blue-pottery-vase.jpg", true, 12);
      ("Ajrakh Cotton Stole", "Naturally dyed Ajrakh stole with geometric motifs.",
       c0, r1, a1, s0, 189900, "products/ajrakh-stole.jpg", true, 25);
      ("Terracotta Lamp", "Handcrafted terracotta lamp with cutwork design.",
       c1, r2, a2, s1, 159900, "products/terracotta-lamp.jpg", false, 18);
      ("Kalamkari Wall Art", "Detailed Kalamkari wall art inspired by temple narratives.",
       c3, r3, a3, s2, 319900, "products/kalamkari-wall-art.jpg", true, 8);
      ("Silver Jhumkas", "Hand-finished silver jhumkas with bead detailing.",
       c2, r1, a1, s2, 129900, "products/silver-jhumkas.jpg", true, 32);
      ("Kantha Throw", "Soft Kantha throw with layered storytelling motifs.",
       c0, r2, a2, s1, 279900, "products/kantha-throw.jpg", false, 14) ];
  forM_ sellers (λ seller,
    d ← get_db;
    let total_products :=
      Z.of_nat (length (select Product_objects
                  (λ p, eqb_of (Product.seller p) (Some (Seller.id seller))) d)) in
    n ← random_randint 50 200;
    save_fields Seller_objects (Seller.id seller)
                (Seller.with_totals total_products (n * 10000)));;
  ret products.

(** A product without seller matches no listing, and the INSERT that
    follows violates NOT NULL. *)
Definition _create_seller_products (sellers : list Seller.t)
    (products : list Product.t) : M unit :=
  enter SSellerProducts;;
  forM_ products (λ product,
    n ← random_randint 1000 9999;
    match Product.seller product with
    | None => raise IntegrityError
    | Some seller =>
        get_or_create SellerProduct_objects
          (λ r, (SellerProduct.seller r, SellerProduct.product r))
          (seller, Product.id product)
          (λ i t, SellerProduct.Build i seller (Product.id product)
                    (upper (prefix_slice 10 (Product.slug product)) ++ "-"
                       ++ str_of_int n)
                    (Product.price product) (Product.stock product) t t);;
        ret tt
    end).

Definition _create_stories (regions : list Region.t) : M unit :=
  enter SStories;;
  r0 ← index regions 0; r1 ← index regions 1;
  r2 ← index regions 2; r3 ← index regions 3;
  forM_
    [ ("Threads of the Desert",
       "Rajasthan's textile heritage blends color, mirror work, and nomadic tales.", r0);
      ("Ajrakh and the Rhythm of Print",
       "Ajrakh printing is a ritual of dye, patience, and geometry.", r1);
      ("Kantha: Stories in Stitches",
       "Bengal's Kantha reflects memory, daily life, and resilience.", r2);
      ("Temple Murals and Kalamkari",
       "Tamil Nadu's Kalamkari connects myth, craft, and devotion.", r3) ]
    (λ '(title, content, region),
       let slug := slugify title in
       get_or_create CulturalStory_objects CulturalStory.slug slug
         (λ i t, CulturalStory.Build i title slug content "Kala Editorial"
                   "stories/heritage-textiles.jpg" (Region.id region) "Heritage"
                   t t true);;
       ret tt).

Definition _create_story_posts (users : gmap string User.t) : M unit :=
  enter SStoryPosts;;
  b1 ← getitem users "buyer1"; b2 ← getitem users "buyer2";
  s1 ← getitem users "seller1"; s2 ← getitem users "seller2";
  s3 ← getitem users "seller3";
  forM_
    [ (b1, "Visited the artisans market today. The detailing was incredible.");
      (b2, "Just got my handcrafted order. Quality is amazing and delivery was smooth.");
      (s1, "New hand-painted collection just dropped this week.");
      (s2, "Working on fresh textile patterns inspired by Bengal heritage.");
      (s3, "Thank you for the support on our latest craft launch!") ]
    (λ '(user, content),
       d ← get_db;
       match select StoryPost_objects
               (λ p, eqb_of (StoryPost.user p, StoryPost.content p)
                            (User.id user, content)) d with
       | [] => create StoryPost_objects
                 (λ i t, StoryPost.Build i (User.id user) content None None t t);;
               ret tt
       | _ :: _ => ret tt
       end).

Definition _create_gallery (artisans : list Artisan.t) (products : list Product.t)
    (regions : list Region.t) : M unit :=
  enter SGallery;;
  a1 ← index artisans 1; a3 ← index artisans 3;
  p0 ← index products 0; p2 ← index products 2;
  r0 ← index regions 0;
  forM_
    [ ("Loom in Motion", "gallery/loom.jpg", Some (Artisan.id a1), None, None, true);
      ("Craft Atelier", "gallery/atelier.jpg", Some (Artisan.id a3), None, None, false);
      ("Blue Pottery Detail", "gallery/loom.jpg", None, Some (Product.id p0), None, true);
      ("Terracotta Textures", "gallery/atelier.jpg", None, Some (Product.id p2), None, false);
      ("Desert Workshop", "gallery/loom.jpg", None, None, Some (Region.id r0), false) ]
    (λ '(title, image, artisan, product, region, featured),
       get_or_create GalleryImage_objects GalleryImage.title title
         (λ i t, GalleryImage.Build i title image
                   (title ++ " capturing the craft process.")
                   artisan product region t featured);;
       ret tt).

Definition order_item (order : Order.t) (product : Product.t) : M unit :=
  get_or_create OrderItem_objects (λ r, (OrderItem.order r, OrderItem.product r))
    (Order.id order, Product.id product)
    (λ i _, OrderItem.Build i (Order.id order) (Product.id product) 1
              (Product.price product));;
  ret tt.

Definition _create_orders (users : gmap string User.t) (products : list Product.t)
    : M unit :=
  enter SOrders;;
  buyer1 ← getitem users "buyer1";
  buyer2 ← getitem users "buyer2";
  '(order1, _) ← get_or_create Order_objects (λ o, (Order.user o, Order.status o))
      (User.id buyer1, "delivered")
      (λ i t, Order.Build i (User.id buyer1) 439800 "delivered"
                "Jaipur Heritage Street, 302001" t t);
  '(order2, _) ← get_or_create Order_objects (λ o, (Order.user o, Order.status o))
      (User.id buyer2, "processing")
      (λ i t, Order.Build i (User.id buyer2) 279900 "processing"
                "Ahmedabad Craft Lane, 380001" t t);
  p0 ← index products 0; order_item order1 p0;;
  p1 ← index products 1; order_item order1 p1;;
  p5 ← index products 5; order_item order2 p5.

(** [created_at] is [auto_now_add]: the reading passed by the caller is
    replaced by the time of the save. *)
Definition _create_product_activity (sellers : list Seller.t)
    (products : list Product.t) (users : gmap string User.t) : M unit :=
  enter SProductActivity;;
  buyer1 ← getitem users "buyer1";
  buyer2 ← getitem users "buyer2";
  let activity_types := ["view"; "click"; "add_cart"; "purchase"] in
  forM_ products (λ product,
    forM_ (seq 0 3) (λ _,
      activity_type ← random_choice activity_types;
      user ← random_choice [buyer1; buyer2];
      _ ← now;
      match Product.seller product with
      | None => raise IntegrityError
      | Some seller =>
          create ProductActivity_objects
            (λ i t, ProductActivity.Build i seller (Product.id product)
                      activity_type (Some (User.id user))
                      [("source", "seed"); ("ref", "homepage")] t);;
          ret tt
      end)).

Definition _create_newsletters (users : gmap string User.t) : M unit :=
  enter SNewsletters;;
  b1 ← getitem users "buyer1";
  get_or_create Newsletter_objects Newsletter.email (User.email b1)
    (λ i t, Newsletter.Build i (User.email b1) t);;
  b2 ← getitem users "buyer2";
  get_or_create Newsletter_objects Newsletter.email (User.email b2)
    (λ i t, Newsletter.Build i (User.email b2) t);;
  ret tt.

(** The block under [with transaction.atomic():] in [handle]; [reset] is
    [options.get("reset")]. *)
Definition atomic_block (reset : bool) : M unit :=
  (if reset then _reset_data else ret tt);;
  _ensure_media_dirs;;
  _create_images;;
  users ← _create_users;
  regions ← _create_regions;
  categories ← _create_categories;
  artisans ← _create_artisans regions;
  sellers ← _create_sellers users regions;
  products ← _create_products categories regions artisans sellers;
  _create_seller_products sellers products;;
  _create_stories regions;;
  _create_story_posts users;;
  _create_gallery artisans products regions;;
  _create_orders users products;;
  _create_product_activity sellers products users;;
  _create_newsletters users.

(** [handle]; the closing message on standard output is not modelled. *)
Definition handle (reset : bool) : M unit := atomic (atomic_block reset).

(** ** [kalakriti/admin.py]: the pages that change prices *)

(** The declarations of an admin class that decide what a change form
    may write. *)
Record AdminOptions := BuildAdmin {
  extra : nat;
  readonly_fields : list string }.

(** [class OrderItemInline(admin.TabularInline)]: [model = OrderItem],
    [extra = 1], and no [readonly_fields]. *)
Definition OrderItemInline : AdminOptions := BuildAdmin 1 [].

(** [class ProductAdmin]: [readonly_fields = ('created_at', 'updated_at')];
    [price] is in the fieldset "Pricing". *)
Definition ProductAdmin : AdminOptions := BuildAdmin 0 ["created_at"; "updated_at"].

Definition editable (opts : AdminOptions) (field : string) : bool :=
  negb (existsb (String.eqb field) (readonly_fields opts)).

(** Saving a changed row of the inline formset of an order: the fields
    of the form that are not read-only replace those of the row; [id] is
    not editable and [order] is the link to the page's order. *)
Definition inline_save (opts : AdminOptions) (form item : OrderItem.t) : OrderItem.t :=
  OrderItem.Build (OrderItem.id item) (OrderItem.order item)
    (if editable opts "product" then OrderItem.product form else OrderItem.product item)
    (if editable opts "quantity" then OrderItem.quantity form else OrderItem.quantity item)
    (if editable opts "price" then OrderItem.price form else OrderItem.price item).

(** ** The operations on the database *)

Inductive ModelName :=
| MUser | MUserProfile | MSeller | MSellerProduct | MProductActivity
| MCategory | MRegion | MArtisan | MProduct | MCulturalStory | MStoryPost
| MGalleryImage | MOrder | MOrderItem | MNewsletter | MFavorite.

Definition delete_of (m : ModelName) : list pk → DB → DB :=
  match m with
  | MUser => delete_users
  | MUserProfile => delete_user_profiles
  | MSeller => delete_sellers
  | MSellerProduct => delete_seller_products
  | MProductActivity => delete_product_activities
  | MCategory => delete_categories
  | MRegion => delete_regions
  | MArtisan => delete_artisans
  | MProduct => delete_products
  | MCulturalStory => delete_cultural_stories
  | MStoryPost => delete_story_posts
  | MGalleryImage => delete_gallery_images
  | MOrder => delete_orders
  | MOrderItem => delete_order_items
  | MNewsletter => delete_newsletters
  | MFavorite => delete_favorites
  end.

(** What can be done to the database with the code of the application:
    run the seeder in a new process (whose generator starts from
    [entropy]); insert a listing, a subscription or a favourite through
    the manager of its model; delete objects of a model; and, in the
    admin, change the price of a product or a row of an order's inline. *)
Inductive Operation :=
| SeedData (reset : bool) (entropy : nat → Z)
| CreateSellerProduct (seller product : pk) (sku : string)
                      (price : hundredths) (stock : Z)
| CreateNewsletter (email : string)
| CreateFavorite (user product : pk)
| DeleteObjects (m : ModelName) (ids : list pk)
| ChangeProductPrice (i : pk) (price : hundredths)
| ChangeOrderItem (i : pk) (form : OrderItem.t).

Definition perform (op : Operation) : M unit :=
  match op with
  | SeedData reset entropy => λ w, handle reset (set_rng (BuildRng entropy 0) w)
  | CreateSellerProduct seller product sku price stock =>
      create SellerProduct_objects
        (λ i t, SellerProduct.Build i seller product sku price stock t t);;
      ret tt
  | CreateNewsletter email =>
      create Newsletter_objects (λ i t, Newsletter.Build i email t);; ret tt
  | CreateFavorite user product =>
      create Favorite_objects (λ i t, Favorite.Build i user product t);; ret tt
  | DeleteObjects m ids => modify_db (delete_of m ids)
  | ChangeProductPrice i price =>
      t ← now;
      modify_db (update_where Product_objects (λ p, Nat.eqb (Product.id p) i)
                   (if editable ProductAdmin "price"
                    then Product.with_price price t else λ p, p))
  | ChangeOrderItem i form =>
      modify_db (update_where OrderItem_objects (λ r, Nat.eqb (OrderItem.id r) i)
                   (inline_save OrderItemInline form))
  end.

Definition step (op : Operation) (w : World) : World := (perform op w).2.

(** The states the operations lead to from an empty database. *)
Inductive reachable : World → Prop :=
| reachable_empty w : db w = empty_db → reachable w
| reachable_step op w : reachable w → reachable (step op w).

(** ** Specifications *)

(** Every run of [m], whether it returns or raises, relates the process
    before to the process after. *)
Definition respects (R : World → World → Prop) {A} (m : M A) : Prop :=
  ∀ w, R w (m w).2.

(** The order in which [handle] calls the stages *)
Definition stage_order : list Stage :=
  [SUsers; SRegions; SCategories; SArtisans; SSellers; SProducts;
   SSellerProducts; SStories; SStoryPosts; SGallery; SOrders;
   SProductActivity; SNewsletters].

(** Two rows of the table are at different positions only if [P] holds
    of them. *)
Definition pairwise {A} (P : A → A → Prop) (l : list A) : Prop :=
  ∀ i j x y, l !! i = Some x → l !! j = Some y → i ≠ j → P x y.

(** [SellerProduct]: one listing per seller and product, and no seller
    SKU twice. *)
Definition seller_products_unique (d : DB) : Prop :=
  pairwise (λ a b,
      (SellerProduct.seller a, SellerProduct.product a)
        ≠ (SellerProduct.seller b, SellerProduct.product b)
      ∧ SellerProduct.seller_sku a ≠ SellerProduct.seller_sku b)
    (seller_products d).

Definition newsletters_unique (d : DB) : Prop :=
  pairwise (λ a b, Newsletter.email a ≠ Newsletter.email b) (newsletters d).

Definition favorites_unique (d : DB) : Prop :=
  pairwise (λ a b, (Favorite.user a, Favorite.product a)
                     ≠ (Favorite.user b, Favorite.product b))
    (favorites d).

(** A relation between the databases and a relation between the traces
    before and after, as a relation between processes *)
Definition on (Rdb : relation DB) (Rtr : relation (list Stage)) : relation World :=
  λ w w', Rdb (db w) (db w') ∧ Rtr (trace w) (trace w').

(** The relation that holds of everything *)
Definition any {A} : relation A := λ _ _, True.

Abbreviation on_db Rdb := (on Rdb any).
Abbreviation on_trace Rtr := (on any Rtr).

(** The rows of the table of [mgr] are still there, unchanged and in
    place, and rows may have been added after them. *)
Definition kept {Row} (mgr : Manager Row) (d d' : DB) : Prop :=
  rows mgr d `prefix_of` rows mgr d'.

(** A foreign key after the objects [ids] are gone, under SET_NULL *)
Definition null_if (ids : list pk) (o : option pk) : option pk :=
  if omem o ids then None else o.

(** Every product of [d] is still in [d'], at its place, with nothing
    changed but foreign keys, and its foreign key [fk] is null if it
    referred to [x] and is as before otherwise. *)
Definition products_survive (fk : Product.t → option pk) (x : pk) (d d' : DB) : Prop :=
  Forall2 (λ p p', (∃ c r a s, p' = Product.with_fks c r a s p)
                   ∧ fk p' = null_if [x] (fk p))
          (products d) (products d').

(** A run of [m] enters the stages [l] in this order, all of them if it
    returns and the first few of them if it raises. *)
Definition emits (l : list Stage) {A} (m : M A) : Prop :=
  ∀ w, ∃ l', l' `prefix_of` l
             ∧ trace (m w).2 = (trace w ++ l')%list
             ∧ (∀ a, (m w).1 = Ok a → l' = l).

(** The table of a model has no rows. *)
Definition table_empty (m : ModelName) (d : DB) : Prop :=
  match m with
  | MUser => users d = []
  | MUserProfile => user_profiles d = []
  | MSeller => sellers d = []
  | MSellerProduct => seller_products d = []
  | MProductActivity => product_activities d = []
  | MCategory => categories d = []
  | MRegion => regions d = []
  | MArtisan => artisans d = []
  | MProduct => products d = []
  | MCulturalStory => cultural_stories d = []
  | MStoryPost => story_posts d = []
  | MGalleryImage => gallery d = []
  | MOrder => orders d = []
  | MOrderItem => order_items d = []
  | MNewsletter => newsletters d = []
  | MFavorite => favorites d = []
  end.

(** No table that is empty in [d] has rows in [d']. *)
Definition emptied (d d' : DB) : Prop :=
  ∀ m, table_empty m d → table_empty m d'.

(** [Model.objects.all().delete()] on the database *)
Definition wipe {Row} (mgr : Manager Row) (m : ModelName) (d : DB) : DB :=
  delete_of m (pks_where mgr (λ _, true) d) d.

(** The database after the first fourteen deletions of [_reset_data] *)
Definition wipe_tables (d : DB) : DB :=
  wipe Region_objects MRegion (wipe Category_objects MCategory
  (wipe Newsletter_objects MNewsletter (wipe UserProfile_objects MUserProfile
  (wipe Seller_objects MSeller (wipe Artisan_objects MArtisan
  (wipe StoryPost_objects MStoryPost (wipe CulturalStory_objects MCulturalStory
  (wipe GalleryImage_objects MGalleryImage (wipe Product_objects MProduct
  (wipe SellerProduct_objects MSellerProduct
  (wipe ProductActivity_objects MProductActivity
  (wipe Order_objects MOrder (wipe OrderItem_objects MOrderItem d))))))))))))).

(** The database after [_reset_data] *)
Definition reset_db (d : DB) : DB :=
  let d' := wipe_tables d in
  delete_users (pks_where User_objects (λ u, negb (User.is_superuser u)) d') d'.

(** Every favourite is a favourite of a product of the database. *)
Definition favorites_have_products (d : DB) : Prop :=
  ∀ f, f ∈ favorites d → ∃ p, p ∈ products d ∧ Favorite.product f = Product.id p.

(** The operations that delete product activity or write its fields:
    the seeder with [--reset], and the deletion of activity rows, of
    sellers and products (CASCADE) and of users (SET_NULL). *)
Definition touches_activity (op : Operation) : bool :=
  match op with
  | SeedData reset _ => reset
  | DeleteObjects (MUser | MSeller | MProduct | MProductActivity) _ => true
  | _ => false
  end.

(** The operation that edits a row of the inline of an order *)
Definition edits_order_item (op : Operation) : bool :=
  match op with
  | ChangeOrderItem _ _ => true
  | _ => false
  end.

(** No key of an order item is larger than the last key issued. *)
Definition order_item_keys_issued (w : World) : Prop :=
  ∀ r, r ∈ order_items (db w) → (OrderItem.id r ≤ issued w)%nat.

(** Keys are only issued upwards, and an order item of the second
    process whose key was issued in the first is a row of the first. *)
Definition order_items_settled : relation World :=
  λ w w', (issued w ≤ issued w')%nat
          ∧ ∀ r, r ∈ order_items (db w') → (OrderItem.id r ≤ issued w)%nat →
                 r ∈ order_items (db w).

(** The [unique] and [unique_together] declarations of [SellerProduct],
    [Newsletter] and [Favorite], as facts about the tables *)
Definition uniques (d : DB) : Prop :=
  NoDup (map SellerProduct.seller_sku (seller_products d))
  ∧ NoDup (map (λ r, (SellerProduct.seller r, SellerProduct.product r))
               (seller_products d))
  ∧ NoDup (map Newsletter.email (newsletters d))
  ∧ NoDup (map (λ r, (Favorite.user r, Favorite.product r)) (favorites d)).

(** An invariant of the database, as a relation between the databases
    before and after *)
Definition preserving (I : DB → Prop) : relation DB := λ d d', I d → I d'.

(** A computation that neither reads nor writes the generator of
    [random]: run from another state of the generator, it does the same
    and leaves that state. *)
Definition rng_blind {A} (m : M A) : Prop :=
  ∀ g w, m (set_rng g w) = ((m w).1, set_rng g (m w).2).

(** ** A second run after a first *)

(** Two rows of [User] that differ in the password at most, the second
    with a usable password if the first has one. *)
Definition repassworded (u u' : User.t) : Prop :=
  u' = User.with_password (User.password u') u
  ∧ (User.has_usable_password u = true → User.has_usable_password u' = true).

(** Two rows of [Seller] that differ in [total_products] and
    [total_sales] at most. *)
Definition retotalled (s s' : Seller.t) : Prop :=
  s' = Seller.with_totals (Seller.total_products s') (Seller.total_sales s') s.

(** The lookups on [key] that find rows in [d] find the same rows in
    [d'], up to [E], and the primary keys of [d] are still in [d']. *)
Definition evolves {Row K} `{EqDecision K} (mgr : Manager Row) (key : Row → K)
    (E : relation Row) (d d' : DB) : Prop :=
  (∀ k, select mgr (λ r, eqb_of (key r) k) d ≠ [] →
        Forall2 E (select mgr (λ r, eqb_of (key r) k) d)
                  (select mgr (λ r, eqb_of (key r) k) d'))
  ∧ (∀ i, i ∈ map (pk_of mgr) (rows mgr d) → i ∈ map (pk_of mgr) (rows mgr d')).

(** The lookups of the seeder, table by table *)
Definition stable (d d' : DB) : Prop :=
  evolves User_objects User.username repassworded d d'
  ∧ evolves UserProfile_objects UserProfile.user eq d d'
  ∧ evolves Seller_objects Seller.user retotalled d d'
  ∧ evolves SellerProduct_objects
      (λ r, (SellerProduct.seller r, SellerProduct.product r)) eq d d'
  ∧ evolves Category_objects Category.slug eq d d'
  ∧ evolves Region_objects Region.slug eq d d'
  ∧ evolves Artisan_objects Artisan.slug eq d d'
  ∧ evolves Product_objects Product.slug eq d d'
  ∧ evolves CulturalStory_objects CulturalStory.slug eq d d'
  ∧ evolves StoryPost_objects (λ p, (StoryPost.user p, StoryPost.content p)) eq d d'
  ∧ evolves GalleryImage_objects GalleryImage.title eq d d'
  ∧ evolves Order_objects (λ o, (Order.user o, Order.status o)) eq d d'
  ∧ evolves OrderItem_objects (λ r, (OrderItem.order r, OrderItem.product r)) eq d d'
  ∧ evolves Newsletter_objects Newsletter.email eq d d'.

(** Files stay, and directories stay directories. *)
Definition media_grows (m m' : gmap string File) : Prop :=
  ∀ p, (m !! p = Some Directory → m' !! p = Some Directory)
       ∧ (is_Some (m !! p) → is_Some (m' !! p)).

Definition settled (w w' : World) : Prop :=
  stable (db w) (db w') ∧ media_grows (media w) (media w') ∧ pillow w' = pillow w.

(** [d'] is [d] with [n] rows added to [ProductActivity] and the totals
    of the sellers written again; nothing else differs. *)
Definition calm (n : nat) (d d' : DB) : Prop :=
  users d' = users d
  ∧ user_profiles d' = user_profiles d
  ∧ Forall2 retotalled (sellers d) (sellers d')
  ∧ seller_products d' = seller_products d
  ∧ (∃ new, product_activities d' = (product_activities d ++ new)%list ∧ length new = n)
  ∧ categories d' = categories d
  ∧ regions d' = regions d
  ∧ artisans d' = artisans d
  ∧ products d' = products d
  ∧ cultural_stories d' = cultural_stories d
  ∧ story_posts d' = story_posts d
  ∧ gallery d' = gallery d
  ∧ orders d' = orders d
  ∧ order_items d' = order_items d
  ∧ newsletters d' = newsletters d
  ∧ favorites d' = favorites d.

Definition calmly (n : nat) (v v' : World) : Prop :=
  calm n (db v) (db v') ∧ media v' = media v ∧ pillow v' = pillow v.

(** [m] has run and returned; [m'], run in any later process in which
    the lookups of the seeder find what they found at the end of the
    run of [m], returns a result related by [E] and changes the database
    calmly, adding [n] rows of [ProductActivity]. *)
Definition replays (n : nat) {A} (E : A → A → Prop) (m m' : M A) : Prop :=
  ∀ w a w', m w = (Ok a, w') →
    settled w w'
    ∧ ∀ v, settled w' v →
        ∃ a' v', m' v = (Ok a', v') ∧ E a a' ∧ calmly n v v'.

(** Dictionaries with the same keys and related values *)
Definition related_items {A} (E : relation A) (m m' : gmap string A) : Prop :=
  ∀ k, option_Forall2 E (m !! k) (m' !! k).

(** A table of the seeder with the key of its lookups *)
Class Tracked {Row K} `{EqDecision K} (mgr : Manager Row) (key : Row → K)
    (E : relation Row) : Prop := {
  tracked_preorder :: PreOrder E;
  tracked_rows_put l d : rows mgr (put mgr l d) = l;
  tracked_stable d d' : stable d d' → evolves mgr key E d d';
  tracked_put d l : evolves mgr key E d (put mgr l d) → stable d (put mgr l d) }.

(** ** What a run leaves as it is *)

(** The table of [mgr] is the same. *)
Definition untouched {Row} (mgr : Manager Row) (d d' : DB) : Prop :=
  rows mgr d' = rows mgr d.

(** The rows of the table of [mgr] are still there and in place, each
    changed within [E] at most, and rows may have been added after
    them. *)
Definition kept_within {Row} (E : relation Row) (mgr : Manager Row) (d d' : DB) : Prop :=
  ∃ old new, rows mgr d' = (old ++ new)%list ∧ Forall2 E (rows mgr d) old.

(** Every file of the first process is in the second, with its content. *)
Definition files_kept (w w' : World) : Prop := media w ⊆ media w'.

(** The folders that [_ensure_media_dirs] makes *)
Definition media_folders : list string :=
  ["categories"; "regions"; "artisans"; "products"; "stories";
   "gallery"; "shop_logos"; "profiles"].

(** The folder of [path] is a directory of [m]. *)
Definition in_folder (m : gmap string File) (path : string) : Prop :=
  ∃ d, dirname path = Some d ∧ m !! d = Some Directory.

(** The rows of [User] with the key [i] *)
Definition users_at (i : pk) (d : DB) : list User.t :=
  List.filter (λ x, Nat.eqb (User.id x) i) (users d).

(** The kinds of activity that the seeder draws from *)
Definition seeded_activity_types : list string := ["view"; "click"; "add_cart"; "purchase"].

(** The number of products of the seller with the key [i] *)
Definition products_of (i : pk) (d : DB) : Z :=
  Z.of_nat (length (select Product_objects
                      (λ p, eqb_of (Product.seller p) (Some i)) d)).

(** The totals of a seller as [_create_products] leaves them *)
Definition totals_set (d : DB) (s : Seller.t) : Prop :=
  Seller.total_products s = products_of (Seller.id s) d
  ∧ ∃ n, 50 ≤ n ≤ 200 ∧ Seller.total_sales s = n * 10000.

(** [unique=True] on the slugs and the one-to-one fields of
    [models.py] *)
Definition catalog_uniques (d : DB) : Prop :=
  NoDup (map UserProfile.user (user_profiles d))
  ∧ NoDup (map Seller.user (sellers d))
  ∧ NoDup (map Category.slug (categories d))
  ∧ NoDup (map Region.slug (regions d))
  ∧ NoDup (map Artisan.slug (artisans d))
  ∧ NoDup (map Product.slug (products d))
  ∧ NoDup (map CulturalStory.slug (cultural_stories d)).

(** ** What the stages of the seeder construct *)

(** The user names that [_create_users] looks up *)
Definition seeded_usernames : list string :=
  ["admin"; "neha"; "vikram"; "sadbhav"; "raaga"; "sundar"].

(** The password that [_create_users] sets for a user name it looks up *)
Definition seeded_password (username : string) : string :=
  if eqb_of username "admin" then "Admin123!" else "Kala123!".

(** The lookup on [key] finds one row under the key of [r], which is [r]
    up to [E]. *)
Definition holds {Row K} `{EqDecision K} (mgr : Manager Row) (key : Row → K)
    (E : relation Row) (r : Row) (d : DB) : Prop :=
  ∃ r', select mgr (λ x, eqb_of (key x) (key r)) d = [r'] ∧ E r r'.

(** The lookup on [key] finds a row under [k]. *)
Definition found {Row K} `{EqDecision K} (mgr : Manager Row) (key : Row → K)
    (k : K) (d : DB) : Prop :=
  select mgr (λ x, eqb_of (key x) k) d ≠ [].

(** What the stages return to [handle] *)
Record Outputs := BuildOutputs {
  o_users : gmap string User.t;
  o_regions : list Region.t;
  o_categories : list Category.t;
  o_artisans : list Artisan.t;
  o_sellers : list Seller.t;
  o_products : list Product.t }.

(** The stage [S] has constructed its entities: the rows that it looks
    up or creates are in the database [d], under the keys of the
    seeder, and the rows that it has returned are those rows. *)
Definition constructed (S : Stage) (o : Outputs) (d : DB) : Prop :=
  match S with
  | SUsers =>
      Forall (λ kn : string * string,
                ∃ u, o_users o !! kn.1 = Some u ∧ User.username u = kn.2
                     ∧ holds User_objects User.username repassworded u d
                     ∧ (kn.1 = "admin"
                        ∨ found UserProfile_objects UserProfile.user (User.id u) d))
        [("admin", "admin"); ("buyer1", "neha"); ("buyer2", "vikram");
         ("seller1", "sadbhav"); ("seller2", "raaga"); ("seller3", "sundar")]
  | SRegions =>
      Forall2 (λ slug r, Region.slug r = slug
                         ∧ holds Region_objects Region.slug eq r d)
        ["rajasthan"; "gujarat"; "west-bengal"; "tamil-nadu"] (o_regions o)
  | SCategories =>
      Forall2 (λ slug c, Category.slug c = slug
                         ∧ holds Category_objects Category.slug eq c d)
        ["textiles"; "pottery"; "jewelry"; "paintings"] (o_categories o)
  | SArtisans =>
      Forall2 (λ slug a, Artisan.slug a = slug
                         ∧ holds Artisan_objects Artisan.slug eq a d)
        ["meera-sharma"; "arjun-patel"; "riya-sen"; "karthik-iyer"] (o_artisans o)
  | SSellers =>
      Forall2 (λ k s, ∃ u, o_users o !! k = Some u ∧ Seller.user s = User.id u
                           ∧ holds Seller_objects Seller.user retotalled s d)
        ["seller1"; "seller2"; "seller3"] (o_sellers o)
  | SProducts =>
      Forall2 (λ slug p, Product.slug p = slug
                         ∧ holds Product_objects Product.slug eq p d)
        ["blue-pottery-vase"; "ajrakh-cotton-stole"; "terracotta-lamp";
         "kalamkari-wall-art"; "silver-jhumkas"; "kantha-throw"] (o_products o)
  | SSellerProducts =>
      Forall (λ p, ∃ s, Product.seller p = Some s
                        ∧ found SellerProduct_objects
                            (λ r, (SellerProduct.seller r, SellerProduct.product r))
                            (s, Product.id p) d)
        (o_products o)
  | SStories =>
      Forall (λ slug, found CulturalStory_objects CulturalStory.slug slug d)
        ["threads-of-the-desert"; "ajrakh-and-the-rhythm-of-print";
         "kantha-stories-in-stitches"; "temple-murals-and-kalamkari"]
  | SStoryPosts =>
      Forall (λ kc : string * string,
                ∃ u, o_users o !! kc.1 = Some u
                     ∧ found StoryPost_objects
                         (λ p, (StoryPost.user p, StoryPost.content p))
                         (User.id u, kc.2) d)
        [("buyer1", "Visited the artisans market today. The detailing was incredible.");
         ("buyer2", "Just got my handcrafted order. Quality is amazing and delivery was smooth.");
         ("seller1", "New hand-painted collection just dropped this week.");
         ("seller2", "Working on fresh textile patterns inspired by Bengal heritage.");
         ("seller3", "Thank you for the support on our latest craft launch!")]
  | SGallery =>
      Forall (λ title, found GalleryImage_objects GalleryImage.title title d)
        ["Loom in Motion"; "Craft Atelier"; "Blue Pottery Detail";
         "Terracotta Textures"; "Desert Workshop"]
  | SOrders =>
      ∃ b1 b2 o1 o2 p0 p1 p5,
        o_users o !! "buyer1" = Some b1 ∧ o_users o !! "buyer2" = Some b2
        ∧ o_products o !! 0%nat = Some p0 ∧ o_products o !! 1%nat = Some p1
        ∧ o_products o !! 5%nat = Some p5
        ∧ select Order_objects
            (λ x, eqb_of (Order.user x, Order.status x) (User.id b1, "delivered")) d
          = [o1]
        ∧ select Order_objects
            (λ x, eqb_of (Order.user x, Order.status x) (User.id b2, "processing")) d
          = [o2]
        ∧ Forall (λ op : Order.t * Product.t,
                    found OrderItem_objects
                      (λ r, (OrderItem.order r, OrderItem.product r))
                      (Order.id op.1, Product.id op.2) d)
            [(o1, p0); (o1, p1); (o2, p5)]
  | SProductActivity =>
      Forall (λ p, ∃ s, Product.seller p = Some s
                        ∧ (3 ≤ length (select ProductActivity_objects
                                         (λ a, eqb_of (ProductActivity.seller a,
                                                       ProductActivity.product a)
                                                      (s, Product.id p)) d))%nat)
        (o_products o)
  | SNewsletters =>
      Forall (λ k, ∃ u, o_users o !! k = Some u
                        ∧ found Newsletter_objects Newsletter.email (User.email u) d)
        ["buyer1"; "buyer2"]
  end.

(** The first [n] stages of [handle] have constructed their entities. *)
Definition completed (n : nat) (o : Outputs) (d : DB) : Prop :=
  Forall (λ S, constructed S o d) (take n stage_order).

(** From a database that satisfies [P], [m] does not return. *)
Definition blocked (P : DB → Prop) {A} (m : M A) : Prop :=
  ∀ w, P (db w) → ∀ a w', m w ≠ (Ok a, w').

(** From a database that satisfies [P], what [m] returns and the
    database it leaves satisfy [Q]. *)
Definition returns (P : DB → Prop) {A} (m : M A) (Q : A → DB → Prop) : Prop :=
  ∀ w a w', P (db w) → m w = (Ok a, w') → Q a (db w').

(** Two gallery images or more have the title [title]. *)
Definition gallery_title_twice (title : string) (d : DB) : Prop :=
  (2 ≤ length (select GalleryImage_objects
                 (λ g, eqb_of (GalleryImage.title g) title) d))%nat.

(** One product has the slug [slug], and it has no seller. *)
Definition orphan_product (slug : string) (d : DB) : Prop :=
  ∃ p, select Product_objects (λ x, eqb_of (Product.slug x) slug) d = [p]
       ∧ Product.seller p = None.

(** ** Sample processes *)

Definition demo_entropy (n : nat) : Z := Z.of_nat n * 7919 + 13.
Definition demo_twister (label : string) (n : nat) : Z :=
  Z.of_nat (String.length label) * 31 + Z.of_nat n * 17.

(** A new installation: empty database, no media files. *)
Definition fresh_world : World :=
  BuildWorld empty_db ∅ (BuildRng demo_entropy 0) demo_twister true 1000 0 [].

Definition loom (i : pk) : GalleryImage.t :=
  GalleryImage.Build i "Loom in Motion" "gallery/loom.jpg" "" None None None 10 true.

(** A database in which two gallery images have the title that the
    seeder looks up. *)
Definition doubled_world : World :=
  set_db (set_gallery [loom 1; loom 2] empty_db) fresh_world.

Definition root_user : User.t :=
  User.Build 1 "root" "root@kala.local" "pbkdf2_sha256$secret" true true true 5.
Definition guest_user : User.t :=
  User.Build 2 "guest" "guest@kala.local" "pbkdf2_sha256$guest" false false true 6.
Definition guest_shop : Seller.t :=
  Seller.Build 1 2 "Guest Crafts" "" None "+91-1" "Goa" "" "" "" 1 0 450
               true true 6 6.
Definition lamp : Product.t :=
  Product.Build 1 "Lamp" "lamp" "A lamp." None None None (Some 1%nat) 159900 None 3
                "products/lamp.jpg" [] false true 0 0 7 7.
Definition lamp_view : ProductActivity.t :=
  ProductActivity.Build 1 1 1 "view" (Some 1%nat) [("source", "web")] 8.
Definition lamp_item : OrderItem.t := OrderItem.Build 1 1 1 1 159900.

(** A database with a superuser, another user who sells a product, and
    rows that refer to them. *)
Definition staffed_world : World :=
  set_issued 2
    (set_db (BuildDB [root_user; guest_user] [] [guest_shop] [] [lamp_view]
               [] [] [] [lamp] [] [] []
               [Order.Build 1 2 159900 "pending" "Jaipur" 8 8]
               [lamp_item]
               [Newsletter.Build 1 "guest@kala.local" 9]
               [Favorite.Build 1 1 1 9; Favorite.Build 2 2 1 9])
            fresh_world).

(** The pictures of an earlier run are in place and the database has
    been emptied. *)
Definition furnished_world : World :=
  set_media (media (handle false fresh_world).2) fresh_world.
Definition other_entropy (n : nat) : Z := Z.of_nat n * 104729 + 7.

(** The new installation after one run of the seeder *)
Definition seeded_world : World := (handle false fresh_world).2.

(** The first buyer as a new installation gets it *)
Definition seeded_neha : User.t :=
  User.Build 1 "neha" "neha@kala.local" "pbkdf2_sha256$Kala123!" false false true 1000.

(** The users that [_create_users] returns on a new installation *)
Definition seeded_users : gmap string User.t :=
  match (_create_users fresh_world).1 with
  | Ok users => users
  | Raise _ => ∅
  end.

(** Two users under the keys of the two buyers *)
Definition two_buyers : gmap string User.t :=
  <["buyer2" := guest_user]> (<["buyer1" := root_user]> ∅).

(** [_create_products] run again on the seeded installation, with the
    rows of its tables as arguments *)
Definition products_again : Result (list Product.t) * World :=
  _create_products (categories (db seeded_world)) (regions (db seeded_world))
    (artisans (db seeded_world)) (sellers (db seeded_world)) seeded_world.

(** The seeded installation after its sellers have been deleted *)
Definition unsold_world : World :=
  step (DeleteObjects MSeller (map Seller.id (sellers (db seeded_world)))) seeded_world.

(** An administrator whose password has been made unusable, as
    [set_unusable_password] leaves it *)
Definition locked_admin : User.t :=
  User.Build 1 "admin" "admin@kala.local" "!locked" true true true 5.

(** An installation with that administrator and nothing else *)
Definition locked_world : World :=
  set_issued 1 (set_db (set_users [locked_admin] empty_db) fresh_world).

(** * Properties *)

(** ** Running computations *)

Lemma run_bind {A B} (m : M A) (k : A → M B) w :
  (m ≫= k) w = match m w with
               | (Ok a, w') => k a w'
               | (Raise e, w') => (Raise e, w')
               end.
Proof. reflexivity. Qed.

Lemma bind_Ok_inv {A B} (m : M A) (k : A → M B) w b w' :
  (m ≫= k) w = (Ok b, w') → ∃ a w1, m w = (Ok a, w1) ∧ k a w1 = (Ok b, w').
Proof.
  rewrite run_bind. destruct (m w) as [[a|e] w1]; [eauto | discriminate].
Qed.

Lemma bind_Ok {A B} (m : M A) (k : A → M B) w a w1 :
  m w = (Ok a, w1) → (m ≫= k) w = k a w1.
Proof. intros H. by rewrite run_bind, H. Qed.

Lemma bind_Raise {A B} (m : M A) (k : A → M B) w e w1 :
  m w = (Raise e, w1) → (m ≫= k) w = (Raise e, w1).
Proof. intros H. by rewrite run_bind, H. Qed.

(** ** Relations that every step of a computation respects *)

Section respects.
Context (R : World → World → Prop) `{!PreOrder R}.

Lemma respects_ret {A} (a : A) : respects R (ret a).
Proof. intros w. simpl. reflexivity. Qed.

Lemma respects_raise {A} e : respects R (raise (A := A) e).
Proof. intros w. simpl. reflexivity. Qed.

Lemma respects_bind {A B} (m : M A) (k : A → M B) :
  respects R m → (∀ a, respects R (k a)) → respects R (m ≫= k).
Proof.
  intros Hm Hk w. rewrite run_bind. specialize (Hm w).
  destruct (m w) as [[a|e] w1]; simpl in *; [| done].
  etrans; [exact Hm | apply Hk].
Qed.

Lemma respects_mapM {A B} (f : A → M B) l :
  (∀ a, respects R (f a)) → respects R (mapM f l).
Proof.
  intros Hf. induction l as [|a l IH]; simpl.
  - apply respects_ret.
  - apply respects_bind; [apply Hf | intros b].
    apply respects_bind; [apply IH | intros bs]. apply respects_ret.
Qed.

Lemma respects_forM_ {A} (f : A → M unit) l :
  (∀ a, respects R (f a)) → respects R (forM_ l f).
Proof.
  intros Hf. induction l as [|a l IH]; simpl.
  - apply respects_ret.
  - apply respects_bind; [apply Hf | intros _; apply IH].
Qed.

Lemma respects_index {A} (l : list A) i : respects R (index l i).
Proof. unfold index. destruct (l !! i); [apply respects_ret | apply respects_raise]. Qed.

Lemma respects_getitem {A} (d : gmap string A) k : respects R (getitem d k).
Proof. unfold getitem. destruct (d !! k); [apply respects_ret | apply respects_raise]. Qed.

Lemma respects_get_db : respects R get_db.
Proof. intros w. simpl. reflexivity. Qed.
End respects.

(** ** Steps of the object-relational layer *)

(** A relation between processes that the steps of a computation can be
    checked against: it is a preorder, and it relates processes that
    differ in files, generator and clock only. *)
Class Respectable (R : relation World) := {
  #[global] respectable_preorder :: PreOrder R;
  respectable_env w w' :
    db w' = db w → trace w' = trace w → issued w' = issued w → R w w' }.

#[global] Instance any_preorder {A} : PreOrder (@any A).
Proof. by split. Qed.

#[global] Instance on_preorder Rdb Rtr `{!PreOrder Rdb, !PreOrder Rtr} :
  PreOrder (on Rdb Rtr).
Proof.
  split.
  - intros w. split; reflexivity.
  - intros w1 w2 w3 [H1 H1'] [H2 H2']. split; by etrans.
Qed.

#[global] Instance on_respectable Rdb Rtr `{!PreOrder Rdb, !PreOrder Rtr} :
  Respectable (on Rdb Rtr).
Proof.
  split; [apply _ |]. intros w w' Hd Ht _. split; [rewrite Hd | rewrite Ht]; reflexivity.
Qed.

Section respects_steps.
Context (R : relation World) `{!Respectable R}.

(** A step that leaves database, trace and issued keys alone *)
Lemma respects_pure {A} (m : M A) :
  (∀ w, db (m w).2 = db w ∧ trace (m w).2 = trace w ∧ issued (m w).2 = issued w) →
  respects R m.
Proof. intros H w. destruct (H w) as (H1 & H2 & H3). by apply respectable_env. Qed.

Lemma respects_now : respects R now.
Proof. by apply respects_pure. Qed.
Lemma respects_random_raw : respects R random_raw.
Proof. by apply respects_pure. Qed.
Lemma respects_random_seed s : respects R (random_seed s).
Proof. by apply respects_pure. Qed.
Lemma respects_random_randint a b : respects R (random_randint a b).
Proof. by apply respects_pure. Qed.
Lemma respects_random_uniform a b : respects R (random_uniform_round2 a b).
Proof. by apply respects_pure. Qed.
Lemma respects_random_choice {A} (l : list A) : respects R (random_choice l).
Proof.
  apply respects_pure. intros w. unfold random_choice.
  rewrite run_bind. simpl. by destruct (l !! _).
Qed.
Lemma respects_mkdir p : respects R (mkdir p).
Proof.
  apply respects_pure. intros w. unfold mkdir.
  by destruct (media w !! p) as [[]|].
Qed.
Lemma respects_file_exists p : respects R (file_exists p).
Proof. by apply respects_pure. Qed.
Lemma respects_image_save p f : respects R (image_save p f).
Proof.
  apply respects_pure. intros w. unfold image_save. by repeat case_match.
Qed.

Lemma respects_enter (s : Stage) :
  (∀ w, R w (set_trace (trace w ++ [s]) w)) → respects R (enter s).
Proof. intros H w. apply H. Qed.

Lemma respects_modify_db f :
  (∀ w, R w (set_db (f (db w)) w)) → respects R (modify_db f).
Proof. intros H w. apply H. Qed.

Lemma respects_insert {Row} (mgr : Manager Row) mk :
  (∀ w, existsb (clash mgr (mk (new_pk mgr w))) (rows mgr (db w)) = false →
        R w (set_issued (new_pk mgr w)
               (set_db (put mgr (rows mgr (db w) ++ [mk (new_pk mgr w)]) (db w)) w))) →
  respects R (insert mgr mk).
Proof.
  intros H w. unfold insert.
  destruct (existsb _ _) eqn:E; simpl; [reflexivity | by apply H].
Qed.

Lemma respects_create {Row} (mgr : Manager Row) mk :
  (∀ t w, existsb (clash mgr (mk (new_pk mgr w) t)) (rows mgr (db w)) = false →
          R w (set_issued (new_pk mgr w)
                 (set_db (put mgr (rows mgr (db w) ++ [mk (new_pk mgr w) t]) (db w)) w))) →
  respects R (create mgr mk).
Proof.
  intros H. unfold create. apply respects_bind; [apply _ | apply respects_now |].
  intros t. apply respects_insert. apply H.
Qed.

Lemma respects_get_or_create {Row K} `{EqDecision K} (mgr : Manager Row)
    (key : Row → K) k mk :
  (∀ t w, existsb (clash mgr (mk (new_pk mgr w) t)) (rows mgr (db w)) = false →
          R w (set_issued (new_pk mgr w)
                 (set_db (put mgr (rows mgr (db w) ++ [mk (new_pk mgr w) t]) (db w)) w))) →
  respects R (get_or_create mgr key k mk).
Proof.
  intros H. unfold get_or_create.
  apply respects_bind; [apply _ | apply respects_get_db; apply _ |].
  intros d. destruct (select _ _ _) as [|r [|r' l]].
  - apply respects_bind; [apply _ | by apply respects_create |].
    intros r. apply respects_ret; apply _.
  - apply respects_ret; apply _.
  - apply respects_raise; apply _.
Qed.

Lemma respects_save_fields {Row} (mgr : Manager Row) i f :
  (∀ w, R w (set_db (put mgr (map (λ r, if Nat.eqb (pk_of mgr r) i then f r else r)
                                  (rows mgr (db w))) (db w)) w)) →
  respects R (save_fields mgr i f).
Proof.
  intros H w. unfold save_fields. rewrite run_bind. simpl.
  destruct (existsb _ _); simpl; [apply H | reflexivity].
Qed.

Lemma respects_atomic {A} (m : M A) :
  (∀ w w', R w w' → R w (set_db (db w) w')) →
  respects R m → respects R (atomic m).
Proof.
  intros Hroll H w. unfold atomic. specialize (H w).
  destruct (m w) as [[a|e] w']; simpl in *; [done | by apply Hroll].
Qed.
End respects_steps.

(** ** Walking through a computation *)

#[global] Instance kept_preorder {Row} (mgr : Manager Row) : PreOrder (kept mgr).
Proof.
  split.
  - intros d. unfold kept. reflexivity.
  - intros d1 d2 d3. unfold kept. apply transitivity.
Qed.

Lemma respects_create_images R `{!Respectable R} : respects R _create_images.
Proof.
  intros w. unfold _create_images. destruct (pillow w); [| reflexivity].
  revert w. change (respects R (forM_ image_items create_image)).
  apply respects_forM_; [apply _ |]. intros [p l]. unfold create_image, _color_for.
  repeat lazymatch goal with
    | |- respects _ (_ ≫= _) => apply respects_bind; [apply _ | | intros ?]
    | |- respects _ (ret _) => apply respects_ret; apply _
    | |- respects _ (file_exists _) => apply respects_file_exists; apply _
    | |- respects _ (random_seed _) => apply respects_random_seed; apply _
    | |- respects _ (random_randint _ _) => apply respects_random_randint; apply _
    | |- respects _ (image_save _ _) => apply respects_image_save; apply _
    | |- respects _ (if ?b then _ else _) => destruct b
    end.
Qed.

(** [respects_walk tac] proves [respects R m] for a computation [m] of
    the seeder; [tac] proves that the writes of [m] are in [R]. *)
Ltac respects_step tac :=
  lazymatch goal with
  | |- respects _ (_ ≫= _) => apply respects_bind; [apply _ | | intros ?]
  | |- respects _ (ret _) => apply respects_ret; apply _
  | |- respects _ (raise _) => apply respects_raise; apply _
  | |- respects _ (mapM _ _) => apply respects_mapM; [apply _ | intros ?]
  | |- respects _ (forM_ _ _) => apply respects_forM_; [apply _ | intros ?]
  | |- respects _ (index _ _) => apply respects_index; apply _
  | |- respects _ (getitem _ _) => apply respects_getitem; apply _
  | |- respects _ get_db => apply respects_get_db; apply _
  | |- respects _ now => apply respects_now; apply _
  | |- respects _ (random_randint _ _) => apply respects_random_randint; apply _
  | |- respects _ (random_uniform_round2 _ _) => apply respects_random_uniform; apply _
  | |- respects _ (random_choice _) => apply respects_random_choice; apply _
  | |- respects _ (mkdir _) => apply respects_mkdir; apply _
  | |- respects _ _create_images => apply respects_create_images; apply _
  | |- respects _ (enter _) => apply respects_enter; [apply _ .. | tac]
  | |- respects _ (get_or_create _ _ _ _) =>
      apply respects_get_or_create; [apply _ .. | tac]
  | |- respects _ (create _ _) => apply respects_create; [apply _ .. | tac]
  | |- respects _ (save_fields _ _ _) => apply respects_save_fields; [apply _ .. | tac]
  | |- respects _ (queryset_delete _ _ _) =>
      apply respects_modify_db; [apply _ .. | tac]
  | |- respects _ (atomic _) => apply respects_atomic; [apply _ .. | tac |]
  | |- respects _ (match ?x with _ => _ end) => destruct x
  | |- respects _ _ => progress cbv beta
  end.

Ltac respects_walk tac :=
  unfold handle, atomic_block, _reset_data, _ensure_media_dirs, _create_users,
    _get_or_create_user, _create_profile, _create_regions, _create_categories,
    _create_artisans, _create_sellers, _create_products, _create_seller_products,
    _create_stories, _create_story_posts, _create_gallery, _create_orders,
    order_item, _create_product_activity, _create_newsletters;
  repeat respects_step tac.

(** For [on Rdb Rtr]: [dbtac] proves that a write is in [Rdb]. *)
Ltac on_tac dbtac :=
  intros;
  lazymatch goal with
  | H : on _ _ _ _ |- on _ _ _ _ => destruct H; split; simpl; [reflexivity | done]
  | |- on _ _ _ _ => split; simpl; [dbtac | first [reflexivity | done]]
  end.

Ltac kept_tac :=
  on_tac ltac:(unfold kept; simpl; first [reflexivity | by apply prefix_app_r]).

Lemma seed_keeps_activities :
  respects (on_db (kept ProductActivity_objects)) (handle false).
Proof. respects_walk kept_tac. Qed.

Lemma respects_db_on Rdb {A} (m : M A) :
  respects (on_db Rdb) m → ∀ w, Rdb (db w) (db (m w).2).
Proof. intros H w. apply H. Qed.

(** ** Deletion policies *)

Lemma Forall2_map_self {A B} (P : A → B → Prop) (f : A → B) l :
  (∀ x, P x (f x)) → Forall2 P l (map f l).
Proof. intros H. induction l; simpl; constructor; auto. Qed.

Lemma with_fks_same p :
  Product.with_fks (Product.category p) (Product.region p) (Product.artisan p)
                   (Product.seller p) p = p.
Proof. by destruct p. Qed.

Lemma filter_negb_mem_not_in {A} (f : A → pk) x l a :
  a ∈ List.filter (λ r, negb (mem (f r) [x])) l → f a ≠ x.
Proof.
  rewrite list_elem_of_In, filter_In. intros [_ H] E. rewrite E in H.
  unfold mem in H. simpl in H. by rewrite Nat.eqb_refl in H.
Qed.

Lemma filter_negb_omem_not_in {A} (f : A → option pk) x l a :
  a ∈ List.filter (λ r, negb (omem (f r) [x])) l → f a ≠ Some x.
Proof.
  rewrite list_elem_of_In, filter_In. intros [_ H] E. rewrite E in H.
  unfold omem, mem in H. simpl in H. by rewrite Nat.eqb_refl in H.
Qed.

(** C3. Deleting a category, a region, an artisan or a seller keeps every
    product, with the foreign key to the deleted object set to null;
    deleting a product deletes the order items and the gallery images
    that refer to it. *)
Theorem C3_delete_policies (d : DB) (x : pk) :
  products_survive Product.category x d (delete_categories [x] d)
  ∧ products_survive Product.region x d (delete_regions [x] d)
  ∧ products_survive Product.artisan x d (delete_artisans [x] d)
  ∧ products_survive Product.seller x d (delete_sellers [x] d)
  ∧ (∀ i, i ∈ order_items (delete_products [x] d) → OrderItem.product i ≠ x)
  ∧ (∀ g, g ∈ gallery (delete_products [x] d) → GalleryImage.product g ≠ Some x)
  ∧ (∀ p, p ∈ products (delete_products [x] d) → Product.id p ≠ x).
Proof.
  unfold products_survive, null_if. repeat split.
  - simpl. apply Forall2_map_self. intros p.
    destruct (omem (Product.category p) [x]) eqn:E; simpl.
    + split; [eauto | done].
    + split; [| done]. eexists _, _, _, _. symmetry. apply with_fks_same.
  - simpl. rewrite map_map. apply Forall2_map_self. intros p.
    set (ids := pks_where _ _ _).
    destruct (omem (Product.artisan p) ids) eqn:Ea; simpl;
      destruct (omem (Product.region p) [x]) eqn:Er; simpl; rewrite ?Er;
      (split; [| done]); try by eauto.
    eexists _, _, _, _. symmetry. apply with_fks_same.
  - simpl. apply Forall2_map_self. intros p.
    destruct (omem (Product.artisan p) [x]) eqn:E; simpl.
    + split; [eauto | done].
    + split; [| done]. eexists _, _, _, _. symmetry. apply with_fks_same.
  - simpl. apply Forall2_map_self. intros p.
    destruct (omem (Product.seller p) [x]) eqn:E; simpl.
    + split; [eauto | done].
    + split; [| done]. eexists _, _, _, _. symmetry. apply with_fks_same.
  - simpl. apply filter_negb_mem_not_in.
  - simpl. apply filter_negb_omem_not_in.
  - simpl. apply filter_negb_mem_not_in.
Qed.

(** ** The order of the stages *)

Ltac trace_tac := on_tac ltac:(done).

Lemma enters_stage (S : Stage) {A} (body : M A) :
  respects (on_trace eq) body →
  ∀ w, trace ((enter S;; body) w).2 = (trace w ++ [S])%list.
Proof.
  intros H w. rewrite run_bind. simpl.
  destruct (H (set_trace (trace w ++ [S]) w)) as [_ Htr].
  simpl in Htr. by rewrite <- Htr.
Qed.

Lemma emits_stage (S : Stage) rest {A B} (m : M A) (k : A → M B) :
  (∀ w, trace (m w).2 = (trace w ++ [S])%list) →
  (∀ a, emits rest (k a)) →
  emits (S :: rest) (m ≫= k).
Proof.
  intros Hm Hk w. rewrite run_bind. specialize (Hm w).
  destruct (m w) as [[a|e] w1]; simpl in *.
  - destruct (Hk a w1) as (l' & Hpre & Htr & Hok).
    exists (S :: l'). split; [by apply prefix_cons |].
    split; [by rewrite Htr, Hm, <- app_assoc |].
    intros b Hb. f_equal. by eapply Hok.
  - exists [S]. split; [apply prefix_cons, prefix_nil |]. by split.
Qed.

Lemma emits_last (S : Stage) {A} (m : M A) :
  (∀ w, trace (m w).2 = (trace w ++ [S])%list) → emits [S] m.
Proof. intros Hm w. exists [S]. by split. Qed.

Lemma emits_skip l {A B} (m : M A) (k : A → M B) :
  respects (on_trace eq) m → (∀ a, emits l (k a)) → emits l (m ≫= k).
Proof.
  intros Hm Hk w. rewrite run_bind. destruct (Hm w) as [_ Htr].
  destruct (m w) as [[a|e] w1]; simpl in *.
  - destruct (Hk a w1) as (l' & Hpre & Htr' & Hok).
    exists l'. rewrite Htr', <- Htr. by split.
  - exists []. split; [apply prefix_nil |]. rewrite <- Htr, app_nil_r. by split.
Qed.

Lemma emits_atomic l {A} (m : M A) : emits l m → emits l (atomic m).
Proof.
  intros H w. unfold atomic. specialize (H w).
  by destruct (m w) as [[a|e] w1].
Qed.

Ltac stage_tac :=
  intros ?;
  unfold _create_users, _get_or_create_user, _create_profile, _create_regions,
    _create_categories, _create_artisans, _create_sellers, _create_products,
    _create_seller_products, _create_stories, _create_story_posts,
    _create_gallery, _create_orders, order_item, _create_product_activity,
    _create_newsletters;
  apply enters_stage; repeat respects_step trace_tac.

(** Every run of the seeder enters the stages in the order users,
    regions, categories, artisans, sellers, products, seller products,
    stories, story posts, gallery, orders, product activity, newsletters:
    a stage is entered after all stages before it have returned, and a
    run that returns has entered them all. *)
Lemma stage_trace (reset : bool) (w : World) :
  ∃ entered, entered `prefix_of` stage_order
             ∧ trace (handle reset w).2 = (trace w ++ entered)%list
             ∧ (∀ a, (handle reset w).1 = Ok a → entered = stage_order).
Proof.
  revert w. change (emits stage_order (handle reset)).
  unfold handle, atomic_block, stage_order. apply emits_atomic.
  apply emits_skip.
  { destruct reset; [respects_walk trace_tac | apply respects_ret; apply _]. }
  intros _. apply emits_skip; [respects_walk trace_tac |].
  intros _. apply emits_skip; [respects_walk trace_tac |].
  intros _. apply emits_stage; [stage_tac |].
  intros users. apply emits_stage; [stage_tac |].
  intros regions. apply emits_stage; [stage_tac |].
  intros categories. apply emits_stage; [stage_tac |].
  intros artisans. apply emits_stage; [stage_tac |].
  intros sellers. apply emits_stage; [stage_tac |].
  intros products. apply emits_stage; [stage_tac |].
  intros _. apply emits_stage; [stage_tac |].
  intros _. apply emits_stage; [stage_tac |].
  intros _. apply emits_stage; [stage_tac |].
  intros _. apply emits_stage; [stage_tac |].
  intros _. apply emits_stage; [stage_tac |].
  intros _. apply emits_last. stage_tac.
Qed.

(** ** [--reset] *)

Lemma db_set_db d w : db (set_db d w) = d.
Proof. reflexivity. Qed.

Lemma set_db_set_db d d' w : set_db d (set_db d' w) = set_db d w.
Proof. reflexivity. Qed.

Lemma wipe_bind {Row} (mgr : Manager Row) m del (k : unit → M unit) d w :
  del = delete_of m →
  (queryset_delete mgr (λ _, true) del ≫= k) (set_db d w)
  = k tt (set_db (wipe mgr m d) w).
Proof. intros ->. reflexivity. Qed.

Lemma reset_data_run w : _reset_data w = (Ok tt, set_db (reset_db (db w)) w).
Proof.
  unfold _reset_data, reset_db, wipe_tables.
  replace w with (set_db (db w) w) at 1 by by destruct w.
  rewrite (wipe_bind _ MOrderItem) by reflexivity.
  rewrite (wipe_bind _ MOrder) by reflexivity.
  rewrite (wipe_bind _ MProductActivity) by reflexivity.
  rewrite (wipe_bind _ MSellerProduct) by reflexivity.
  rewrite (wipe_bind _ MProduct) by reflexivity.
  rewrite (wipe_bind _ MGalleryImage) by reflexivity.
  rewrite (wipe_bind _ MCulturalStory) by reflexivity.
  rewrite (wipe_bind _ MStoryPost) by reflexivity.
  rewrite (wipe_bind _ MArtisan) by reflexivity.
  rewrite (wipe_bind _ MSeller) by reflexivity.
  rewrite (wipe_bind _ MUserProfile) by reflexivity.
  rewrite (wipe_bind _ MNewsletter) by reflexivity.
  rewrite (wipe_bind _ MCategory) by reflexivity.
  rewrite (wipe_bind _ MRegion) by reflexivity.
  reflexivity.
Qed.

Lemma delete_keeps_empty m ids d : emptied d (delete_of m ids d).
Proof. intros m' H. destruct m, m'; simpl in *; rewrite ?H; done. Qed.

Lemma wipe_keeps_empty {Row} (mgr : Manager Row) m m' d :
  table_empty m' d → table_empty m' (wipe mgr m d).
Proof. apply delete_keeps_empty. Qed.

Lemma wipe_keeps_users {Row} (mgr : Manager Row) m d :
  m ≠ MUser → users (wipe mgr m d) = users d.
Proof. intros H. unfold wipe. by destruct m. Qed.

Lemma mem_map_pk {A} (f : A → pk) (l : list A) a :
  a ∈ l → mem (f a) (map f l) = true.
Proof.
  intros H. unfold mem. apply existsb_exists. exists (f a).
  split; [| apply Nat.eqb_refl]. apply in_map. by apply list_elem_of_In.
Qed.

Lemma filter_true {A} (l : list A) : List.filter (λ _, true) l = l.
Proof. induction l; simpl; congruence. Qed.

Lemma filter_none {A} (p : A → bool) (l : list A) :
  (∀ a, a ∈ l → p a = false) → List.filter p l = [].
Proof.
  induction l as [|a l IH]; [done |]. intros H. simpl.
  rewrite (H a) by constructor. apply IH. intros b Hb. apply H. by constructor.
Qed.

Lemma filter_all_gone {A} (f : A → pk) (l : list A) :
  List.filter (λ r, negb (mem (f r) (map f (List.filter (λ _, true) l)))) l = [].
Proof.
  rewrite filter_true. apply filter_none. intros a Ha.
  by rewrite mem_map_pk.
Qed.

Ltac wipe_own := intros; unfold wipe, pks_where, select; simpl; apply filter_all_gone.

Lemma wipe_order_items d : table_empty MOrderItem (wipe OrderItem_objects MOrderItem d).
Proof. wipe_own. Qed.
Lemma wipe_orders d : table_empty MOrder (wipe Order_objects MOrder d).
Proof. wipe_own. Qed.
Lemma wipe_product_activities d :
  table_empty MProductActivity (wipe ProductActivity_objects MProductActivity d).
Proof. wipe_own. Qed.
Lemma wipe_seller_products d :
  table_empty MSellerProduct (wipe SellerProduct_objects MSellerProduct d).
Proof. wipe_own. Qed.
Lemma wipe_products d : table_empty MProduct (wipe Product_objects MProduct d).
Proof. wipe_own. Qed.
Lemma wipe_gallery d : table_empty MGalleryImage (wipe GalleryImage_objects MGalleryImage d).
Proof. wipe_own. Qed.
Lemma wipe_cultural_stories d :
  table_empty MCulturalStory (wipe CulturalStory_objects MCulturalStory d).
Proof. wipe_own. Qed.
Lemma wipe_story_posts d : table_empty MStoryPost (wipe StoryPost_objects MStoryPost d).
Proof. wipe_own. Qed.
Lemma wipe_artisans d : table_empty MArtisan (wipe Artisan_objects MArtisan d).
Proof. wipe_own. Qed.
Lemma wipe_sellers d : table_empty MSeller (wipe Seller_objects MSeller d).
Proof. wipe_own. Qed.
Lemma wipe_user_profiles d :
  table_empty MUserProfile (wipe UserProfile_objects MUserProfile d).
Proof. wipe_own. Qed.
Lemma wipe_newsletters d : table_empty MNewsletter (wipe Newsletter_objects MNewsletter d).
Proof. wipe_own. Qed.
Lemma wipe_categories d : table_empty MCategory (wipe Category_objects MCategory d).
Proof. wipe_own. Qed.
Lemma wipe_regions d : table_empty MRegion (wipe Region_objects MRegion d).
Proof. wipe_own. Qed.

(** Deleting all products deletes all favourites, as each is a favourite
    of a product. *)
Lemma wipe_products_favorites d :
  favorites_have_products d → table_empty MFavorite (wipe Product_objects MProduct d).
Proof.
  intros H. unfold wipe, pks_where, select. simpl. rewrite filter_true.
  apply filter_none. intros f Hf. destruct (H f Hf) as (p & Hp & ->).
  by rewrite mem_map_pk.
Qed.

Lemma wipe_tables_users d : users (wipe_tables d) = users d.
Proof. unfold wipe_tables. by rewrite !wipe_keeps_users. Qed.

Ltac wipe_chain Hfav :=
  repeat lazymatch goal with
  | |- table_empty MOrderItem (wipe _ MOrderItem _) => apply wipe_order_items
  | |- table_empty MOrder (wipe _ MOrder _) => apply wipe_orders
  | |- table_empty MProductActivity (wipe _ MProductActivity _) =>
      apply wipe_product_activities
  | |- table_empty MSellerProduct (wipe _ MSellerProduct _) =>
      apply wipe_seller_products
  | |- table_empty MProduct (wipe _ MProduct _) => apply wipe_products
  | |- table_empty MGalleryImage (wipe _ MGalleryImage _) => apply wipe_gallery
  | |- table_empty MCulturalStory (wipe _ MCulturalStory _) =>
      apply wipe_cultural_stories
  | |- table_empty MStoryPost (wipe _ MStoryPost _) => apply wipe_story_posts
  | |- table_empty MArtisan (wipe _ MArtisan _) => apply wipe_artisans
  | |- table_empty MSeller (wipe _ MSeller _) => apply wipe_sellers
  | |- table_empty MUserProfile (wipe _ MUserProfile _) => apply wipe_user_profiles
  | |- table_empty MNewsletter (wipe _ MNewsletter _) => apply wipe_newsletters
  | |- table_empty MCategory (wipe _ MCategory _) => apply wipe_categories
  | |- table_empty MRegion (wipe _ MRegion _) => apply wipe_regions
  | |- table_empty MFavorite (wipe _ MProduct _) =>
      apply wipe_products_favorites
  | |- table_empty _ (wipe _ _ _) => apply wipe_keeps_empty
  end.

Lemma favorites_have_products_frame d d' :
  favorites d' = favorites d → products d' = products d →
  favorites_have_products d → favorites_have_products d'.
Proof. unfold favorites_have_products. intros -> ->. done. Qed.

Lemma wipe_tables_empty d m :
  favorites_have_products d → m ≠ MUser → table_empty m (wipe_tables d).
Proof.
  intros Hfav Hm. unfold wipe_tables.
  destruct m; try done; wipe_chain Hfav.
  revert Hfav. apply favorites_have_products_frame; reflexivity.
Qed.
Lemma db_ext d1 d2 :
  users d1 = users d2 → user_profiles d1 = user_profiles d2 →
  sellers d1 = sellers d2 → seller_products d1 = seller_products d2 →
  product_activities d1 = product_activities d2 → categories d1 = categories d2 →
  regions d1 = regions d2 → artisans d1 = artisans d2 → products d1 = products d2 →
  cultural_stories d1 = cultural_stories d2 → story_posts d1 = story_posts d2 →
  gallery d1 = gallery d2 → orders d1 = orders d2 → order_items d1 = order_items d2 →
  newsletters d1 = newsletters d2 → favorites d1 = favorites d2 → d1 = d2.
Proof. destruct d1, d2; simpl; intros; subst; reflexivity. Qed.

Lemma NoDup_map_inj {A B} (f : A → B) (l : list A) x y :
  NoDup (map f l) → x ∈ l → y ∈ l → f x = f y → x = y.
Proof.
  induction l as [|a l IH]; simpl; [by intros _ ?%elem_of_nil |].
  intros Hnd Hx Hy Hf. apply NoDup_cons in Hnd as [Hna Hnd].
  apply elem_of_cons in Hx as [->|Hx]; apply elem_of_cons in Hy as [->|Hy]; auto.
  - exfalso. apply Hna. rewrite Hf. apply list_elem_of_In, in_map. by apply list_elem_of_In.
  - exfalso. apply Hna. rewrite <- Hf. apply list_elem_of_In, in_map. by apply list_elem_of_In.
Qed.

(** Deleting the users that are not superusers leaves the superusers. *)
Lemma superusers_left (us : list User.t) :
  NoDup (map User.id us) →
  List.filter (λ u, negb (mem (User.id u)
      (map User.id (List.filter (λ u, negb (User.is_superuser u)) us)))) us
  = List.filter User.is_superuser us.
Proof.
  intros Hnd. apply filter_ext_in. intros u Hu%list_elem_of_In.
  destruct (User.is_superuser u) eqn:Hs; simpl.
  - apply negb_true_iff. apply not_true_is_false. unfold mem.
    rewrite existsb_exists. intros (i & Hi & Heq). apply Nat.eqb_eq in Heq. subst i.
    apply in_map_iff in Hi as (u' & Hid & Hu'). apply filter_In in Hu' as [Hu' Hs'].
    assert (u' = u) as ->.
    { eapply NoDup_map_inj; eauto. by apply list_elem_of_In. }
    by rewrite Hs in Hs'.
  - apply negb_false_iff. apply mem_map_pk. apply list_elem_of_In, filter_In.
    split; [by apply list_elem_of_In | by rewrite Hs].
Qed.

Lemma reset_db_users d :
  NoDup (map User.id (users d)) →
  users (reset_db d) = List.filter User.is_superuser (users d).
Proof.
  intros Hnd. unfold reset_db. cbv zeta.
  generalize (wipe_tables_users d). generalize (wipe_tables d). intros d' Hu.
  simpl. unfold pks_where, select. simpl. rewrite Hu. by apply superusers_left.
Qed.

Lemma reset_db_empty d m :
  favorites_have_products d → m ≠ MUser → table_empty m (reset_db d).
Proof.
  intros Hfav Hm. unfold reset_db. cbv zeta.
  apply (delete_keeps_empty MUser). by apply wipe_tables_empty.
Qed.

(** After [_reset_data] the users are the superusers of before,
    unchanged, and every other table is empty.  The primary keys of the
    users are distinct, and every favourite is a favourite of a product
    (which is what deletes it, by cascade). *)
Lemma reset_data_leaves_superusers (w : World) :
  NoDup (map User.id (users (db w))) →
  favorites_have_products (db w) →
  (_reset_data w).1 = Ok tt
  ∧ db (_reset_data w).2
    = set_users (List.filter User.is_superuser (users (db w))) empty_db.
Proof.
  intros Hnd Hfav. rewrite reset_data_run. split; [done |].
  cbn [snd]. rewrite db_set_db.
  apply db_ext;
    [ etrans; [by apply reset_db_users | reflexivity]
    | exact (reset_db_empty _ MUserProfile Hfav ltac:(done))
    | exact (reset_db_empty _ MSeller Hfav ltac:(done))
    | exact (reset_db_empty _ MSellerProduct Hfav ltac:(done))
    | exact (reset_db_empty _ MProductActivity Hfav ltac:(done))
    | exact (reset_db_empty _ MCategory Hfav ltac:(done))
    | exact (reset_db_empty _ MRegion Hfav ltac:(done))
    | exact (reset_db_empty _ MArtisan Hfav ltac:(done))
    | exact (reset_db_empty _ MProduct Hfav ltac:(done))
    | exact (reset_db_empty _ MCulturalStory Hfav ltac:(done))
    | exact (reset_db_empty _ MStoryPost Hfav ltac:(done))
    | exact (reset_db_empty _ MGalleryImage Hfav ltac:(done))
    | exact (reset_db_empty _ MOrder Hfav ltac:(done))
    | exact (reset_db_empty _ MOrderItem Hfav ltac:(done))
    | exact (reset_db_empty _ MNewsletter Hfav ltac:(done))
    | exact (reset_db_empty _ MFavorite Hfav ltac:(done)) ].
Qed.


(** ** The transaction *)

(** C9. The whole run, reset included, is one transaction: when [handle]
    raises, the database is left as it was before the command. *)
Theorem C9_handle_atomic (reset : bool) (w : World) (e : Exn) :
  (handle reset w).1 = Raise e → db (handle reset w).2 = db w.
Proof.
  unfold handle, atomic. destruct (atomic_block reset w) as [[a|e'] w'].
  - discriminate.
  - intros _. apply db_set_db.
Qed.

Lemma C9_handle_atomic_witness :
  db (handle false doubled_world).2 = db doubled_world.
Proof.
  apply (C9_handle_atomic false doubled_world MultipleObjectsReturned).
  vm_compute. reflexivity.
Defined.

(** Without the transaction the rows written before the failure stay. *)
Lemma atomic_block_partial_writes :
  (atomic_block false doubled_world).1 = Raise MultipleObjectsReturned
  ∧ length (users (db (atomic_block false doubled_world).2)) = 6%nat
  ∧ users (db doubled_world) = [].
Proof. vm_compute. done. Qed.


(** ** Product activity under the operations *)

Lemma perform_keeps_activities op :
  touches_activity op = false →
  ∀ w, product_activities (db w) `prefix_of` product_activities (db (step op w)).
Proof.
  intros Hop w. unfold step.
  destruct op as [reset e| | | |m ids| |]; simpl in Hop.
  - subst reset. apply (seed_keeps_activities (set_rng (BuildRng e 0) w)).
  - revert w. apply (respects_db_on (kept ProductActivity_objects)).
    unfold perform. repeat respects_step kept_tac.
  - revert w. apply (respects_db_on (kept ProductActivity_objects)).
    unfold perform. repeat respects_step kept_tac.
  - revert w. apply (respects_db_on (kept ProductActivity_objects)).
    unfold perform. repeat respects_step kept_tac.
  - destruct m; try discriminate; reflexivity.
  - reflexivity.
  - reflexivity.
Qed.
(** C5, as the code has it. Product activity is an append-only log under
    every operation but the seeder with [--reset] and the deletion of
    activity rows, sellers, products or users: the rows of before are
    the first rows of after, unchanged. *)
Theorem C5_activity_append_only (op : Operation) (w : World) :
  touches_activity op = false →
  product_activities (db w) `prefix_of` product_activities (db (step op w)).
Proof. intros Hop. by apply perform_keeps_activities. Qed.

Lemma C5_activity_append_only_witness :
  product_activities (db staffed_world)
    `prefix_of` product_activities
                  (db (step (SeedData false demo_entropy) staffed_world)).
Proof. apply (C5_activity_append_only (SeedData false demo_entropy)). reflexivity. Defined.

(** C5, as the specification has it, fails: the seeder with [--reset]
    deletes the activity rows it finds. *)
Lemma C5_reset_deletes_activity :
  lamp_view ∈ product_activities (db staffed_world)
  ∧ lamp_view ∉ product_activities
                  (db (step (SeedData true demo_entropy) staffed_world)).
Proof.
  split; [apply list_elem_of_here |].
  vm_compute. intros H.
  repeat (apply elem_of_cons in H as [H|H]; [discriminate H |]).
  by apply elem_of_nil in H.
Qed.

(** Deleting a user writes the [user] field of the activity rows of the
    user. *)
Lemma delete_user_nulls_activity :
  product_activities (db (step (DeleteObjects MUser [1%nat]) staffed_world))
  = [ProductActivity.with_user None lamp_view].
Proof. reflexivity. Qed.

(** ** Order items under the operations *)

#[global] Instance order_items_settled_respectable : Respectable order_items_settled.
Proof.
  split; [split |].
  - intros w. split; [lia | auto].
  - intros w1 w2 w3 [H1 H1'] [H2 H2']. split; [lia |].
    intros r Hr Hle. apply H1'; [apply H2'; [done | lia] | done].
  - intros w w' Hd _ Hi. split; [lia |]. intros r Hr _. by rewrite Hd in Hr.
Qed.

Lemma elem_of_filter_l {A} (p : A → bool) l a : a ∈ List.filter p l → a ∈ l.
Proof. rewrite !list_elem_of_In, filter_In. tauto. Qed.

Lemma new_pk_issued {Row} (mgr : Manager Row) w : (issued w < new_pk mgr w)%nat.
Proof. unfold new_pk. lia. Qed.

Ltac settled_tac :=
  intros;
  lazymatch goal with
  | H : order_items_settled _ _ |- order_items_settled _ _ =>
      destruct H; split; simpl; [done | auto]
  | |- order_items_settled ?w (set_issued (new_pk ?mgr ?w) _) =>
      pose proof (new_pk_issued mgr w);
      split; simpl; [lia |];
      first [ by auto
            | let r := fresh "r" in let Hr := fresh "Hr" in let Hle := fresh "Hle" in
              intros r Hr Hle; apply elem_of_app in Hr as [Hr|Hr]; [done |];
              apply list_elem_of_singleton in Hr; subst r; simpl in Hle; lia ]
  | |- order_items_settled _ _ =>
      split; simpl; [lia |];
      first [ by auto
            | let r := fresh "r" in let Hr := fresh "Hr" in
              intros r Hr _; by apply elem_of_filter_l in Hr ]
  end.

Lemma seed_settles_order_items reset :
  respects order_items_settled (handle reset).
Proof. destruct reset; respects_walk settled_tac. Qed.

Lemma perform_settles_order_items op w :
  edits_order_item op = false → order_items_settled w (step op w).
Proof.
  intros Hop. unfold step.
  destruct op as [reset e| | | |m ids| |]; try discriminate Hop.
  - apply (seed_settles_order_items reset (set_rng (BuildRng e 0) w)).
  - revert w. change (respects order_items_settled (perform (CreateSellerProduct seller product sku price stock))).
    unfold perform. repeat respects_step settled_tac.
  - revert w. change (respects order_items_settled (perform (CreateNewsletter email))).
    unfold perform. repeat respects_step settled_tac.
  - revert w. change (respects order_items_settled (perform (CreateFavorite user product))).
    unfold perform. repeat respects_step settled_tac.
  - split; [simpl; lia |]. intros r Hr _.
    destruct m; simpl in Hr; first [done | by apply elem_of_filter_l in Hr].
  - split; [simpl; lia |]. intros r Hr _. exact Hr.
Qed.

(** C4, as the code has it. Under every operation but the edit of an
    order's inline in the admin, an order item that was there before is
    the row it was, with the price it had; changing the price of its
    product is one of these operations. *)
Theorem C4_order_item_price_kept (op : Operation) (w : World) (r r' : OrderItem.t) :
  edits_order_item op = false →
  order_item_keys_issued w →
  NoDup (map OrderItem.id (order_items (db w))) →
  r ∈ order_items (db w) →
  r' ∈ order_items (db (step op w)) →
  OrderItem.id r' = OrderItem.id r →
  OrderItem.price r' = OrderItem.price r.
Proof.
  intros Hop Hkeys Hnd Hr Hr' Hid.
  destruct (perform_settles_order_items op w Hop) as [_ Hold].
  assert (r' ∈ order_items (db w)) as Hin.
  { apply Hold; [done |]. rewrite Hid. by apply Hkeys. }
  f_equal. eapply NoDup_map_inj; eauto.
Qed.

Lemma C4_order_item_price_kept_witness :
  OrderItem.price lamp_item = OrderItem.price lamp_item.
Proof.
  apply (C4_order_item_price_kept (ChangeProductPrice 1 99900) staffed_world
           lamp_item lamp_item).
  - reflexivity.
  - intros r Hr. vm_compute in Hr. apply list_elem_of_singleton in Hr. subst r.
    vm_compute. lia.
  - by apply (bool_decide_unpack _).
  - apply list_elem_of_here.
  - vm_compute. apply list_elem_of_here.
  - reflexivity.
Defined.

(** The product's price changes there, and the item keeps its own. *)
Lemma product_price_changes_item_price_stays :
  map Product.price (products (db (step (ChangeProductPrice 1 99900) staffed_world)))
  = [99900]
  ∧ order_items (db (step (ChangeProductPrice 1 99900) staffed_world)) = [lamp_item].
Proof. by vm_compute. Qed.

(** C4, as the specification has it, fails: the inline of the order page
    has no read-only fields, and saving it with another price writes the
    price of the existing item. *)
Lemma C4_admin_inline_changes_price :
  lamp_item ∈ order_items (db staffed_world)
  ∧ OrderItem.Build 1 1 1 1 100
      ∈ order_items (db (step (ChangeOrderItem 1 (OrderItem.Build 0 0 1 1 100))
                              staffed_world))
  ∧ OrderItem.id (OrderItem.Build 1 1 1 1 100) = OrderItem.id lamp_item
  ∧ OrderItem.price (OrderItem.Build 1 1 1 1 100) ≠ OrderItem.price lamp_item.
Proof.
  split; [apply list_elem_of_here |].
  split; [vm_compute; apply list_elem_of_here |].
  split; [reflexivity | discriminate].
Qed.

(** ** Uniqueness constraints *)

#[global] Instance preserving_preorder I : PreOrder (preserving I).
Proof. split; unfold preserving; [intros d; auto | intros d1 d2 d3; auto]. Qed.

Lemma NoDup_map_filter {A B} (f : A → B) (p : A → bool) l :
  NoDup (map f l) → NoDup (map f (List.filter p l)).
Proof.
  induction l as [|a l IH]; simpl; [done |].
  intros [Ha Hl]%NoDup_cons. destruct (p a); simpl; [| by apply IH].
  apply NoDup_cons. split; [| by apply IH].
  intros Hin. apply Ha. apply list_elem_of_In in Hin. apply list_elem_of_In.
  apply in_map_iff in Hin as (b & Hb & Hin). apply in_map_iff.
  exists b. split; [done |]. by apply filter_In in Hin as [? _].
Qed.

Lemma NoDup_map_snoc {A B} `{EqDecision B} (f : A → B) l r :
  existsb (λ a, eqb_of (f r) (f a)) l = false →
  NoDup (map f l) → NoDup (map f (l ++ [r])).
Proof.
  intros Hex Hnd. rewrite map_app. simpl. apply NoDup_app.
  split; [done |]. split; [| apply NoDup_singleton].
  intros b Hb Hr. apply list_elem_of_singleton in Hr. subst b.
  apply list_elem_of_In, in_map_iff in Hb as (a & Ha & Hin).
  assert (existsb (λ a, eqb_of (f r) (f a)) l = true) as Htrue; [| congruence].
  apply existsb_exists. exists a. split; [done |].
  unfold eqb_of. by apply bool_decide_eq_true.
Qed.

Lemma existsb_orb_false {A} (p q : A → bool) l :
  existsb (λ a, p a || q a) l = false →
  existsb p l = false ∧ existsb q l = false.
Proof.
  induction l as [|a l IH]; simpl; [done |].
  intros H. apply orb_false_elim in H as [H1 H2]. apply orb_false_elim in H1 as [? ?].
  destruct (IH H2) as [-> ->]. split; by apply orb_false_intro.
Qed.

Ltac uniques_db_tac :=
  unfold preserving, uniques; simpl;
  first
    [ done
    | intros (? & ? & ? & ?); repeat split;
      first [ assumption
            | by apply NoDup_map_filter
            | by apply NoDup_map_snoc
            | match goal with
              | H : existsb _ _ = false |- _ =>
                  apply existsb_orb_false in H as [? ?]; by apply NoDup_map_snoc
              end ] ].

Ltac uniques_tac := on_tac uniques_db_tac.

Lemma seed_keeps_uniques reset :
  respects (on_db (preserving uniques)) (handle reset).
Proof. destruct reset; respects_walk uniques_tac. Qed.

Lemma perform_keeps_uniques op w : uniques (db w) → uniques (db (step op w)).
Proof.
  unfold step. destruct op as [reset e| | | |m ids| |].
  - apply (respects_db_on _ _ (seed_keeps_uniques reset) (set_rng (BuildRng e 0) w)).
  - revert w. apply (respects_db_on (preserving uniques)).
    unfold perform. repeat respects_step uniques_tac.
  - revert w. apply (respects_db_on (preserving uniques)).
    unfold perform. repeat respects_step uniques_tac.
  - revert w. apply (respects_db_on (preserving uniques)).
    unfold perform. repeat respects_step uniques_tac.
  - change (preserving uniques (db w) (delete_of m ids (db w))).
    destruct m; uniques_db_tac.
  - change (preserving uniques (db w) (db (perform (ChangeProductPrice i price) w).2)).
    uniques_db_tac.
  - change (preserving uniques (db w) (db (perform (ChangeOrderItem i form) w).2)).
    uniques_db_tac.
Qed.

Lemma reachable_uniques w : reachable w → uniques (db w).
Proof.
  induction 1 as [w Hw | op w _ IH].
  - rewrite Hw. unfold uniques. simpl. repeat split; apply NoDup_nil_2.
  - by apply perform_keeps_uniques.
Qed.

Lemma NoDup_map_pairwise {A B} (f : A → B) (l : list A) :
  NoDup (map f l) → pairwise (λ a b, f a ≠ f b) l.
Proof.
  intros Hnd i j x y Hi Hj Hij Heq. apply Hij.
  eapply (NoDup_lookup (map f l)); [done | |].
  - rewrite list_lookup_fmap_Some. eauto.
  - rewrite list_lookup_fmap_Some. exists y. split; [done | by symmetry].
Qed.

(** C6. In every state the operations lead to, two different rows of
    [SellerProduct] differ in the pair of seller and product and differ
    in the seller SKU. *)
Theorem C6_seller_products_unique (w : World) :
  reachable w → seller_products_unique (db w).
Proof.
  intros (Hsku & Hpair & _)%reachable_uniques.
  intros i j x y Hi Hj Hij. split.
  - by apply (NoDup_map_pairwise _ _ Hpair i j).
  - by apply (NoDup_map_pairwise _ _ Hsku i j).
Qed.

Lemma C6_seller_products_unique_witness :
  seller_products_unique (db (step (SeedData false demo_entropy) fresh_world)).
Proof.
  apply (C6_seller_products_unique (step (SeedData false demo_entropy) fresh_world)).
  apply reachable_step, reachable_empty. reflexivity.
Defined.


Lemma filter_key_unique {A B} `{EqDecision B} (f : A → B) (l : list A) a :
  NoDup (map f l) → a ∈ l → List.filter (λ r, eqb_of (f r) (f a)) l = [a].
Proof.
  induction l as [|b l IH]; simpl; [by intros _ ?%elem_of_nil |].
  intros [Hb Hl]%NoDup_cons Ha. unfold eqb_of at 1.
  apply elem_of_cons in Ha as [->|Ha].
  - rewrite bool_decide_eq_true_2 by done. f_equal.
    apply filter_none. intros c Hc. unfold eqb_of. apply bool_decide_eq_false_2.
    intros Heq. apply Hb. rewrite <- Heq.
    apply list_elem_of_In, in_map. by apply list_elem_of_In.
  - rewrite bool_decide_eq_false_2; [by apply IH |].
    intros Heq. apply Hb. rewrite Heq.
    apply list_elem_of_In, in_map. by apply list_elem_of_In.
Qed.

Lemma create_clash {Row} (mgr : Manager Row) mk w :
  (∀ i t, existsb (clash mgr (mk i t)) (rows mgr (db w)) = true) →
  (create mgr mk w).1 = Raise IntegrityError ∧ db (create mgr mk w).2 = db w.
Proof.
  intros H. unfold create. rewrite !(run_bind now). simpl. unfold insert. simpl.
  by rewrite H.
Qed.

Lemma duplicate_refused {Row} (mgr : Manager Row) mk w :
  (∀ i t, existsb (clash mgr (mk i t)) (rows mgr (db w)) = true) →
  ((create mgr mk;; ret tt) w).1 = Raise IntegrityError
  ∧ db ((create mgr mk;; ret tt) w).2 = db w.
Proof.
  intros H. destruct (create_clash mgr mk w H) as [H1 H2].
  rewrite (run_bind (create mgr mk)). destruct (create mgr mk w) as [[r|e] w']; simpl in *.
  - discriminate.
  - split; congruence.
Qed.

Lemma existsb_key {A B} `{EqDecision B} (f : A → B) (l : list A) a :
  a ∈ l → existsb (λ r, eqb_of (f a) (f r)) l = true.
Proof.
  intros Ha. apply existsb_exists. exists a. split; [by apply list_elem_of_In |].
  unfold eqb_of. by apply bool_decide_eq_true.
Qed.

(** C7. In every state the operations lead to, two different newsletter
    rows differ in the email and two different favourites differ in the
    pair of user and product; creating a newsletter with the email of a
    row, or a favourite with the user and product of a row, raises and
    leaves the database as it is, and [get_or_create] on such an email
    returns the row without creating one. *)
Theorem C7_newsletter_favorite_unique (w : World) :
  reachable w →
  newsletters_unique (db w)
  ∧ favorites_unique (db w)
  ∧ (∀ n, n ∈ newsletters (db w) →
       (perform (CreateNewsletter (Newsletter.email n)) w).1 = Raise IntegrityError
       ∧ db (step (CreateNewsletter (Newsletter.email n)) w) = db w)
  ∧ (∀ f, f ∈ favorites (db w) →
       (perform (CreateFavorite (Favorite.user f) (Favorite.product f)) w).1
         = Raise IntegrityError
       ∧ db (step (CreateFavorite (Favorite.user f) (Favorite.product f)) w) = db w)
  ∧ (∀ n mk, n ∈ newsletters (db w) →
       get_or_create Newsletter_objects Newsletter.email (Newsletter.email n) mk w
       = (Ok (n, false), w)).
Proof.
  intros (_ & _ & Hmail & Hfav)%reachable_uniques. repeat split.
  - by apply NoDup_map_pairwise.
  - by apply (NoDup_map_pairwise (λ r, (Favorite.user r, Favorite.product r))).
  - apply (duplicate_refused Newsletter_objects). intros i t. simpl.
    by apply (existsb_key Newsletter.email).
  - apply (duplicate_refused Newsletter_objects). intros i t. simpl.
    by apply (existsb_key Newsletter.email).
  - apply (duplicate_refused Favorite_objects). intros i t. simpl.
    by apply (existsb_key (λ r, (Favorite.user r, Favorite.product r))).
  - apply (duplicate_refused Favorite_objects). intros i t. simpl.
    by apply (existsb_key (λ r, (Favorite.user r, Favorite.product r))).
  - intros n mk Hn. unfold get_or_create. rewrite (run_bind get_db). simpl.
    unfold select. simpl.
    by rewrite (filter_key_unique Newsletter.email).
Qed.

Lemma C7_newsletter_favorite_unique_witness :
  newsletters_unique (db (step (SeedData false demo_entropy) fresh_world)).
Proof.
  apply (C7_newsletter_favorite_unique (step (SeedData false demo_entropy) fresh_world)).
  apply reachable_step, reachable_empty. reflexivity.
Defined.

(** The seeder's two newsletters, and a second subscription refused *)
Lemma second_subscription_refused :
  map Newsletter.email
      (newsletters (db (step (SeedData false demo_entropy) fresh_world)))
  = ["neha@kala.local"; "vikram@kala.local"]
  ∧ (perform (CreateNewsletter "neha@kala.local")
             (step (SeedData false demo_entropy) fresh_world)).1
    = Raise IntegrityError.
Proof. by vm_compute. Qed.

(** ** The generator of [random] and the placeholder pictures *)

Lemma rng_blind_ret {A} (a : A) : rng_blind (ret a).
Proof. by intros g w. Qed.

Lemma rng_blind_bind {A B} (m : M A) (k : A → M B) :
  rng_blind m → (∀ a, rng_blind (k a)) → rng_blind (m ≫= k).
Proof.
  intros Hm Hk g w. rewrite !run_bind, Hm.
  destruct (m w) as [[a|e] w1]; simpl; [apply Hk | done].
Qed.

Lemma rng_blind_mkdir path : rng_blind (mkdir path).
Proof.
  intros g w. unfold mkdir. simpl.
  by destruct (media w !! path) as [[]|].
Qed.

Lemma rng_blind_forM_ {A} (l : list A) (f : A → M unit) :
  (∀ a, rng_blind (f a)) → rng_blind (forM_ l f).
Proof.
  intros Hf. induction l as [|a l IH]; simpl.
  - apply rng_blind_ret.
  - apply rng_blind_bind; [apply Hf | by intros _].
Qed.

Lemma rng_blind_ensure_media_dirs : rng_blind _ensure_media_dirs.
Proof. apply rng_blind_forM_, rng_blind_mkdir. Qed.

Lemma rng_blind_reset (reset : bool) :
  rng_blind (if reset then _reset_data else ret tt).
Proof.
  destruct reset; [| apply rng_blind_ret].
  intros g w. by rewrite !reset_data_run.
Qed.

(** What the set-up before the pictures leaves alone *)
Lemma mkdir_media path p w :
  p ≠ path → media (mkdir path w).2 !! p = media w !! p.
Proof.
  intros Hp. unfold mkdir. destruct (media w !! path) as [[]|]; simpl; try done.
  by apply lookup_insert_ne.
Qed.

Lemma mkdir_pillow path w : pillow (mkdir path w).2 = pillow w.
Proof. unfold mkdir. by destruct (media w !! path) as [[]|]. Qed.

Lemma mkdirs_media l p w :
  p ∉ l → media (forM_ l mkdir w).2 !! p = media w !! p.
Proof.
  revert w. induction l as [|d l IH]; intros w Hp; simpl; [done |].
  apply not_elem_of_cons in Hp as [Hd Hl].
  rewrite run_bind. pose proof (mkdir_media d p w Hd) as H.
  destruct (mkdir d w) as [[[]|e] w1]; simpl in *; [| done].
  by rewrite IH.
Qed.

Lemma mkdirs_pillow l w : pillow (forM_ l mkdir w).2 = pillow w.
Proof.
  revert w. induction l as [|d l IH]; intros w; simpl; [done |].
  rewrite run_bind. pose proof (mkdir_pillow d w) as H.
  destruct (mkdir d w) as [[[]|e] w1]; simpl in *; [| done].
  by rewrite IH.
Qed.

Lemma image_paths_not_dirs :
  Forall (λ item : string * string,
            item.1 ∉ ["categories"; "regions"; "artisans"; "products"; "stories";
                      "gallery"; "shop_logos"; "profiles"]) image_items.
Proof.
  unfold image_items.
  repeat (apply Forall_cons; split; [simpl; by apply (bool_decide_unpack _) |]).
  apply Forall_nil_2.
Qed.

(** A picture that is drawn sets the generator: what went before is
    forgotten. *)
Lemma create_image_missing item g1 g2 w :
  media w !! item.1 = None →
  create_image item (set_rng g1 w) = create_image item (set_rng g2 w).
Proof.
  destruct item as [path label]. simpl. intros H.
  unfold create_image. rewrite !(run_bind (file_exists path)). simpl.
  rewrite H. rewrite bool_decide_eq_false_2 by (by intros [? ?]).
  reflexivity.
Qed.

Lemma create_image_present item g w :
  is_Some (media w !! item.1) →
  create_image item (set_rng g w) = (Ok tt, set_rng g w).
Proof.
  destruct item as [path label]. simpl. intros H.
  unfold create_image. rewrite !(run_bind (file_exists path)). simpl.
  by rewrite bool_decide_eq_true_2.
Qed.

Lemma create_images_missing l g1 g2 w :
  (∃ item, item ∈ l ∧ media w !! item.1 = None) →
  forM_ l create_image (set_rng g1 w) = forM_ l create_image (set_rng g2 w).
Proof.
  induction l as [|a l IH]; intros (item & Hin & Hnone).
  - by apply elem_of_nil in Hin.
  - simpl. rewrite !(run_bind (create_image a)).
    destruct (media w !! a.1) as [f|] eqn:Ha.
    + rewrite !create_image_present by (rewrite Ha; eauto).
      apply IH. exists item. split; [| done].
      apply elem_of_cons in Hin as [->|]; [congruence | done].
    + by rewrite (create_image_missing a g1 g2).
Qed.

Lemma reset_run (reset : bool) w :
  ∃ d, (if reset then _reset_data else ret tt) w = (Ok tt, set_db d w).
Proof.
  destruct reset.
  - eexists. apply reset_data_run.
  - exists (db w). by destruct w.
Qed.

Lemma create_images_seeded g1 g2 w :
  pillow w = true →
  (∃ item, item ∈ image_items ∧ media w !! item.1 = None) →
  _create_images (set_rng g1 w) = _create_images (set_rng g2 w).
Proof.
  intros Hpil Hmiss. unfold _create_images.
  change (pillow (set_rng g1 w)) with (pillow w).
  change (pillow (set_rng g2 w)) with (pillow w). rewrite Hpil.
  by apply create_images_missing.
Qed.

(** C2 (as amended). When Pillow is installed and one of the placeholder
    pictures is missing, two runs of the command from the same database,
    files and clock that differ only in the state of the generator of
    [random] end with the same outcome, the same database and the same
    files. *)
Theorem C2_missing_image_seeds_generator (reset : bool) (w : World) (g1 g2 : Rng) :
  pillow w = true →
  (∃ item, item ∈ image_items ∧ media w !! item.1 = None) →
  (handle reset (set_rng g1 w)).1 = (handle reset (set_rng g2 w)).1
  ∧ db (handle reset (set_rng g1 w)).2 = db (handle reset (set_rng g2 w)).2
  ∧ media (handle reset (set_rng g1 w)).2 = media (handle reset (set_rng g2 w)).2.
Proof.
  intros Hpil (item & Hin & Hnone).
  unfold handle, atomic, atomic_block.
  rewrite !(run_bind (if reset then _reset_data else ret tt)).
  rewrite !rng_blind_reset.
  destruct (reset_run reset w) as [d Hd]. rewrite Hd. cbn [fst snd].
  rewrite !(run_bind _ensure_media_dirs).
  rewrite !rng_blind_ensure_media_dirs.
  assert (pillow (_ensure_media_dirs (set_db d w)).2 = true) as Hpil'
    by (unfold _ensure_media_dirs; by rewrite mkdirs_pillow).
  assert (media (_ensure_media_dirs (set_db d w)).2 !! item.1 = None) as Hnone'.
  { unfold _ensure_media_dirs. rewrite mkdirs_media; [done |].
    by apply (proj1 (Forall_forall _ _) image_paths_not_dirs). }
  destruct (_ensure_media_dirs (set_db d w)) as [[[]|e] w1]; cbn [fst snd] in *;
    [| done].
  rewrite !(run_bind _create_images).
  rewrite (create_images_seeded g1 g2 w1) by eauto.
  destruct (_create_images (set_rng g2 w1)) as [[[]|e] w2]; [| done].
  match goal with
  | |- context [(?m ≫= ?k) w2] => destruct ((m ≫= k) w2) as [[[]|e] w3]
  end; done.
Qed.


Lemma C2_missing_image_seeds_generator_witness :
  db (handle false (set_rng (BuildRng demo_entropy 0) fresh_world)).2
  = db (handle false (set_rng (BuildRng other_entropy 0) fresh_world)).2.
Proof.
  apply (C2_missing_image_seeds_generator false fresh_world).
  - reflexivity.
  - exists ("gallery/loom.jpg", "Loom"). split; [| reflexivity].
    apply list_elem_of_In. unfold image_items. simpl. do 20 right. by left.
Defined.

(** C2 (as stated) fails: with every picture in place the generator is
    never seeded, and two runs from the same database and files choose
    different ratings and sales. *)
Lemma C2_entropy_decides_dataset :
  let run g := handle false (set_rng (BuildRng g 0) furnished_world) in
  (run demo_entropy).1 = Ok tt ∧ (run other_entropy).1 = Ok tt
  ∧ map (λ s, (Seller.rating s, Seller.total_sales s))
        (sellers (db (run demo_entropy).2))
    = [(433, 1620000); (471, 780000); (438, 1450000)]
  ∧ map (λ s, (Seller.rating s, Seller.total_sales s))
        (sellers (db (run other_entropy).2))
    = [(427, 1390000); (431, 740000); (435, 1600000)].
Proof. by vm_compute. Qed.

(** ** A second run after a first *)

#[global] Instance repassworded_preorder : PreOrder repassworded.
Proof.
  split.
  - intros u. split; [by destruct u | done].
  - intros u1 u2 u3 [H1 H1'] [H2 H2']. split; [| tauto].
    etrans; [exact H2 |]. rewrite H1. reflexivity.
Qed.

#[global] Instance retotalled_preorder : PreOrder retotalled.
Proof.
  split.
  - intros s. by destruct s.
  - intros s1 s2 s3 H1 H2. unfold retotalled in *.
    etrans; [exact H2 |]. rewrite H1. reflexivity.
Qed.

Lemma filter_map_comm {A} (P : A → bool) (g : A → A) l :
  (∀ x, P (g x) = P x) → List.filter P (map g l) = map g (List.filter P l).
Proof.
  intros H. induction l as [|a l IH]; simpl; [done |].
  rewrite H. destruct (P a); simpl; by rewrite IH.
Qed.

Lemma filter_Forall2 {A} (E : relation A) (P : A → bool) l l' :
  (∀ x y, E x y → P x = P y) → Forall2 E l l' →
  Forall2 E (List.filter P l) (List.filter P l').
Proof.
  intros HP. induction 1 as [|x y l l' Hxy _ IH]; simpl; [constructor |].
  rewrite <- (HP x y Hxy). destruct (P x); [by constructor | done].
Qed.

Lemma Forall2_map_r_same {A} (E : relation A) (g : A → A) l :
  (∀ x, E x (g x)) → Forall2 E l (map g l).
Proof. intros H. induction l; simpl; constructor; auto. Qed.

Section evolves.
Context {Row K : Type} `{EqDecision K} (mgr : Manager Row) (key : Row → K)
  (E : relation Row) `{!PreOrder E}.

Lemma evolves_same d d' : rows mgr d' = rows mgr d → evolves mgr key E d d'.
Proof.
  intros H. unfold evolves, select. rewrite H. split; [| done].
  intros k _. apply Forall2_same_length_lookup_2; [done |].
  intros i x y Hx Hy. rewrite Hx in Hy. by injection Hy as ->.
Qed.

#[global] Instance evolves_preorder : PreOrder (evolves mgr key E).
Proof.
  split.
  - intros d. by apply evolves_same.
  - intros d1 d2 d3 [H1 H1'] [H2 H2']. split; [| auto].
    intros k Hk. specialize (H1 k Hk).
    assert (select mgr (λ r, eqb_of (key r) k) d2 ≠ []) as Hk2.
    { intros Hnil. rewrite Hnil in H1. apply Forall2_nil_inv_r in H1. done. }
    specialize (H2 k Hk2). revert H1 H2. generalize (select mgr (λ r, eqb_of (key r) k) d1).
    intros l1 H1 H2. clear -H1 H2 PreOrder0.
    revert H1 H2. generalize (select mgr (λ r : Row, eqb_of (key r) k) d2)
      (select mgr (λ r : Row, eqb_of (key r) k) d3).
    intros l2 l3 H1. revert l3. induction H1; intros l3 H2.
    + by apply Forall2_nil_inv_l in H2 as ->.
    + apply Forall2_cons_inv_l in H2 as (z & l3' & Hyz & Hl & ->).
      constructor; [by etrans | by apply IHForall2].
Qed.

(** A row is added under a key that no row has. *)
Lemma evolves_insert d d' r :
  rows mgr d' = (rows mgr d ++ [r])%list →
  select mgr (λ x, eqb_of (key x) (key r)) d = [] →
  evolves mgr key E d d'.
Proof.
  intros Hrows Hnone. unfold evolves, select in *. rewrite Hrows. split.
  - intros k Hk. rewrite List.filter_app. simpl. unfold eqb_of at 3.
    rewrite bool_decide_eq_false_2.
    + rewrite app_nil_r. apply Forall2_same_length_lookup_2; [done |].
      intros i x y Hx Hy. rewrite Hx in Hy. by injection Hy as ->.
    + intros Heq. apply Hk. by rewrite <- Heq.
  - intros i Hi. rewrite map_app. apply elem_of_app. by left.
Qed.

(** Rows are written again, with the key and the primary key they had. *)
Lemma evolves_map d d' (g : Row → Row) :
  rows mgr d' = map g (rows mgr d) →
  (∀ x, key (g x) = key x) → (∀ x, pk_of mgr (g x) = pk_of mgr x) →
  (∀ x, E x (g x)) →
  evolves mgr key E d d'.
Proof.
  intros Hrows Hkey Hpk HE. unfold evolves, select. rewrite Hrows. split.
  - intros k _. rewrite filter_map_comm by (intros x; by rewrite Hkey).
    by apply Forall2_map_r_same.
  - intros i Hi. rewrite map_map.
    erewrite map_ext; [exact Hi | ]. intros x. simpl. apply Hpk.
Qed.

Lemma evolves_Forall2 d d' :
  Forall2 E (rows mgr d) (rows mgr d') →
  (∀ x y, E x y → key x = key y ∧ pk_of mgr x = pk_of mgr y) →
  evolves mgr key E d d'.
Proof.
  intros H HE. unfold evolves, select. split.
  - intros k _. apply filter_Forall2; [| done].
    intros x y Hxy. by destruct (HE x y Hxy) as [-> _].
  - intros i Hi. revert Hi. induction H as [|x y l l' Hxy _ IH]; simpl; [done |].
    rewrite !elem_of_cons. destruct (HE x y Hxy) as [_ <-]. tauto.
Qed.

(** What a lookup that found one row finds later *)
Lemma evolves_found d d' k r :
  evolves mgr key E d d' →
  select mgr (λ x, eqb_of (key x) k) d = [r] →
  ∃ r', select mgr (λ x, eqb_of (key x) k) d' = [r'] ∧ E r r'.
Proof.
  intros [H _] Hr. specialize (H k). rewrite Hr in H.
  specialize (H ltac:(done)).
  apply Forall2_cons_inv_l in H as (r' & l' & HE & Hl & ->).
  apply Forall2_nil_inv_l in Hl as ->. eauto.
Qed.

Lemma evolves_nonempty d d' k :
  evolves mgr key E d d' →
  select mgr (λ x, eqb_of (key x) k) d ≠ [] →
  select mgr (λ x, eqb_of (key x) k) d' ≠ [].
Proof.
  intros [H _] Hr. specialize (H k Hr). intros Hnil. rewrite Hnil in H.
  by apply Forall2_nil_inv_r in H.
Qed.
End evolves.

#[global] Instance stable_preorder : PreOrder stable.
Proof.
  split.
  - intros d. unfold stable. split_and!; reflexivity.
  - intros d1 d2 d3 H1 H2. unfold stable in *.
    destruct H1 as (?&?&?&?&?&?&?&?&?&?&?&?&?&?).
    destruct H2 as (?&?&?&?&?&?&?&?&?&?&?&?&?&?).
    split_and!; by etrans.
Qed.

#[global] Instance media_grows_preorder : PreOrder media_grows.
Proof.
  split.
  - by intros m p.
  - intros m1 m2 m3 H1 H2 p. destruct (H1 p), (H2 p). split; auto.
Qed.

#[global] Instance settled_preorder : PreOrder settled.
Proof.
  split.
  - intros w. by split_and!.
  - intros w1 w2 w3 (?&?&?) (?&?&?). split_and!; [by etrans | by etrans | congruence].
Qed.

(** *** The tables of the seeder *)

Ltac tracked_tac :=
  split;
  [ apply _
  | reflexivity
  | intros d d' H; unfold stable in H;
    destruct H as (?&?&?&?&?&?&?&?&?&?&?&?&?&?); assumption
  | intros d l H; unfold stable; split_and!;
    first [exact H | (apply evolves_same; [apply _ | done])] ].

#[global] Instance User_tracked : Tracked User_objects User.username repassworded.
Proof. tracked_tac. Qed.
#[global] Instance UserProfile_tracked :
  Tracked UserProfile_objects UserProfile.user eq.
Proof. tracked_tac. Qed.
#[global] Instance Seller_tracked : Tracked Seller_objects Seller.user retotalled.
Proof. tracked_tac. Qed.
#[global] Instance SellerProduct_tracked :
  Tracked SellerProduct_objects
    (λ r, (SellerProduct.seller r, SellerProduct.product r)) eq.
Proof. tracked_tac. Qed.
#[global] Instance Category_tracked : Tracked Category_objects Category.slug eq.
Proof. tracked_tac. Qed.
#[global] Instance Region_tracked : Tracked Region_objects Region.slug eq.
Proof. tracked_tac. Qed.
#[global] Instance Artisan_tracked : Tracked Artisan_objects Artisan.slug eq.
Proof. tracked_tac. Qed.
#[global] Instance Product_tracked : Tracked Product_objects Product.slug eq.
Proof. tracked_tac. Qed.
#[global] Instance CulturalStory_tracked :
  Tracked CulturalStory_objects CulturalStory.slug eq.
Proof. tracked_tac. Qed.
#[global] Instance StoryPost_tracked :
  Tracked StoryPost_objects (λ p, (StoryPost.user p, StoryPost.content p)) eq.
Proof. tracked_tac. Qed.
#[global] Instance GalleryImage_tracked :
  Tracked GalleryImage_objects GalleryImage.title eq.
Proof. tracked_tac. Qed.
#[global] Instance Order_tracked :
  Tracked Order_objects (λ o, (Order.user o, Order.status o)) eq.
Proof. tracked_tac. Qed.
#[global] Instance OrderItem_tracked :
  Tracked OrderItem_objects (λ r, (OrderItem.order r, OrderItem.product r)) eq.
Proof. tracked_tac. Qed.
#[global] Instance Newsletter_tracked :
  Tracked Newsletter_objects Newsletter.email eq.
Proof. tracked_tac. Qed.

(** Rows of [ProductActivity] are looked up nowhere. *)
Lemma stable_activities d l : stable d (set_product_activities l d).
Proof. unfold stable. split_and!; (apply evolves_same; [apply _ | done]). Qed.

(** *** Calm changes *)

Lemma calm_refl d : calm 0 d d.
Proof.
  unfold calm. split_and!; try done.
  exists []. by rewrite app_nil_r.
Qed.

Lemma calm_trans n1 n2 d1 d2 d3 :
  calm n1 d1 d2 → calm n2 d2 d3 → calm (n1 + n2) d1 d3.
Proof.
  intros (?&?&Hs1&?&(new1&Ha1&Hn1)&?&?&?&?&?&?&?&?&?&?&?)
         (?&?&Hs2&?&(new2&Ha2&Hn2)&?&?&?&?&?&?&?&?&?&?&?).
  unfold calm. split_and!; try congruence.
  - clear -Hs1 Hs2. revert Hs2. generalize (sellers d3). induction Hs1; intros l3 Hs2.
    + by apply Forall2_nil_inv_l in Hs2 as ->.
    + apply Forall2_cons_inv_l in Hs2 as (z & l3' & Hyz & Hl & ->).
      constructor; [by etrans | by apply IHHs1].
  - exists (new1 ++ new2)%list. split.
    + by rewrite Ha2, Ha1, <- app_assoc.
    + rewrite length_app. lia.
Qed.

Lemma calm_stable n d d' : calm n d d' → stable d d'.
Proof.
  intros (?&?&Hs&?&_&?&?&?&?&?&?&?&?&?&?&?).
  unfold stable. split_and!; try (apply evolves_same; [apply _ | done]).
  apply evolves_Forall2; [exact Hs |].
  intros x y ->. by destruct x.
Qed.

Lemma calmly_refl v : calmly 0 v v.
Proof. split_and!; [apply calm_refl | done..]. Qed.

Lemma calmly_trans n1 n2 v1 v2 v3 :
  calmly n1 v1 v2 → calmly n2 v2 v3 → calmly (n1 + n2) v1 v3.
Proof.
  intros (?&?&?) (?&?&?). split_and!; [by eapply calm_trans | congruence..].
Qed.

Lemma calmly_settled n v v' : calmly n v v' → settled v v'.
Proof.
  intros (H&Hm&?). split_and!; [by eapply calm_stable | by rewrite Hm | done].
Qed.

(** A step that changes neither database nor files *)
Lemma calmly_same v v' :
  db v' = db v → media v' = media v → pillow v' = pillow v → calmly 0 v v'.
Proof. intros Hd Hm Hp. split_and!; [rewrite Hd; apply calm_refl | done..]. Qed.

Lemma settled_same w w' :
  db w' = db w → media w' = media w → pillow w' = pillow w → settled w w'.
Proof. intros Hd Hm Hp. split_and!; [by rewrite Hd | by rewrite Hm | done]. Qed.

(** *** Rules for [replays] *)

Lemma replays_ret {A} (E : A → A → Prop) a a' : E a a' → replays 0 E (ret a) (ret a').
Proof.
  intros HE w x w' [= <- <-]. split; [reflexivity |].
  intros v Hv. exists a', v. split_and!; [done | done | apply calmly_refl].
Qed.

Lemma replays_raise {A} n (E : A → A → Prop) e m' : replays n E (raise e) m'.
Proof. intros w x w' [=]. Qed.

Lemma replays_bind {A B} n1 n2 n (E : A → A → Prop) (E' : B → B → Prop)
    (m m' : M A) (k k' : A → M B) :
  replays n1 E m m' →
  (∀ a a', E a a' → replays n2 E' (k a) (k' a')) →
  n = (n1 + n2)%nat →
  replays n E' (m ≫= k) (m' ≫= k').
Proof.
  intros Hm Hk -> w b w2 Hrun.
  apply bind_Ok_inv in Hrun as (a & w1 & Hm1 & Hk1).
  destruct (Hm w a w1 Hm1) as [Hs1 Hm2].
  assert (∀ a', E a a' → settled w1 w2) as Hs2.
  { intros a' HE. by destruct (Hk a a' HE w1 b w2 Hk1). }
  split.
  - destruct (Hm2 w1 ltac:(reflexivity)) as (a' & _ & _ & HE & _).
    etrans; [exact Hs1 | by eapply Hs2].
  - intros v Hv.
    destruct (Hm2 w1 ltac:(reflexivity)) as (a0 & _ & _ & HE0 & _).
    destruct (Hm2 v) as (a' & v1 & Hrun1 & HE & Hc1).
    { etrans; [by eapply Hs2 | exact Hv]. }
    destruct (Hk a a' HE w1 b w2 Hk1) as [_ Hk2].
    destruct (Hk2 v1) as (b' & v2 & Hrun2 & HE' & Hc2).
    { etrans; [exact Hv | by eapply calmly_settled]. }
    exists b', v2. split_and!; [| done | by eapply calmly_trans].
    by rewrite (bind_Ok _ _ _ _ _ Hrun1).
Qed.

Lemma replays_weaken {A} n (E E' : A → A → Prop) (m m' : M A) :
  replays n E m m' → (∀ a a', E a a' → E' a a') → replays n E' m m'.
Proof.
  intros H HE w a w' Hrun. destruct (H w a w' Hrun) as [Hs H2]. split; [done |].
  intros v Hv. destruct (H2 v Hv) as (a' & v' & ? & ? & ?). eauto 10.
Qed.

(** Steps that leave database and files alone, and return in the second
    run *)
Lemma replays_quiet {A} (E : A → A → Prop) (m m' : M A) :
  (∀ w a w', m w = (Ok a, w') →
     db w' = db w ∧ media w' = media w ∧ pillow w' = pillow w) →
  (∀ a v, ∃ a' v', m' v = (Ok a', v') ∧ E a a'
     ∧ db v' = db v ∧ media v' = media v ∧ pillow v' = pillow v) →
  replays 0 E m m'.
Proof.
  intros H1 H2 w a w' Hrun. destruct (H1 w a w' Hrun) as (?&?&?).
  split; [by apply settled_same |].
  intros v Hv. destruct (H2 a v) as (a' & v' & ? & ? & ? & ? & ?).
  exists a', v'. split_and!; [done | done | by apply calmly_same].
Qed.

Lemma replays_enter s : replays 0 any (enter s) (enter s).
Proof.
  apply replays_quiet.
  - by intros w a w' [= <- <-].
  - intros a v. by eexists _, _.
Qed.

Lemma replays_now : replays 0 any now now.
Proof.
  apply replays_quiet.
  - by intros w a w' [= <- <-].
  - intros a v. by eexists _, _.
Qed.

Lemma replays_get_db : replays 0 any get_db get_db.
Proof.
  apply replays_quiet.
  - by intros w a w' [= <- <-].
  - intros a v. by eexists _, _.
Qed.

Lemma replays_random_randint a b : replays 0 any (random_randint a b) (random_randint a b).
Proof.
  apply replays_quiet.
  - by intros w x w' [= <- <-].
  - intros x v. by eexists _, _.
Qed.

Lemma replays_random_uniform a b :
  replays 0 any (random_uniform_round2 a b) (random_uniform_round2 a b).
Proof.
  apply replays_quiet.
  - by intros w x w' [= <- <-].
  - intros x v. by eexists _, _.
Qed.

Lemma random_choice_returns {A} (l : list A) w :
  l ≠ [] → ∃ a, random_choice l w = (Ok a, (random_raw w).2).
Proof.
  intros Hl. unfold random_choice. rewrite run_bind. simpl.
  destruct (l !! _) as [a|] eqn:Ha; [by exists a |].
  apply lookup_ge_None in Ha. exfalso.
  assert (0 < Z.of_nat (length l)) by (destruct l; [done | simpl; lia]).
  pose proof (Z.mod_pos_bound (variates (rng w) (cursor (rng w))) (Z.of_nat (length l))
                ltac:(lia)).
  lia.
Qed.

Lemma replays_random_choice {A} (l l' : list A) :
  l' ≠ [] → replays 0 any (random_choice l) (random_choice l').
Proof.
  intros Hl. apply replays_quiet.
  - intros w a w'. unfold random_choice. rewrite run_bind. simpl.
    destruct (l !! _); [| done]. by intros [= <- <-].
  - intros a v. destruct (random_choice_returns l' v Hl) as [a' Ha'].
    exists a', (random_raw v).2. by rewrite Ha'.
Qed.

Lemma replays_index {A} (E : A → A → Prop) (l l' : list A) i :
  Forall2 E l l' → replays 0 E (index l i) (index l' i).
Proof.
  intros H. unfold index.
  destruct (l !! i) as [a|] eqn:Ha; [| apply replays_raise].
  destruct (Forall2_lookup_l _ _ _ _ _ H Ha) as (a' & -> & HE).
  by apply replays_ret.
Qed.

Lemma replays_getitem {A} (E : A → A → Prop) (d d' : gmap string A) k :
  related_items E d d' → replays 0 E (getitem d k) (getitem d' k).
Proof.
  intros H. unfold getitem. specialize (H k).
  destruct H as [a a' HE|]; [by apply replays_ret | apply replays_raise].
Qed.

Lemma replays_forM_ {A} n (R : A → A → Prop) (l l' : list A) (f f' : A → M unit) :
  Forall2 R l l' →
  (∀ x x', R x x' → replays n any (f x) (f' x')) →
  replays (length l * n) any (forM_ l f) (forM_ l' f').
Proof.
  intros Hl Hf. induction Hl as [|x x' l l' Hx _ IH]; simpl.
  - by apply replays_ret.
  - eapply replays_bind; [by apply Hf | by intros _ _ _ | done].
Qed.

Lemma related_items_empty {A} (E : A → A → Prop) : related_items E ∅ ∅.
Proof. intros k. rewrite !lookup_empty. constructor. Qed.

Lemma related_items_insert {A} (E : A → A → Prop) k a a' (d d' : gmap string A) :
  E a a' → related_items E d d' → related_items E (<[k := a]> d) (<[k := a']> d').
Proof.
  intros HE H k0. destruct (decide (k = k0)) as [->|Hne].
  - rewrite !lookup_insert_eq. by constructor.
  - rewrite !lookup_insert_ne by done. apply H.
Qed.

(** *** Lookups and inserts in a table of the seeder *)

Section tracked.
Context {Row K : Type} `{EqDecision K} (mgr : Manager Row) (key : Row → K)
  (E : relation Row) `{!Tracked mgr key E}.

Lemma create_run mk w r w' :
  create mgr mk w = (Ok r, w') →
  ∃ i t, r = mk i t
    ∧ db w' = put mgr (rows mgr (db w) ++ [r]) (db w)
    ∧ media w' = media w ∧ pillow w' = pillow w.
Proof.
  unfold create. rewrite (run_bind now). simpl. unfold insert. simpl.
  destruct (existsb _ _); [done |]. intros [= <- <-]. by eexists _, _.
Qed.

Lemma settled_insert w w' r :
  db w' = put mgr (rows mgr (db w) ++ [r]) (db w) →
  media w' = media w → pillow w' = pillow w →
  select mgr (λ x, eqb_of (key x) (key r)) (db w) = [] →
  settled w w'.
Proof.
  intros Hd Hm Hp Hnone. split_and!; [| by rewrite Hm | done].
  rewrite Hd. apply (tracked_put (mgr := mgr) (key := key)).
  eapply evolves_insert; [apply _ | by rewrite tracked_rows_put | done].
Qed.

Lemma select_put_snoc k d r :
  select mgr (λ x, eqb_of (key x) k) d = [] → key r = k →
  select mgr (λ x, eqb_of (key x) k) (put mgr (rows mgr d ++ [r]) d) = [r].
Proof.
  intros Hnone Hk. unfold select in *. rewrite tracked_rows_put, List.filter_app, Hnone.
  simpl. unfold eqb_of. by rewrite bool_decide_eq_true_2.
Qed.

Lemma get_or_create_run k mk w r c w' :
  (∀ i t, key (mk i t) = k) →
  get_or_create mgr key k mk w = (Ok (r, c), w') →
  select mgr (λ x, eqb_of (key x) k) (db w') = [r] ∧ settled w w'
  ∧ (c = true → ∃ i t, r = mk i t).
Proof.
  intros Hmk. unfold get_or_create. rewrite (run_bind get_db). simpl.
  destruct (select mgr _ (db w)) as [|r0 [|r1 l]] eqn:Hsel; [| | done].
  - rewrite run_bind. destruct (create mgr mk w) as [[r2|e] w2] eqn:Hc; [| done].
    intros [= <- <- <-].
    apply create_run in Hc as (i & t & -> & Hd & Hm & Hp).
    split_and!; [| | by eauto].
    + rewrite Hd. by apply select_put_snoc.
    + eapply settled_insert; [done.. |]. by rewrite Hmk.
  - intros [= <- <- <-]. split_and!; [done | reflexivity | done].
Qed.

Lemma get_or_create_found k mk v r :
  select mgr (λ x, eqb_of (key x) k) (db v) = [r] →
  get_or_create mgr key k mk v = (Ok (r, false), v).
Proof.
  intros Hsel. unfold get_or_create. rewrite (run_bind get_db). simpl.
  by rewrite Hsel.
Qed.

Lemma settled_found w v k r :
  settled w v →
  select mgr (λ x, eqb_of (key x) k) (db w) = [r] →
  ∃ r', select mgr (λ x, eqb_of (key x) k) (db v) = [r'] ∧ E r r'.
Proof.
  intros (Hs & _ & _) Hsel.
  eapply evolves_found; [apply (tracked_stable (mgr := mgr)), Hs | done].
Qed.

Lemma replays_get_or_create k k' mk mk' :
  k' = k → (∀ i t, key (mk i t) = k) →
  replays 0 (λ x x', E x.1 x'.1)
    (get_or_create mgr key k mk) (get_or_create mgr key k' mk').
Proof.
  intros -> Hmk w [r c] w' Hrun.
  apply get_or_create_run in Hrun as (Hsel & Hs & _); [| done].
  split; [done |]. intros v Hv.
  destruct (settled_found _ _ _ _ Hv Hsel) as (r' & Hsel' & HE).
  exists (r', false), v. split_and!; [by apply get_or_create_found | done |].
  apply calmly_refl.
Qed.

(** [if not objects.filter(<key> = k).exists(): objects.create(...)] *)
Lemma replays_create_unless_exists k k' mk mk' :
  k' = k → (∀ i t, key (mk i t) = k) →
  replays 0 any
    (d ← get_db;
     match select mgr (λ x, eqb_of (key x) k) d with
     | [] => create mgr mk;; ret tt
     | _ :: _ => ret tt
     end)
    (d ← get_db;
     match select mgr (λ x, eqb_of (key x) k') d with
     | [] => create mgr mk';; ret tt
     | _ :: _ => ret tt
     end).
Proof.
  intros -> Hmk w [] w'. rewrite (run_bind get_db). simpl. intros Hrun.
  assert (select mgr (λ x, eqb_of (key x) k) (db w') ≠ [] ∧ settled w w') as [Hsel Hs].
  { destruct (select mgr _ (db w)) as [|r0 l] eqn:Hsel.
    - rewrite run_bind in Hrun.
      destruct (create mgr mk w) as [[r2|e] w2] eqn:Hc; [| done].
      injection Hrun as <-.
      apply create_run in Hc as (i & t & -> & Hd & Hm & Hp). split.
      + rewrite Hd. by rewrite (select_put_snoc k).
      + eapply settled_insert; [done.. |]. by rewrite Hmk.
    - injection Hrun as <-. by rewrite Hsel. }
  split; [done |]. intros v Hv. exists tt, v.
  split_and!; [| done | apply calmly_refl].
  rewrite (run_bind get_db). simpl.
  destruct Hv as (Hst & _ & _).
  pose proof (evolves_nonempty _ _ _ _ _ k
                (tracked_stable (mgr := mgr) _ _ Hst) Hsel) as Hne.
  by destruct (select mgr _ (db v)).
Qed.
End tracked.

(** *** Writing rows again *)

Lemma bind_assoc_run {A B C} (m : M A) (k1 : A → M B) (k2 : B → M C) w :
  (m ≫= (λ a, k1 a ≫= k2)) w = ((m ≫= k1) ≫= k2) w.
Proof. rewrite !run_bind. by destruct (m w) as [[a|e] w1]. Qed.

Lemma replays_ext {A} n (E : A → A → Prop) (m1 m2 m1' m2' : M A) :
  (∀ w, m1 w = m2 w) → (∀ w, m1' w = m2' w) →
  replays n E m2 m2' → replays n E m1 m1'.
Proof.
  intros H H' Hr w a w' Hrun. rewrite H in Hrun.
  destruct (Hr w a w' Hrun) as [Hs Hv]. split; [done |].
  intros v Hset. destruct (Hv v Hset) as (a' & v' & ? & ? & ?).
  exists a', v'. by rewrite H'.
Qed.

Section tracked_save.
Context {Row K : Type} `{EqDecision K} (mgr : Manager Row) (key : Row → K)
  (E : relation Row) `{!Tracked mgr key E}.

Lemma save_fields_run i f w x w' :
  save_fields mgr i f w = (Ok x, w') →
  i ∈ map (pk_of mgr) (rows mgr (db w))
  ∧ db w' = put mgr (map (λ r, if Nat.eqb (pk_of mgr r) i then f r else r)
                         (rows mgr (db w))) (db w)
  ∧ media w' = media w ∧ pillow w' = pillow w.
Proof.
  unfold save_fields. rewrite (run_bind get_db). simpl.
  destruct (existsb _ _) eqn:Hex; [| done]. intros [= <- <-].
  split_and!; try done.
  apply existsb_exists in Hex as (r & Hin & Hr). apply Nat.eqb_eq in Hr as <-.
  apply list_elem_of_In, in_map, Hin.
Qed.

Lemma save_fields_returns i f v :
  i ∈ map (pk_of mgr) (rows mgr (db v)) →
  save_fields mgr i f v
  = (Ok tt, set_db (put mgr (map (λ r, if Nat.eqb (pk_of mgr r) i then f r else r)
                                 (rows mgr (db v))) (db v)) v).
Proof.
  intros Hin. unfold save_fields. rewrite (run_bind get_db). simpl.
  destruct (existsb _ _) eqn:Hex; [done |]. exfalso.
  apply list_elem_of_In, in_map_iff in Hin as (r & Hr & Hin).
  apply not_true_iff_false in Hex. apply Hex, existsb_exists.
  exists r. split; [done |]. by apply Nat.eqb_eq.
Qed.

Lemma settled_save_fields i f w w' :
  db w' = put mgr (map (λ r, if Nat.eqb (pk_of mgr r) i then f r else r)
                       (rows mgr (db w))) (db w) →
  media w' = media w → pillow w' = pillow w →
  (∀ x, key (f x) = key x) → (∀ x, pk_of mgr (f x) = pk_of mgr x) →
  (∀ x, E x (f x)) →
  settled w w'.
Proof.
  intros Hd Hm Hp Hkey Hpk HE. split_and!; [| by rewrite Hm | done].
  rewrite Hd. apply (tracked_put (mgr := mgr) (key := key)).
  eapply evolves_map; [by rewrite tracked_rows_put | ..].
  - intros x. simpl. by destruct (Nat.eqb _ _).
  - intros x. simpl. by destruct (Nat.eqb _ _).
  - intros x. simpl. destruct (Nat.eqb _ _); [apply HE | reflexivity].
Qed.

Lemma select_put_map k d i f r :
  select mgr (λ x, eqb_of (key x) k) d = [r] → pk_of mgr r = i →
  (∀ x, key (f x) = key x) →
  select mgr (λ x, eqb_of (key x) k)
    (put mgr (map (λ r, if Nat.eqb (pk_of mgr r) i then f r else r) (rows mgr d)) d)
  = [f r].
Proof.
  intros Hsel Hi Hkey. unfold select in *. rewrite tracked_rows_put.
  rewrite filter_map_comm.
  - rewrite Hsel. simpl. by rewrite Hi, Nat.eqb_refl.
  - intros x. simpl. destruct (Nat.eqb _ _); [by rewrite Hkey | done].
Qed.
End tracked_save.

(** *** Users and their passwords *)

Lemma repassworded_id u u' : repassworded u u' → User.id u' = User.id u.
Proof. intros [-> _]. reflexivity. Qed.
Lemma repassworded_email u u' : repassworded u u' → User.email u' = User.email u.
Proof. intros [-> _]. reflexivity. Qed.
Lemma repassworded_username u u' :
  repassworded u u' → User.username u' = User.username u.
Proof. intros [-> _]. reflexivity. Qed.

Lemma retotalled_id s s' : retotalled s s' → Seller.id s' = Seller.id s.
Proof. intros ->. reflexivity. Qed.

Lemma set_password_usable raw u :
  User.has_usable_password (User.set_password raw u) = true.
Proof. reflexivity. Qed.

(** The lookup of a user, and the password set when [cond] asks for it:
    afterwards the user has a usable password, and in a later process
    the lookup finds the user and nothing is written. *)
Lemma replays_user_then {B} n (E' : B → B → Prop) (cond : User.t → bool → bool)
    username mk mk' raw (k k' : User.t → M B) :
  (∀ u c, cond u c = false → User.has_usable_password u = true) →
  (∀ u, User.has_usable_password u = true → cond u false = false) →
  (∀ i t, User.username (mk i t) = username) →
  (∀ u u', repassworded u u' → replays n E' (k u) (k' u')) →
  replays n E'
    (get_or_create User_objects User.username username mk
       ≫= (λ '(user, created),
             (if cond user created
              then let user := User.set_password raw user in
                   save_fields User_objects (User.id user)
                               (User.with_password (User.password user));;
                   ret user
              else ret user) ≫= k))
    (get_or_create User_objects User.username username mk'
       ≫= (λ '(user, created),
             (if cond user created
              then let user := User.set_password raw user in
                   save_fields User_objects (User.id user)
                               (User.with_password (User.password user));;
                   ret user
              else ret user) ≫= k')).
Proof.
  intros Hcond Hcond' Hmk Hk.
  pose (k1 := λ '(user, created),
          if cond user created
          then let user := User.set_password raw user in
               save_fields User_objects (User.id user)
                           (User.with_password (User.password user));;
               ret user
          else ret user).
  eapply (replays_ext _ _ _
            ((get_or_create User_objects User.username username mk ≫= k1) ≫= k) _
            ((get_or_create User_objects User.username username mk' ≫= k1) ≫= k')).
  { intros w. rewrite !run_bind.
    by destruct (get_or_create _ _ _ _ w) as [[[u c]|e] w1]. }
  { intros w. rewrite !run_bind.
    by destruct (get_or_create _ _ _ _ w) as [[[u c]|e] w1]. }
  subst k1.
  eapply (replays_bind 0 n n); [| exact Hk | reflexivity].
  intros w u w2 Hrun. apply bind_Ok_inv in Hrun as ([user created] & w1 & Hgoc & Hif).
  apply (get_or_create_run _ _ repassworded) in Hgoc as (Hsel & Hs1 & _); [| done].
  assert (select User_objects (λ x, eqb_of (User.username x) username) (db w2) = [u]
          ∧ User.has_usable_password u = true ∧ settled w1 w2) as (Hsel2 & Hus & Hs2).
  { destruct (cond user created) eqn:Hc.
    - apply bind_Ok_inv in Hif as ([] & w1' & Hsave & [= <- <-]).
      apply save_fields_run in Hsave as (_ & Hd & Hm & Hp).
      split_and!; [| done |].
      + rewrite Hd. by apply (select_put_map _ _ repassworded).
      + eapply (settled_save_fields _ _ repassworded); [done.. | | |]; done.
    - injection Hif as <- <-. split_and!; [done | by eapply Hcond | reflexivity]. }
  split; [by etrans |]. intros v Hv.
  destruct (settled_found _ _ repassworded _ _ _ _ Hv Hsel2) as (u' & Hsel' & HE).
  exists u', v. split_and!; [| done | apply calmly_refl].
  rewrite run_bind, (get_or_create_found _ _ _ _ _ _ Hsel').
  rewrite Hcond'; [done |]. by apply HE.
Qed.

(** *** The totals of a seller *)

Lemma replays_save_totals i i' a b a' b' :
  i' = i →
  replays 0 any
    (save_fields Seller_objects i (Seller.with_totals a b))
    (save_fields Seller_objects i' (Seller.with_totals a' b')).
Proof.
  intros -> w [] w' Hrun.
  apply save_fields_run in Hrun as (Hin & Hd & Hm & Hp).
  assert (settled w w') as Hs.
  { eapply (settled_save_fields _ _ retotalled); [done.. | | |]; done. }
  split; [done |]. intros v Hv.
  assert (i ∈ map Seller.id (sellers (db v))) as Hin'.
  { destruct Hv as (Hst & _ & _).
    apply (tracked_stable (mgr := Seller_objects)) in Hst as [_ Hpk].
    apply Hpk. destruct Hs as (Hst & _ & _).
    apply (tracked_stable (mgr := Seller_objects)) in Hst as [_ Hpk']. by apply Hpk'. }
  eexists tt, _. split_and!; [by apply (save_fields_returns Seller_objects) | done |].
  split_and!; [| done..]. simpl.
  unfold calm. simpl. split_and!; try done.
  - apply Forall2_map_r_same. intros x.
    destruct (Nat.eqb _ _); [by destruct x | reflexivity].
  - exists []. by rewrite app_nil_r.
Qed.

(** *** A row of [ProductActivity] *)

Lemma existsb_never {A} (l : list A) : existsb (λ _, false) l = false.
Proof. by induction l. Qed.

Lemma replays_create_activity mk mk' :
  replays 1 any (create ProductActivity_objects mk) (create ProductActivity_objects mk').
Proof.
  intros w r w' Hrun.
  apply create_run in Hrun as (i & t & -> & Hd & Hm & Hp).
  split.
  { split_and!; [| by rewrite Hm | done]. rewrite Hd. apply stable_activities. }
  intros v Hv. unfold create. rewrite (run_bind now). simpl. unfold insert. simpl.
  rewrite existsb_never.
  eexists _, _. split_and!; [done | done |].
  split_and!; [| done..]. unfold calm. simpl. split_and!; try done.
  by eexists [_].
Qed.

(** *** Directories and pictures *)

Lemma replays_mkdir p : replays 0 any (mkdir p) (mkdir p).
Proof.
  intros w [] w'. unfold mkdir.
  destruct (media w !! p) as [[]|] eqn:Hp; [| done |]; intros [= <-].
  - split; [reflexivity |]. intros v (Hst & Hm & Hpil).
    destruct (Hm p) as [Hdir _]. rewrite (Hdir Hp).
    exists tt, v. split_and!; [done | done | apply calmly_refl].
  - split.
    + split_and!; [reflexivity | | done]. simpl. intros q.
      destruct (decide (p = q)) as [<-|Hne].
      * rewrite lookup_insert_eq, Hp. split; [done | by intros [? ?]].
      * by rewrite lookup_insert_ne.
    + intros v (Hst & Hm & Hpil). destruct (Hm p) as [Hdir _].
      simpl in Hdir. rewrite lookup_insert_eq in Hdir. rewrite (Hdir eq_refl).
      exists tt, v. split_and!; [done | done | apply calmly_refl].
Qed.

Lemma image_save_run path f w w' :
  image_save path f w = (Ok tt, w') →
  w' = set_media (<[path := f]> (media w)) w.
Proof. unfold image_save. repeat case_match; by intros [= <-]. Qed.

Lemma color_for_frame label w c w1 :
  _color_for label w = (Ok c, w1) →
  db w1 = db w ∧ pillow w1 = pillow w ∧ media w1 = media w.
Proof.
  unfold _color_for, random_randint. rewrite !run_bind. simpl.
  by intros [= <- <-].
Qed.

Lemma create_image_run item w w' :
  create_image item w = (Ok tt, w') →
  db w' = db w ∧ pillow w' = pillow w
  ∧ media_grows (media w) (media w') ∧ is_Some (media w' !! item.1).
Proof.
  destruct item as [path label]. unfold create_image.
  rewrite (run_bind (file_exists path)). simpl.
  destruct (bool_decide (is_Some (media w !! path))) eqn:Hp.
  - apply bool_decide_eq_true in Hp. intros [= <-]. by split_and!.
  - apply bool_decide_eq_false in Hp. rewrite run_bind.
    destruct (_color_for label w) as [[c|e] w1] eqn:Hc; [| done].
    apply color_for_frame in Hc as (Hd & Hpil & Hm).
    intros ->%image_save_run. simpl. rewrite Hm. split_and!; try done.
    + intros q. destruct (decide (path = q)) as [<-|Hne].
      * rewrite lookup_insert_eq. split; [| by eauto].
        intros Hq. destruct Hp. by rewrite Hq.
      * by rewrite lookup_insert_ne.
    + rewrite lookup_insert_eq. by eauto.
Qed.

Lemma create_images_run l w w' :
  forM_ l create_image w = (Ok tt, w') →
  db w' = db w ∧ pillow w' = pillow w
  ∧ media_grows (media w) (media w')
  ∧ Forall (λ item, is_Some (media w' !! item.1)) l.
Proof.
  revert w. induction l as [|item l IH]; intros w; simpl.
  - intros [= <-]. by split_and!.
  - rewrite run_bind.
    destruct (create_image item w) as [[[]|e] w1] eqn:Hrun; [| done].
    apply create_image_run in Hrun as (Hd & Hp & Hm & Hi).
    intros (Hd2 & Hp2 & Hm2 & Hl)%IH.
    split_and!; try congruence.
    + by etrans.
    + constructor; [| done]. by apply (Hm2 item.1).
Qed.

Lemma create_images_present l v :
  Forall (λ item : string * string, is_Some (media v !! item.1)) l →
  forM_ l create_image v = (Ok tt, v).
Proof.
  induction 1 as [|[path label] l Hi _ IH]; simpl; [done |].
  rewrite run_bind. unfold create_image at 1.
  rewrite (run_bind (file_exists path)). simpl.
  by rewrite bool_decide_eq_true_2.
Qed.

Lemma replays_create_images : replays 0 any _create_images _create_images.
Proof.
  intros w [] w'. unfold _create_images. destruct (pillow w) eqn:Hpil.
  - intros (Hd & Hp & Hm & Hl)%create_images_run. split.
    + split_and!; [by rewrite Hd | done | congruence].
    + intros v (Hst & Hmv & Hpv). rewrite Hpv, Hp, Hpil.
      exists tt, v. split_and!; [| done | apply calmly_refl].
      apply create_images_present. eapply Forall_impl; [exact Hl |].
      intros item Hi. by apply (Hmv item.1).
  - intros [= <-]. split; [reflexivity |].
    intros v (Hst & Hmv & Hpv). rewrite Hpv, Hpil.
    exists tt, v. split_and!; [done | done | apply calmly_refl].
Qed.

(** *** Walking through the seeder, the two runs side by side *)

Lemma Forall2_eq_eq {A} (l l' : list A) : Forall2 eq l l' → l = l'.
Proof. induction 1; congruence. Qed.

Lemma replays_mapM_nil {A B} (E : B → B → Prop) (f f' : A → M B) :
  replays 0 (Forall2 E) (mapM f []) (mapM f' []).
Proof. apply replays_ret. constructor. Qed.

Lemma replays_mapM_cons {A B} n1 n2 n (E : B → B → Prop) (f f' : A → M B) x x' l l' :
  replays n1 E (f x) (f' x') →
  replays n2 (Forall2 E) (mapM f l) (mapM f' l') →
  n = (n1 + n2)%nat →
  replays n (Forall2 E) (mapM f (x :: l)) (mapM f' (x' :: l')).
Proof.
  intros Hx Hl ->. simpl.
  eapply replays_bind; [exact Hx | | reflexivity]. intros b b' Hb.
  eapply replays_bind; [exact Hl | | by rewrite Nat.add_0_r]. intros bs bs' Hbs.
  apply replays_ret. by constructor.
Qed.

Lemma replays_forM_nil {A} (f f' : A → M unit) :
  replays 0 any (forM_ [] f) (forM_ [] f').
Proof. by apply replays_ret. Qed.

Lemma replays_forM_cons {A} n1 n2 n (f f' : A → M unit) x x' l l' :
  replays n1 any (f x) (f' x') →
  replays n2 any (forM_ l f) (forM_ l' f') →
  n = (n1 + n2)%nat →
  replays n any (forM_ (x :: l) f) (forM_ (x' :: l') f').
Proof.
  intros Hx Hl ->. simpl. eapply replays_bind; [exact Hx | by intros | done].
Qed.

(** The result of a step in the second run, brought to that of the
    first where they agree *)
Ltac relate H :=
  lazymatch type of H with
  | any _ _ => clear H
  | @eq _ ?a ?b => subst b
  | Forall2 eq ?l ?l' => apply Forall2_eq_eq in H; subst l'
  | repassworded ?u ?u' =>
      rewrite ?(repassworded_id _ _ H), ?(repassworded_email _ _ H)
  | retotalled ?s ?s' => rewrite ?(retotalled_id _ _ H)
  | _ => idtac
  end.

Ltac rewrite_related :=
  repeat match goal with
  | H : repassworded _ ?u' |- context [User.id ?u'] =>
      rewrite (repassworded_id _ _ H)
  | H : repassworded _ ?u' |- context [User.email ?u'] =>
      rewrite (repassworded_email _ _ H)
  | H : retotalled _ ?s' |- context [Seller.id ?s'] =>
      rewrite (retotalled_id _ _ H)
  end.

Ltac related :=
  first [ exact I | reflexivity | eassumption
        | by repeat (apply related_items_insert; [eassumption |]);
             apply related_items_empty ].

Ltac replay_prim :=
  lazymatch goal with
  | |- replays _ _ (enter _) _ => apply replays_enter
  | |- replays _ _ now _ => apply replays_now
  | |- replays _ _ get_db _ => apply replays_get_db
  | |- replays _ _ (random_randint _ _) _ => apply replays_random_randint
  | |- replays _ _ (random_uniform_round2 _ _) _ => apply replays_random_uniform
  | |- replays _ _ (random_choice _) _ => apply replays_random_choice; done
  | |- replays _ _ (mkdir _) _ => apply replays_mkdir
  | |- replays _ _ _create_images _ => apply replays_create_images
  | |- replays _ _ (index ?l _) (index ?l _) => apply (replays_index eq); reflexivity
  | |- replays _ _ (index _ _) (index _ _) => eapply replays_index; eassumption
  | |- replays _ _ (getitem _ _) (getitem _ _) => eapply replays_getitem; eassumption
  | |- replays _ _ (get_or_create ?mgr ?key _ _) _ =>
      eapply (replays_get_or_create mgr key);
        [apply _ | reflexivity | intros; reflexivity]
  | |- replays _ _ (save_fields Seller_objects _ _) _ =>
      apply replays_save_totals; reflexivity
  | |- replays _ _ (create ProductActivity_objects _) _ =>
      apply replays_create_activity
  end.

Ltac replay_step :=
  rewrite_related;
  lazymatch goal with
  | |- replays _ _ (get_db ≫= _) _ =>
      first
        [ eapply replays_create_unless_exists;
            [apply _ | reflexivity | intros; reflexivity]
        | eapply replays_bind;
            [ replay_prim
            | let H := fresh "HE" in intros ? ? H; relate H; cbv beta iota zeta
            | ] ]
  | |- replays _ _ (get_or_create _ _ _ _ ≫= _) _ =>
      eapply replays_bind;
        [ replay_prim
        | let H := fresh "HE" in
          intros [? ?] [? ?] H; simpl in H; relate H; cbv beta iota
        | ]
  | |- replays _ _ (mapM _ _ ≫= _) _ =>
      eapply replays_bind;
        [ | let H := fresh "HE" in intros ? ? H; relate H; cbv beta iota | ]
  | |- replays _ _ (forM_ _ _ ≫= _) _ =>
      eapply replays_bind;
        [ | let H := fresh "HE" in intros ? ? H; relate H; cbv beta iota | ]
  | |- replays _ _ (_ ≫= _) _ =>
      eapply replays_bind;
        [ replay_prim
        | let H := fresh "HE" in intros ? ? H; relate H; cbv beta iota
        | ]
  | |- replays _ ?E (ret _) _ =>
      tryif is_evar E then (apply (replays_ret eq); reflexivity)
      else (apply replays_ret; related)
  | |- replays _ _ (raise _) _ => apply replays_raise
  | |- replays _ _ (mapM _ []) _ => apply replays_mapM_nil
  | |- replays _ _ (mapM _ (_ :: _)) _ => eapply replays_mapM_cons; [cbv beta iota | |]
  | |- replays _ _ (forM_ [] _) _ => apply replays_forM_nil
  | |- replays _ _ (forM_ (_ :: _) _) _ => eapply replays_forM_cons; [cbv beta iota | |]
  | |- replays _ _ (match ?x with _ => _ end) _ => destruct x
  | |- replays _ _ _ _ => replay_prim
  end.

Ltac replay_walk := repeat replay_step; try reflexivity.

Lemma replays_create_regions : replays 0 (Forall2 eq) _create_regions _create_regions.
Proof. unfold _create_regions. replay_walk. Qed.

Lemma replays_create_categories :
  replays 0 (Forall2 eq) _create_categories _create_categories.
Proof. unfold _create_categories. replay_walk. Qed.

Lemma replays_create_artisans regions :
  replays 0 (Forall2 eq) (_create_artisans regions) (_create_artisans regions).
Proof. unfold _create_artisans. replay_walk. Qed.

Lemma replays_order_item order product :
  replays 0 any (order_item order product) (order_item order product).
Proof. unfold order_item. replay_walk. Qed.

Lemma replays_create_profile user user' user_type phone city :
  repassworded user user' →
  replays 0 any (_create_profile user user_type phone city)
    (_create_profile user' user_type phone city).
Proof. intros Hu. unfold _create_profile. replay_walk. Qed.

Lemma replays_get_or_create_user username email password :
  replays 0 repassworded (_get_or_create_user username email password)
    (_get_or_create_user username email password).
Proof.
  eapply replays_ext;
    [ | | apply (replays_user_then 0 repassworded
                  (λ u c, c || negb (User.has_usable_password u)) username
                  (λ i t, User.Build i username email "" false false true t)
                  (λ i t, User.Build i username email "" false false true t)
                  password ret ret) ].
  - intros w. unfold _get_or_create_user. rewrite !run_bind.
    destruct (get_or_create _ _ _ _ w) as [[[u c]|e] w1]; [| done].
    rewrite run_bind. by destruct (_ w1) as [[?|?] ?].
  - intros w. unfold _get_or_create_user. rewrite !run_bind.
    destruct (get_or_create _ _ _ _ w) as [[[u c]|e] w1]; [| done].
    rewrite run_bind. by destruct (_ w1) as [[?|?] ?].
  - intros u c Hc. apply orb_false_iff in Hc as [_ Hc]. by apply negb_false_iff.
  - intros u Hu. by rewrite Hu.
  - done.
  - intros u u' Hu. by apply replays_ret.
Qed.

Ltac replay_unit :=
  lazymatch goal with
  | |- replays _ _ (order_item _ _) _ => apply replays_order_item
  | |- replays _ _ (_create_profile _ _ _ _) _ =>
      apply replays_create_profile; eassumption
  | |- replays _ _ (_get_or_create_user _ _ _) _ => apply replays_get_or_create_user
  end.

Ltac replay_walk' :=
  repeat first [ replay_step
               | eapply replays_bind;
                   [ replay_unit
                   | let H := fresh "HE" in intros ? ? H; relate H; cbv beta iota
                   | ]
               | replay_unit ];
  try reflexivity.

Lemma replays_create_orders users users' products :
  related_items repassworded users users' →
  replays 0 any (_create_orders users products) (_create_orders users' products).
Proof. intros Hu. unfold _create_orders. replay_walk'. Qed.

Lemma replays_create_users :
  replays 0 (related_items repassworded) _create_users _create_users.
Proof.
  unfold _create_users.
  eapply replays_bind; [apply replays_enter | intros _ _ _ | reflexivity].
  apply (replays_user_then _ _ (λ u _, negb (User.has_usable_password u))).
  - intros u _ Hc. by apply negb_false_iff.
  - intros u Hu. by rewrite Hu.
  - done.
  - intros admin admin' Hadmin. replay_walk'.
Qed.

Lemma replays_create_sellers users users' regions :
  related_items repassworded users users' →
  replays 0 (Forall2 retotalled)
    (_create_sellers users regions) (_create_sellers users' regions).
Proof. intros Hu. unfold _create_sellers. replay_walk'. Qed.

Lemma replays_create_stories regions :
  replays 0 any (_create_stories regions) (_create_stories regions).
Proof. unfold _create_stories. replay_walk'. Qed.

Lemma replays_create_gallery artisans products regions :
  replays 0 any (_create_gallery artisans products regions)
    (_create_gallery artisans products regions).
Proof. unfold _create_gallery. replay_walk'. Qed.

Lemma replays_create_newsletters users users' :
  related_items repassworded users users' →
  replays 0 any (_create_newsletters users) (_create_newsletters users').
Proof. intros Hu. unfold _create_newsletters. replay_walk'. Qed.

Lemma replays_ensure_media_dirs :
  replays 0 any _ensure_media_dirs _ensure_media_dirs.
Proof. unfold _ensure_media_dirs. replay_walk'. Qed.

Lemma replays_create_story_posts users users' :
  related_items repassworded users users' →
  replays 0 any (_create_story_posts users) (_create_story_posts users').
Proof. intros Hu. unfold _create_story_posts. replay_walk'. Qed.

Lemma replays_post {A} n (E : A → A → Prop) (P : A → Prop) (m m' : M A) :
  replays n E m m' →
  (∀ w a w', m w = (Ok a, w') → P a) →
  replays n (λ a a', E a a' ∧ P a) m m'.
Proof.
  intros H HP w a w' Hrun. destruct (H w a w' Hrun) as [Hs Hv]. split; [done |].
  intros v Hset. destruct (Hv v Hset) as (a' & v' & ? & ? & ?).
  exists a', v'. split_and!; eauto.
Qed.

Lemma mapM_length {A B} (f : A → M B) l w bs w' :
  mapM f l w = (Ok bs, w') → length bs = length l.
Proof.
  revert w bs. induction l as [|a l IH]; intros w bs; simpl.
  - by intros [= <- <-].
  - intros H. apply bind_Ok_inv in H as (b & w1 & _ & H).
    apply bind_Ok_inv in H as (bs' & w2 & Hl & [= <- <-]).
    simpl. f_equal. by eapply IH.
Qed.

Ltac replay_loop :=
  lazymatch goal with
  | |- replays _ _ (forM_ ?l _) (forM_ ?l _) =>
      eapply (replays_forM_ _ eq);
        [reflexivity | intros ? ? <-; cbv beta iota zeta]
  | |- replays _ _ (forM_ _ _) (forM_ _ _) =>
      eapply replays_forM_;
        [eassumption | let H := fresh "HE" in intros ? ? H; cbv beta iota zeta]
  end.

Ltac replay_all :=
  repeat first
    [ replay_step
    | eapply replays_bind;
        [ replay_unit
        | let H := fresh "HE" in intros ? ? H; relate H; cbv beta iota
        | ]
    | replay_unit
    | replay_loop ];
  try reflexivity.

Lemma replays_create_seller_products sellers sellers' products :
  replays 0 any (_create_seller_products sellers products)
    (_create_seller_products sellers' products).
Proof. unfold _create_seller_products. replay_all. simpl. lia. Qed.

Lemma replays_create_product_activity sellers sellers' products users users' :
  related_items repassworded users users' →
  length products = 6%nat →
  replays 18 any (_create_product_activity sellers products users)
    (_create_product_activity sellers' products users').
Proof.
  intros Hu Hlen. unfold _create_product_activity. cbn [seq]. replay_all.
  rewrite Hlen. reflexivity.
Qed.

Lemma replays_create_products categories regions artisans sellers sellers' :
  Forall2 retotalled sellers sellers' →
  replays 0 (λ l l', Forall2 eq l l' ∧ length l = 6%nat)
    (_create_products categories regions artisans sellers)
    (_create_products categories regions artisans sellers').
Proof.
  intros Hs. unfold _create_products.
  repeat lazymatch goal with
    | |- replays _ _ (index _ _ ≫= _) _ => replay_step
    | |- replays _ _ (enter _ ≫= _) _ => replay_step
    end.
  eapply replays_bind;
    [ eapply (replays_post _ (Forall2 eq) (λ bs, length bs = 6%nat));
        [ replay_all | intros w bs w' H; by apply mapM_length in H ]
    | intros products products' [Hprod Hlen]; relate Hprod; cbv beta iota
    | ].
  replay_all.
  { apply replays_ret. by split. }
  all: first [reflexivity | simpl; lia].
Qed.

Ltac replay_stage :=
  lazymatch goal with
  | |- replays _ _ (ret _) _ => apply (replays_ret any); exact I
  | |- replays _ _ _ensure_media_dirs _ => apply replays_ensure_media_dirs
  | |- replays _ _ _create_images _ => apply replays_create_images
  | |- replays _ _ _create_users _ => apply replays_create_users
  | |- replays _ _ _create_regions _ => apply replays_create_regions
  | |- replays _ _ _create_categories _ => apply replays_create_categories
  | |- replays _ _ (_create_artisans _) _ => apply replays_create_artisans
  | |- replays _ _ (_create_sellers _ _) _ =>
      apply replays_create_sellers; eassumption
  | |- replays _ _ (_create_products _ _ _ _) _ =>
      apply replays_create_products; eassumption
  | |- replays _ _ (_create_seller_products _ _) _ =>
      apply replays_create_seller_products
  | |- replays _ _ (_create_stories _) _ => apply replays_create_stories
  | |- replays _ _ (_create_story_posts _) _ =>
      apply replays_create_story_posts; eassumption
  | |- replays _ _ (_create_gallery _ _ _) _ => apply replays_create_gallery
  | |- replays _ _ (_create_orders _ _) _ =>
      apply replays_create_orders; eassumption
  | |- replays _ _ (_create_product_activity _ _ _) _ =>
      apply replays_create_product_activity; eassumption
  | |- replays _ _ (_create_newsletters _) _ =>
      apply replays_create_newsletters; eassumption
  end.

Ltac relate_stage H :=
  cbv beta in H;
  lazymatch type of H with
  | _ ∧ _ => let H1 := fresh "HE" in let H2 := fresh "Hlen" in
             destruct H as [H1 H2]; relate H1
  | _ => relate H
  end.

(** The seeder after the seeder *)
Lemma replays_atomic_block : replays 18 any (atomic_block false) (atomic_block false).
Proof.
  unfold atomic_block.
  repeat lazymatch goal with
    | |- replays _ _ (_ ≫= _) _ =>
        eapply replays_bind;
          [ replay_stage
          | let H := fresh "HE" in intros ? ? H; relate_stage H; cbv beta iota
          | ]
    | |- replays _ _ _ _ => replay_stage
    end.
  all: reflexivity.
Qed.

(** ** The seeder run again *)

(** C1 (as amended). After a run of the command without [--reset] that
    returned, a run in a process with the same database, files and
    Pillow returns as well; it leaves every table as it is but two: it
    adds eighteen rows to [ProductActivity] after the rows that are
    there, and it writes [total_products] and [total_sales] of the
    sellers again, their other fields staying. *)
Theorem C1_second_run_adds_activity (w0 w1 w : World) :
  handle false w0 = (Ok tt, w1) →
  db w = db w1 → media w = media w1 → pillow w = pillow w1 →
  ∃ w2, handle false w = (Ok tt, w2) ∧ calm 18 (db w1) (db w2).
Proof.
  intros Hrun Hd Hm Hp. unfold handle, atomic in Hrun.
  destruct (atomic_block false w0) as [[[]|e] w'] eqn:Hblock; [| done].
  injection Hrun as ->.
  destruct (replays_atomic_block w0 tt w1 Hblock) as [_ Hagain].
  destruct (Hagain w) as ([] & w2 & Hrun2 & _ & Hcalm & _).
  { by apply settled_same. }
  exists w2. split.
  - unfold handle, atomic. by rewrite Hrun2.
  - by rewrite <- Hd.
Qed.

Lemma C1_second_run_adds_activity_witness :
  ∃ w2, handle false seeded_world = (Ok tt, w2)
        ∧ calm 18 (db seeded_world) (db w2).
Proof.
  apply (C1_second_run_adds_activity fresh_world seeded_world seeded_world);
    [by vm_compute | reflexivity..].
Defined.

(** C1 (as stated) fails: the second run on a new installation adds
    eighteen rows of [ProductActivity] and draws the sales of the three
    sellers again. *)
Lemma C1_second_run_changes_database :
  (handle false fresh_world).1 = Ok tt
  ∧ (handle false seeded_world).1 = Ok tt
  ∧ length (product_activities (db seeded_world)) = 18%nat
  ∧ length (product_activities (db (handle false seeded_world).2)) = 36%nat
  ∧ map Seller.total_sales (sellers (db seeded_world)) = [580000; 750000; 920000]
  ∧ map Seller.total_sales (sellers (db (handle false seeded_world).2))
    = [1720000; 1890000; 550000].
Proof. by vm_compute. Qed.

(** ** What a run without [--reset] leaves as it is *)

#[global] Instance untouched_preorder {Row} (mgr : Manager Row) : PreOrder (untouched mgr).
Proof.
  split.
  - by intros d.
  - intros d1 d2 d3. unfold untouched. congruence.
Qed.

#[global] Instance kept_within_preorder {Row} (E : relation Row) `{!PreOrder E}
    (mgr : Manager Row) : PreOrder (kept_within E mgr).
Proof.
  split.
  - intros d. exists (rows mgr d), []. by rewrite app_nil_r.
  - intros d1 d2 d3 (o1 & n1 & H1 & HE1) (o2 & n2 & H2 & HE2).
    rewrite H1 in HE2. apply Forall2_app_inv_l in HE2 as (o2a & o2b & Ha & Hb & ->).
    exists o2a, (o2b ++ n2)%list. split; [by rewrite H2, <- app_assoc |].
    by etrans.
Qed.

Lemma kept_within_insert {Row} (E : relation Row) `{!PreOrder E} (l : list Row) r :
  ∃ old new, (l ++ [r])%list = (old ++ new)%list ∧ Forall2 E l old.
Proof. by exists l, [r]. Qed.

Lemma kept_within_map {Row} (E : relation Row) (g : Row → Row) (l : list Row) :
  (∀ x, E x (g x)) →
  ∃ old new, map g l = (old ++ new)%list ∧ Forall2 E l old.
Proof.
  intros H. exists (map g l), []. rewrite app_nil_r. split; [done |].
  by apply Forall2_map_r_same.
Qed.

Ltac untouched_tac := on_tac ltac:(unfold untouched; simpl; reflexivity).

Ltac kept_within_tac :=
  on_tac ltac:(unfold kept_within; simpl;
               first [ by eexists _, []; rewrite app_nil_r
                     | apply kept_within_insert; apply _
                     | apply kept_within_map; intros x;
                       destruct (Nat.eqb _ _); [by destruct x | reflexivity] ]).

Lemma seed_keeps_users :
  respects (on_db (kept_within repassworded User_objects)) (handle false).
Proof. respects_walk kept_within_tac. Qed.

Lemma seed_keeps_sellers :
  respects (on_db (kept_within retotalled Seller_objects)) (handle false).
Proof. respects_walk kept_within_tac. Qed.

Lemma seed_leaves_favorites :
  respects (on_db (untouched Favorite_objects)) (handle false).
Proof. respects_walk untouched_tac. Qed.

Lemma seed_keeps_profiles : respects (on_db (kept UserProfile_objects)) (handle false).
Proof. respects_walk kept_tac. Qed.
Lemma seed_keeps_seller_products :
  respects (on_db (kept SellerProduct_objects)) (handle false).
Proof. respects_walk kept_tac. Qed.
Lemma seed_keeps_categories : respects (on_db (kept Category_objects)) (handle false).
Proof. respects_walk kept_tac. Qed.
Lemma seed_keeps_regions : respects (on_db (kept Region_objects)) (handle false).
Proof. respects_walk kept_tac. Qed.
Lemma seed_keeps_artisans : respects (on_db (kept Artisan_objects)) (handle false).
Proof. respects_walk kept_tac. Qed.
Lemma seed_keeps_products : respects (on_db (kept Product_objects)) (handle false).
Proof. respects_walk kept_tac. Qed.
Lemma seed_keeps_stories :
  respects (on_db (kept CulturalStory_objects)) (handle false).
Proof. respects_walk kept_tac. Qed.
Lemma seed_keeps_story_posts : respects (on_db (kept StoryPost_objects)) (handle false).
Proof. respects_walk kept_tac. Qed.
Lemma seed_keeps_gallery : respects (on_db (kept GalleryImage_objects)) (handle false).
Proof. respects_walk kept_tac. Qed.
Lemma seed_keeps_orders : respects (on_db (kept Order_objects)) (handle false).
Proof. respects_walk kept_tac. Qed.
Lemma seed_keeps_order_items : respects (on_db (kept OrderItem_objects)) (handle false).
Proof. respects_walk kept_tac. Qed.
Lemma seed_keeps_newsletters : respects (on_db (kept Newsletter_objects)) (handle false).
Proof. respects_walk kept_tac. Qed.

(** X1. Whatever the database, a run of the command without [--reset]
    changes no row that is there and moves none: in every table the old
    rows are a prefix of the new, a row of [User] changed in its
    password at most and a row of [Seller] in its totals at most, and
    the table of [Favorite] is the same. *)
Theorem X1_seed_keeps_existing_rows (w : World) :
  let d := db w in
  let d' := db (handle false w).2 in
  kept_within repassworded User_objects d d'
  ∧ kept_within retotalled Seller_objects d d'
  ∧ kept UserProfile_objects d d'
  ∧ kept SellerProduct_objects d d'
  ∧ kept ProductActivity_objects d d'
  ∧ kept Category_objects d d'
  ∧ kept Region_objects d d'
  ∧ kept Artisan_objects d d'
  ∧ kept Product_objects d d'
  ∧ kept CulturalStory_objects d d'
  ∧ kept StoryPost_objects d d'
  ∧ kept GalleryImage_objects d d'
  ∧ kept Order_objects d d'
  ∧ kept OrderItem_objects d d'
  ∧ kept Newsletter_objects d d'
  ∧ untouched Favorite_objects d d'.
Proof.
  cbv zeta. split_and!.
  - apply (respects_db_on _ _ seed_keeps_users).
  - apply (respects_db_on _ _ seed_keeps_sellers).
  - apply (respects_db_on _ _ seed_keeps_profiles).
  - apply (respects_db_on _ _ seed_keeps_seller_products).
  - apply (respects_db_on _ _ seed_keeps_activities).
  - apply (respects_db_on _ _ seed_keeps_categories).
  - apply (respects_db_on _ _ seed_keeps_regions).
  - apply (respects_db_on _ _ seed_keeps_artisans).
  - apply (respects_db_on _ _ seed_keeps_products).
  - apply (respects_db_on _ _ seed_keeps_stories).
  - apply (respects_db_on _ _ seed_keeps_story_posts).
  - apply (respects_db_on _ _ seed_keeps_gallery).
  - apply (respects_db_on _ _ seed_keeps_orders).
  - apply (respects_db_on _ _ seed_keeps_order_items).
  - apply (respects_db_on _ _ seed_keeps_newsletters).
  - apply (respects_db_on _ _ seed_leaves_favorites).
Qed.

(** ** Files *)

#[global] Instance files_kept_preorder : PreOrder files_kept.
Proof.
  split.
  - intros w. unfold files_kept. reflexivity.
  - intros w1 w2 w3. unfold files_kept. apply transitivity.
Qed.

Lemma files_quiet {A} (m : M A) :
  (∀ w, media (m w).2 = media w) → respects files_kept m.
Proof. intros H w. unfold files_kept. by rewrite H. Qed.

Lemma media_insert {Row} (mgr : Manager Row) mk w :
  media (insert mgr mk w).2 = media w.
Proof. unfold insert. by destruct (existsb _ _). Qed.

Lemma media_create {Row} (mgr : Manager Row) mk w :
  media (create mgr mk w).2 = media w.
Proof. unfold create. rewrite (run_bind now). simpl. by rewrite media_insert. Qed.

Lemma media_get_or_create {Row K} `{EqDecision K} (mgr : Manager Row)
    (key : Row → K) k mk w :
  media (get_or_create mgr key k mk w).2 = media w.
Proof.
  unfold get_or_create. rewrite (run_bind get_db). simpl.
  destruct (select _ _ _) as [|r [|r' l]]; [| done..].
  rewrite run_bind. pose proof (media_create mgr mk w) as H.
  by destruct (create mgr mk w) as [[?|?] ?].
Qed.

Lemma media_save_fields {Row} (mgr : Manager Row) i f w :
  media (save_fields mgr i f w).2 = media w.
Proof.
  unfold save_fields. rewrite (run_bind get_db). simpl. by destruct (existsb _ _).
Qed.

Lemma media_random_choice {A} (l : list A) w :
  media (random_choice l w).2 = media w.
Proof. unfold random_choice. rewrite run_bind. simpl. by destruct (l !! _). Qed.

Lemma files_kept_mkdir p : respects files_kept (mkdir p).
Proof.
  intros w. unfold mkdir, files_kept.
  destruct (media w !! p) as [[]|] eqn:Hp; simpl; [done.. |].
  by apply insert_subseteq.
Qed.

Lemma files_kept_create_image item : respects files_kept (create_image item).
Proof.
  intros w. destruct item as [path label]. unfold create_image, files_kept.
  rewrite (run_bind (file_exists path)). simpl.
  destruct (bool_decide (is_Some (media w !! path))) eqn:Hp; [done |].
  apply bool_decide_eq_false in Hp. rewrite run_bind.
  destruct (_color_for label w) as [[c|e] w1] eqn:Hc.
  - apply color_for_frame in Hc as (_ & _ & Hm). rewrite <- Hm in *.
    unfold image_save.
    repeat case_match; simpl; try done; apply insert_subseteq;
      first [done | exfalso; apply Hp; eauto].
  - revert Hc. unfold _color_for, random_randint. rewrite !run_bind. by simpl.
Qed.

Lemma files_kept_create_images : respects files_kept _create_images.
Proof.
  intros w. unfold _create_images. destruct (pillow w); [| reflexivity].
  revert w. apply respects_forM_; [apply _ |]. apply files_kept_create_image.
Qed.

Lemma files_kept_atomic {A} (m : M A) :
  respects files_kept m → respects files_kept (atomic m).
Proof.
  intros H w. unfold atomic. specialize (H w).
  by destruct (m w) as [[a|e] w'].
Qed.

Ltac files_step :=
  lazymatch goal with
  | |- respects _ (_ ≫= _) => apply respects_bind; [apply _ | | intros ?]
  | |- respects _ (ret _) => apply respects_ret; apply _
  | |- respects _ (raise _) => apply respects_raise; apply _
  | |- respects _ (mapM _ _) => apply respects_mapM; [apply _ | intros ?]
  | |- respects _ (forM_ _ _) => apply respects_forM_; [apply _ | intros ?]
  | |- respects _ (index _ _) => apply respects_index; apply _
  | |- respects _ (getitem _ _) => apply respects_getitem; apply _
  | |- respects _ get_db => apply respects_get_db; apply _
  | |- respects _ (mkdir _) => apply files_kept_mkdir
  | |- respects _ _create_images => apply files_kept_create_images
  | |- respects _ (get_or_create _ _ _ _) =>
      apply files_quiet; intros; apply media_get_or_create
  | |- respects _ (create _ _) => apply files_quiet; intros; apply media_create
  | |- respects _ (save_fields _ _ _) =>
      apply files_quiet; intros; apply media_save_fields
  | |- respects _ (random_choice _) =>
      apply files_quiet; intros; apply media_random_choice
  | |- respects _ (atomic _) => apply files_kept_atomic
  | |- respects _ (match ?x with _ => _ end) => destruct x
  | |- respects _ (if ?x then _ else _) => destruct x
  | |- respects _ now => by apply files_quiet
  | |- respects _ (enter _) => by apply files_quiet
  | |- respects _ (random_randint _ _) => by apply files_quiet
  | |- respects _ (random_uniform_round2 _ _) => by apply files_quiet
  | |- respects _ (queryset_delete _ _ _) => by apply files_quiet
  | |- respects _ _ => progress cbv beta
  end.

Lemma handle_keeps_files reset : respects files_kept (handle reset).
Proof.
  unfold handle, atomic_block, _reset_data, _ensure_media_dirs, _create_users,
    _get_or_create_user, _create_profile, _create_regions, _create_categories,
    _create_artisans, _create_sellers, _create_products, _create_seller_products,
    _create_stories, _create_story_posts, _create_gallery, _create_orders,
    order_item, _create_product_activity, _create_newsletters.
  repeat files_step.
Qed.

(** X2. No run of the command, with or without [--reset] and whether it
    returns or raises, removes a file or changes the content of one:
    the rollback of the database leaves the files alone. *)
Theorem X2_files_are_never_lost (reset : bool) (w : World) :
  media w ⊆ media (handle reset w).2.
Proof. apply (handle_keeps_files reset w). Qed.

(** *** The folders *)

Lemma mkdirs_run l w :
  (∀ d, d ∈ l → media w !! d = None ∨ media w !! d = Some Directory) →
  ∃ w', forM_ l mkdir w = (Ok tt, w')
    ∧ db w' = db w ∧ pillow w' = pillow w ∧ twister w' = twister w
    ∧ rng w' = rng w
    ∧ (∀ d, d ∈ l → media w' !! d = Some Directory)
    ∧ (∀ p, p ∉ l → media w' !! p = media w !! p).
Proof.
  revert w. induction l as [|a l IH]; intros w Hl; simpl.
  - exists w. split_and!; try done. by intros d ?%elem_of_nil.
  - assert (∃ w1, mkdir a w = (Ok tt, w1) ∧ db w1 = db w ∧ pillow w1 = pillow w
              ∧ twister w1 = twister w ∧ rng w1 = rng w
              ∧ media w1 !! a = Some Directory
              ∧ (∀ p, p ≠ a → media w1 !! p = media w !! p)) as
      (w1 & Hrun & Hd & Hp & Ht & Hr & Ha & Hother).
    { unfold mkdir. destruct (Hl a) as [Hn|Hdir]; [by left | |].
      - rewrite Hn. eexists. split_and!; try done; simpl.
        + by rewrite lookup_insert_eq.
        + intros p Hp. by rewrite lookup_insert_ne.
      - rewrite Hdir. exists w. by split_and!. }
    destruct (IH w1) as (w2 & Hrun2 & Hd2 & Hp2 & Ht2 & Hr2 & Hdirs & Hrest).
    { intros d Hd'. destruct (decide (d = a)) as [->|Hne]; [by right |].
      rewrite Hother by done. apply Hl. by right. }
    exists w2. rewrite run_bind, Hrun. split_and!; try done; try congruence.
    + intros d [->|Hd']%elem_of_cons; [| by apply Hdirs].
      destruct (decide (a ∈ l)); [by apply Hdirs |].
      by rewrite Hrest.
    + intros p [Hpa Hpl]%not_elem_of_cons. rewrite Hrest by done. by apply Hother.
Qed.

Lemma mkdirs_fail l w d width height colour label :
  d ∈ l → media w !! d = Some (Jpeg width height colour label) →
  ∃ w', forM_ l mkdir w = (Raise FileExistsError, w') ∧ db w' = db w.
Proof.
  revert w. induction l as [|a l IH]; intros w Hin Hd; simpl.
  - by apply elem_of_nil in Hin.
  - rewrite run_bind. unfold mkdir at 1.
    destruct (media w !! a) as [[|? ? ? ?]|] eqn:Ha.
    + apply elem_of_cons in Hin as [->|Hin]; [congruence |]. by apply IH.
    + by exists w.
    + apply elem_of_cons in Hin as [->|Hin]; [congruence |].
      destruct (IH (set_media (<[a:=Directory]> (media w)) w) Hin) as (w' & -> & Hdb).
      * simpl. rewrite lookup_insert_ne; [done |]. intros ->. congruence.
      * by exists w'.
Qed.

(** X3. When none of the eight folder names is taken by a file,
    [_ensure_media_dirs] returns: the eight folders are directories
    afterwards, every other path is as it was, and the database is the
    same. *)
Theorem X3_ensure_media_dirs_makes_folders (w : World) :
  (∀ d, d ∈ media_folders → media w !! d = None ∨ media w !! d = Some Directory) →
  ∃ w', _ensure_media_dirs w = (Ok tt, w')
    ∧ db w' = db w
    ∧ (∀ d, d ∈ media_folders → media w' !! d = Some Directory)
    ∧ (∀ p, p ∉ media_folders → media w' !! p = media w !! p).
Proof.
  intros H. destruct (mkdirs_run media_folders w H) as (w' & ? & ? & _ & _ & _ & ? & ?).
  by exists w'.
Qed.

Lemma X3_ensure_media_dirs_makes_folders_witness :
  ∃ w', _ensure_media_dirs fresh_world = (Ok tt, w')
    ∧ db w' = db fresh_world
    ∧ (∀ d, d ∈ media_folders → media w' !! d = Some Directory)
    ∧ (∀ p, p ∉ media_folders → media w' !! p = media fresh_world !! p).
Proof.
  apply (X3_ensure_media_dirs_makes_folders fresh_world).
  intros d _. left. apply lookup_empty.
Defined.

(** X4. When a file has the name of one of the eight folders, the
    command raises [FileExistsError], with or without [--reset], and
    leaves the database as it was. *)
Theorem X4_file_in_place_of_folder (reset : bool) (w : World) (d : string)
    (width height : Z) (colour : Z * Z * Z) (label : string) :
  d ∈ media_folders →
  media w !! d = Some (Jpeg width height colour label) →
  (handle reset w).1 = Raise FileExistsError ∧ db (handle reset w).2 = db w.
Proof.
  intros Hin Hd. unfold handle, atomic, atomic_block.
  rewrite (run_bind (if reset then _reset_data else ret tt)).
  destruct (reset_run reset w) as [d0 ->].
  rewrite (run_bind _ensure_media_dirs).
  destruct (mkdirs_fail media_folders (set_db d0 w) d width height colour label Hin Hd)
    as (w' & Hrun & _).
  unfold _ensure_media_dirs. fold media_folders. by rewrite Hrun.
Qed.

Lemma X4_file_in_place_of_folder_witness :
  (handle true (set_media {["gallery" := Jpeg 1 1 (0, 0, 0) "x"]} staffed_world)).1
  = Raise FileExistsError.
Proof.
  apply (X4_file_in_place_of_folder true
           (set_media {["gallery" := Jpeg 1 1 (0, 0, 0) "x"]} staffed_world)
           "gallery" 1 1 (0, 0, 0) "x").
  - apply list_elem_of_In. unfold media_folders. simpl. tauto.
  - reflexivity.
Defined.

(** *** The pictures *)

Lemma randint_range (a b x : Z) : a ≤ b → a ≤ a + x mod (b - a + 1) ≤ b.
Proof. intros H. pose proof (Z.mod_pos_bound x (b - a + 1) ltac:(lia)). lia. Qed.

Lemma color_for_run label w :
  ∃ r g b, _color_for label w = (Ok (r, g, b), set_rng (BuildRng (twister w label) 3) w)
    ∧ (40 ≤ r ≤ 200) ∧ (40 ≤ g ≤ 200) ∧ (40 ≤ b ≤ 200).
Proof.
  eexists _, _, _. split; [reflexivity |].
  split_and!; by apply (randint_range 40 200).
Qed.

(** X5. The colour that [_color_for] returns is a function of the label
    alone: it does not depend on what the generator of [random] has
    produced before; its three channels lie between 40 and 200; and the
    call leaves the generator seeded with the label, three numbers
    drawn. *)
Theorem X5_color_for_depends_on_label_only (label : string) (w : World) (gen : Rng) :
  ∃ r g b,
    (_color_for label w).1 = Ok (r, g, b)
    ∧ (_color_for label (set_rng gen w)).1 = Ok (r, g, b)
    ∧ (40 ≤ r ≤ 200) ∧ (40 ≤ g ≤ 200) ∧ (40 ≤ b ≤ 200)
    ∧ rng (_color_for label w).2 = BuildRng (twister w label) 3
    ∧ rng (_color_for label (set_rng gen w)).2 = BuildRng (twister w label) 3.
Proof.
  destruct (color_for_run label w) as (r & g & b & Hrun & Hr & Hg & Hb).
  assert (_color_for label (set_rng gen w)
          = ((_color_for label w).1, (_color_for label w).2)) as Hgen by reflexivity.
  exists r, g, b. rewrite Hgen, Hrun. split_and!; first [done | lia].
Qed.

Lemma image_save_in_folder path f w :
  in_folder (media w) path → media w !! path = None →
  image_save path f w = (Ok tt, set_media (<[path := f]> (media w)) w).
Proof. intros (d & Hd & Hdir) Hnone. unfold image_save. by rewrite Hd, Hdir, Hnone. Qed.

Lemma create_image_post path label w :
  in_folder (media w) path →
  ∃ w1, create_image (path, label) w = (Ok tt, w1)
    ∧ db w1 = db w ∧ twister w1 = twister w
    ∧ (∀ p, p ≠ path → media w1 !! p = media w !! p)
    ∧ (is_Some (media w !! path) → media w1 !! path = media w !! path)
    ∧ (media w !! path = None →
       ∃ c, (_color_for label w).1 = Ok c
            ∧ media w1 !! path = Some (Jpeg 900 600 c label)).
Proof.
  intros Hfolder.
  unfold create_image. rewrite (run_bind (file_exists path)).
  unfold file_exists at 1.
  destruct (bool_decide (is_Some (media w !! path))) eqn:Hp.
  - apply bool_decide_eq_true in Hp. exists w. split_and!; try done.
    intros Hn. rewrite Hn in Hp. by destruct Hp.
  - apply bool_decide_eq_false in Hp.
    destruct (color_for_run label w) as (r & g & b & Hc & _).
    rewrite run_bind, Hc.
    rewrite image_save_in_folder; [| done | by apply eq_None_not_Some].
    eexists. split_and!; [reflexivity | reflexivity | reflexivity | | | ].
    + intros p Hne. cbn [media set_media set_rng]. by rewrite lookup_insert_ne.
    + intros Hsome. by destruct Hp.
    + intros _. exists (r, g, b). split; [reflexivity |].
      cbn [media set_media set_rng]. by rewrite lookup_insert_eq.
Qed.

Lemma color_for_twister label w w' :
  twister w' = twister w → (_color_for label w').1 = (_color_for label w).1.
Proof. intros Ht. destruct w, w'. simpl in Ht. subst. reflexivity. Qed.

Lemma create_images_post l w :
  NoDup l.*1 →
  Forall (λ item, in_folder (media w) item.1) l →
  ∃ w', forM_ l create_image w = (Ok tt, w')
    ∧ db w' = db w ∧ twister w' = twister w
    ∧ media w ⊆ media w'
    ∧ (∀ path label, (path, label) ∈ l → media w !! path = None →
         ∃ c, (_color_for label w).1 = Ok c
              ∧ media w' !! path = Some (Jpeg 900 600 c label))
    ∧ (∀ p, p ∉ l.*1 → media w' !! p = media w !! p).
Proof.
  revert w. induction l as [|[path label] l IH]; intros w Hnd Hfolders.
  - exists w. split_and!; try done. by intros ? ? ?%elem_of_nil.
  - rewrite fmap_cons in Hnd. apply NoDup_cons in Hnd as [Hpath Hnd].
    apply Forall_cons in Hfolders as [Hfolder Hfolders].
    destruct (create_image_post path label w Hfolder)
      as (w1 & Hrun & Hd & Ht & Hother & Hsome & Hnone).
    destruct (IH w1 Hnd) as (w2 & Hrun2 & Hd2 & Ht2 & Hsub & Hnew & Hrest).
    { eapply Forall_impl; [exact Hfolders |].
      intros item (d & Hdir & Hm). exists d. split; [done |].
      destruct (decide (d = path)) as [->|Hne].
      - rewrite Hsome; [done | by rewrite Hm].
      - by rewrite Hother. }
    exists w2. cbn [forM_]. rewrite run_bind, Hrun.
    split_and!; try done; try congruence.
    + etrans; [| exact Hsub]. apply map_subseteq_spec. intros p f Hp.
      destruct (decide (p = path)) as [->|Hne].
      * rewrite Hsome; [done | by rewrite Hp].
      * by rewrite Hother.
    + intros p lab [[= -> ->]|Hin]%elem_of_cons Hn.
      * destruct (Hnone Hn) as (c & Hc & Hm). exists c. split; [done |].
        by rewrite Hrest.
      * assert (p ≠ path) as Hne.
        { intros ->. apply Hpath. apply list_elem_of_fmap. by exists (path, lab). }
        destruct (Hnew p lab Hin) as (c & Hc & Hm); [by rewrite Hother |].
        exists c. split; [| done]. by rewrite <- (color_for_twister lab w w1).
    + rewrite fmap_cons. intros p [Hp Hl]%not_elem_of_cons.
      rewrite Hrest by done. by apply Hother.
Qed.

Lemma image_paths_NoDup : NoDup image_items.*1.
Proof. apply (bool_decide_unpack _). by vm_compute. Qed.

Lemma image_items_folders :
  Forall (λ item : string * string,
            ∃ d, dirname item.1 = Some d ∧ d ∈ media_folders) image_items.
Proof.
  unfold image_items, media_folders.
  repeat (apply Forall_cons; split;
          [eexists; split; [reflexivity | by apply (bool_decide_unpack _)] |]).
  apply Forall_nil_2.
Qed.

Lemma image_items_in_folders m :
  (∀ d, d ∈ media_folders → m !! d = Some Directory) →
  Forall (λ item : string * string, in_folder m item.1) image_items.
Proof.
  intros H. eapply Forall_impl; [apply image_items_folders |].
  intros item (d & Hd & Hin). exists d. split; [done | by apply H].
Qed.

(** X6. When the eight folders are directories, [_create_images]
    returns and leaves the database alone. With Pillow, every file that
    was there keeps its content, each of the 27 pictures that was
    missing is written with 900 by 600 pixels, the label of its entry
    and the colour of that label, and no other path is touched. Without
    Pillow it does nothing. *)
Theorem X6_create_images_writes_missing_pictures (w : World) :
  (∀ d, d ∈ media_folders → media w !! d = Some Directory) →
  ∃ w', _create_images w = (Ok tt, w')
    ∧ db w' = db w
    ∧ media w ⊆ media w'
    ∧ if pillow w
      then (∀ path label, (path, label) ∈ image_items → media w !! path = None →
              ∃ c, (_color_for label w).1 = Ok c
                   ∧ media w' !! path = Some (Jpeg 900 600 c label))
           ∧ (∀ p, p ∉ image_items.*1 → media w' !! p = media w !! p)
      else w' = w.
Proof.
  intros Hfolders. unfold _create_images. destruct (pillow w).
  - destruct (create_images_post image_items w image_paths_NoDup
                (image_items_in_folders _ Hfolders))
      as (w' & ? & ? & _ & ? & ? & ?).
    by exists w'.
  - by exists w.
Qed.

Lemma X6_create_images_writes_missing_pictures_witness :
  ∃ w', _create_images (_ensure_media_dirs fresh_world).2 = (Ok tt, w')
    ∧ db w' = db (_ensure_media_dirs fresh_world).2
    ∧ media (_ensure_media_dirs fresh_world).2 ⊆ media w'
    ∧ if pillow (_ensure_media_dirs fresh_world).2
      then (∀ path label, (path, label) ∈ image_items →
              media (_ensure_media_dirs fresh_world).2 !! path = None →
              ∃ c, (_color_for label (_ensure_media_dirs fresh_world).2).1 = Ok c
                   ∧ media w' !! path = Some (Jpeg 900 600 c label))
           ∧ (∀ p, p ∉ image_items.*1 →
                media w' !! p = media (_ensure_media_dirs fresh_world).2 !! p)
      else w' = (_ensure_media_dirs fresh_world).2.
Proof.
  apply (X6_create_images_writes_missing_pictures (_ensure_media_dirs fresh_world).2).
  intros d Hd. unfold media_folders in Hd.
  repeat (apply elem_of_cons in Hd as [->|Hd]; [by vm_compute |]).
  by apply elem_of_nil in Hd.
Defined.

(** Without the folders nothing can be saved: the first picture that is
    missing raises. *)
Lemma create_images_without_folders :
  (_create_images fresh_world).1 = Raise FileNotFoundError
  ∧ (_create_images (set_media {["categories" := Jpeg 1 1 (0, 0, 0) "x"]} fresh_world)).1
    = Raise NotADirectoryError.
Proof. by vm_compute. Qed.

(** X7. With Pillow and the folders free, the 27 pictures are on the
    disk after the command, also when it has raised and the database
    has been rolled back. *)
Theorem X7_pictures_survive_rollback (reset : bool) (w : World) :
  pillow w = true →
  (∀ d, d ∈ media_folders → media w !! d = None ∨ media w !! d = Some Directory) →
  ∀ item, item ∈ image_items → is_Some (media (handle reset w).2 !! item.1).
Proof.
  intros Hpil Hfolders item Hitem. unfold handle, atomic, atomic_block.
  rewrite (run_bind (if reset then _reset_data else ret tt)).
  destruct (reset_run reset w) as [d0 ->].
  rewrite (run_bind _ensure_media_dirs).
  destruct (mkdirs_run media_folders (set_db d0 w) Hfolders)
    as (w1 & Hrun1 & _ & Hpil1 & _ & _ & Hdirs & _).
  unfold _ensure_media_dirs at 1. fold media_folders. rewrite Hrun1.
  rewrite (run_bind _create_images). unfold _create_images at 1.
  rewrite Hpil1. cbn [pillow set_db]. rewrite Hpil.
  destruct (create_images_post image_items w1 image_paths_NoDup
              (image_items_in_folders _ Hdirs))
    as (w2 & Hrun2 & _ & _ & _ & _ & _).
  rewrite Hrun2.
  assert (is_Some (media w2 !! item.1)) as [f Hf].
  { apply create_images_run in Hrun2 as (_ & _ & _ & Hall).
    by apply (proj1 (Forall_forall _ _) Hall). }
  match goal with
  | |- context [(?m ≫= ?k) w2] =>
      assert (respects files_kept (m ≫= k)) as Hrest;
        [| specialize (Hrest w2); destruct ((m ≫= k) w2) as [[[]|e] w3] ]
  end.
  - unfold _create_users, _get_or_create_user, _create_profile, _create_regions,
      _create_categories, _create_artisans, _create_sellers, _create_products,
      _create_seller_products, _create_stories, _create_story_posts,
      _create_gallery, _create_orders, order_item, _create_product_activity,
      _create_newsletters.
    repeat files_step.
  - exists f. cbn [snd] in *. by eapply lookup_weaken.
  - exists f. cbn [snd media set_db] in *. by eapply lookup_weaken.
Qed.

Lemma X7_pictures_survive_rollback_witness :
  is_Some (media (handle false doubled_world).2 !! "gallery/loom.jpg").
Proof.
  apply (X7_pictures_survive_rollback false doubled_world eq_refl
           (λ d _, or_introl (lookup_empty d)) ("gallery/loom.jpg", "Loom")).
  apply list_elem_of_In. unfold image_items. simpl. do 20 right. by left.
Defined.

(** The run on that database raises, and rolls the database back. *)
Lemma doubled_world_run_fails :
  (handle false doubled_world).1 = Raise MultipleObjectsReturned
  ∧ db (handle false doubled_world).2 = db doubled_world
  ∧ size (media (handle false doubled_world).2) = 35%nat.
Proof. by vm_compute. Qed.

(** ** Users *)

(** X8. What [_get_or_create_user] returns is the row that the table
    holds under the user name afterwards, and it has a usable password.
    A user that was there with a usable password is returned as it is
    and nothing is written; a user that was there with an unusable
    password gets the given password; a user that was not there is
    created with the given e-mail address and password. *)
Theorem X8_get_or_create_user_sets_password_once
    (username email password : string) (w w' : World) (u : User.t) :
  _get_or_create_user username email password w = (Ok u, w') →
  select User_objects (λ x, eqb_of (User.username x) username) (db w') = [u]
  ∧ User.has_usable_password u = true
  ∧ (∀ u0, select User_objects (λ x, eqb_of (User.username x) username) (db w) = [u0] →
       if User.has_usable_password u0 then u = u0 ∧ w' = w
       else u = User.set_password password u0)
  ∧ (select User_objects (λ x, eqb_of (User.username x) username) (db w) = [] →
       User.email u = email ∧ User.password u = User.make_password password).
Proof.
  unfold _get_or_create_user. intros Hrun.
  apply bind_Ok_inv in Hrun as ([user created] & w1 & Hgoc & Hif).
  pose proof Hgoc as Hgoc'.
  apply (get_or_create_run _ _ repassworded) in Hgoc as (Hsel & _ & Hnew); [| done].
  assert (∀ u0, select User_objects (λ x, eqb_of (User.username x) username) (db w) = [u0] →
            user = u0 ∧ created = false ∧ w1 = w) as Hfound.
  { intros u0 Hu0. rewrite (get_or_create_found _ _ _ _ _ _ Hu0) in Hgoc'.
    by injection Hgoc' as <- <- <-. }
  assert (select User_objects (λ x, eqb_of (User.username x) username) (db w) = [] →
            created = true) as Hmissing.
  { intros Hnone. unfold get_or_create in Hgoc'. rewrite (run_bind get_db) in Hgoc'.
    simpl in Hgoc'. rewrite Hnone in Hgoc'. rewrite run_bind in Hgoc'.
    destruct (create _ _ _) as [[?|?] ?]; [| done]. by injection Hgoc' as _ <- _. }
  destruct (created || negb (User.has_usable_password user)) eqn:Hcond.
  - apply bind_Ok_inv in Hif as ([] & w2 & Hsave & [= <- <-]).
    apply save_fields_run in Hsave as (_ & Hd & _ & _).
    split_and!.
    + rewrite Hd. by apply (select_put_map _ _ repassworded).
    + done.
    + intros u0 Hu0. destruct (Hfound u0 Hu0) as (-> & -> & ->).
      simpl in Hcond. apply negb_true_iff in Hcond. by rewrite Hcond.
    + intros Hnone. destruct (Hnew (Hmissing Hnone)) as (i & t & ->). done.
  - injection Hif as <- <-. apply orb_false_iff in Hcond as [-> Hus].
    apply negb_false_iff in Hus. split_and!; [done | done | |].
    + intros u0 Hu0. destruct (Hfound u0 Hu0) as (-> & _ & ->). by rewrite Hus.
    + intros Hnone. by specialize (Hmissing Hnone).
Qed.

Lemma new_pk_fresh {Row} (mgr : Manager Row) w r :
  r ∈ rows mgr (db w) → (pk_of mgr r < new_pk mgr w)%nat.
Proof.
  intros Hr. unfold new_pk.
  assert (pk_of mgr r ≤ list_max (map (pk_of mgr) (rows mgr (db w))))%nat; [| lia].
  pose proof (proj1 (list_max_le (map (pk_of mgr) (rows mgr (db w))) _) (le_n _)) as H.
  rewrite List.Forall_forall in H. apply H, in_map. by apply list_elem_of_In.
Qed.

Lemma create_run_pk {Row} (mgr : Manager Row) mk w r w' :
  create mgr mk w = (Ok r, w') →
  ∃ t, r = mk (new_pk mgr w) t
    ∧ db w' = put mgr (rows mgr (db w) ++ [r]) (db w).
Proof.
  unfold create. rewrite (run_bind now). simpl. unfold insert. simpl.
  destruct (existsb _ _); [done |]. intros [= <- <-]. by eexists.
Qed.

Lemma get_or_create_user_keeps_others username email password w u w' i0 r0 :
  _get_or_create_user username email password w = (Ok u, w') →
  users_at i0 (db w) = [r0] → User.username r0 ≠ username →
  users_at i0 (db w') = [r0].
Proof.
  unfold _get_or_create_user, users_at. intros Hrun Hat Hname.
  assert (r0 ∈ users (db w) ∧ User.id r0 = i0) as [Hr0 Hid0].
  { assert (r0 ∈ List.filter (λ x, Nat.eqb (User.id x) i0) (users (db w))) as Hin
      by (rewrite Hat; apply list_elem_of_here).
    apply list_elem_of_In, filter_In in Hin as [Hin Heq].
    split; [by apply list_elem_of_In | by apply Nat.eqb_eq]. }
  apply bind_Ok_inv in Hrun as ([user created] & w1 & Hgoc & Hif).
  assert (List.filter (λ x, Nat.eqb (User.id x) i0) (users (db w1)) = [r0]) as Hat1.
  { unfold get_or_create in Hgoc. rewrite (run_bind get_db) in Hgoc. simpl in Hgoc.
    destruct (select User_objects _ (db w)) as [|x [|y l]]; [| | done].
    - rewrite run_bind in Hgoc.
      destruct (create User_objects _ w) as [[r|e] w2] eqn:Hc; [| done].
      injection Hgoc as <- <- <-.
      apply create_run_pk in Hc as (t & -> & ->). cbn -[new_pk Nat.eqb].
      rewrite List.filter_app, Hat. cbn -[new_pk Nat.eqb].
      pose proof (new_pk_fresh User_objects w r0 Hr0) as Hfresh.
      cbn -[new_pk] in Hfresh.
      destruct (Nat.eqb_spec (new_pk User_objects w) i0) as [Heq|_]; [lia | done].
    - by injection Hgoc as <- <- <-. }
  assert (select User_objects (λ x, eqb_of (User.username x) username) (db w1) = [user])
    as Hsel.
  { by apply (get_or_create_run _ _ repassworded) in Hgoc as (Hsel & _). }
  destruct (created || negb (User.has_usable_password user)); [| by injection Hif as <- <-].
  apply bind_Ok_inv in Hif as ([] & w2 & Hsave & [= <- <-]).
  apply save_fields_run in Hsave as (_ & -> & _ & _). simpl.
  rewrite filter_map_comm.
  - rewrite Hat1. simpl.
    destruct (Nat.eqb_spec (User.id r0) (User.id user)) as [Heq|_]; [| done].
    exfalso. apply Hname.
    assert (user ∈ [r0]) as ->%list_elem_of_singleton.
    { rewrite <- Hat1. apply list_elem_of_In, filter_In. split.
      - assert (user ∈ select User_objects
                         (λ x, eqb_of (User.username x) username) (db w1)) as Hin
          by (rewrite Hsel; apply list_elem_of_here).
        by apply list_elem_of_In, filter_In in Hin as [Hin _].
      - apply Nat.eqb_eq. congruence. }
    assert (r0 ∈ select User_objects
                   (λ x, eqb_of (User.username x) username) (db w1)) as Hin
      by (rewrite Hsel; apply list_elem_of_here).
    apply list_elem_of_In, filter_In in Hin as [_ Heqb].
    by apply bool_decide_eq_true in Heqb.
  - intros x. cbv beta.
    match goal with |- context [if ?b then _ else _] => by destruct b end.
Qed.

Lemma create_profile_keeps_users user user_type phone city w :
  users (db (_create_profile user user_type phone city w).2) = users (db w).
Proof.
  unfold _create_profile. rewrite run_bind.
  unfold get_or_create. rewrite (run_bind get_db). simpl.
  destruct (select _ _ _) as [|x [|y l]]; [| done..].
  rewrite run_bind. unfold create. rewrite (run_bind now). simpl.
  unfold insert. simpl. by destruct (existsb _ _).
Qed.

(** X9. On a database without a user named admin, [_create_users]
    creates the administrator with [is_staff] and [is_superuser] and an
    empty password, and never sets its password: an empty password
    counts as usable, so the guard before [set_password("Admin123!")]
    is false. The row is in the table at the end of the stage, the only
    one with its key. *)
Theorem X9_new_admin_keeps_empty_password (w w' : World) (users : gmap string User.t) :
  select User_objects (λ x, eqb_of (User.username x) "admin") (db w) = [] →
  _create_users w = (Ok users, w') →
  ∃ admin, users !! "admin" = Some admin
    ∧ users_at (User.id admin) (db w') = [admin]
    ∧ User.password admin = ""
    ∧ User.is_staff admin = true ∧ User.is_superuser admin = true.
Proof.
  intros Hnone Hrun. unfold _create_users in Hrun.
  apply bind_Ok_inv in Hrun as ([] & w0 & [= <-] & Hrun).
  apply bind_Ok_inv in Hrun as ([admin created] & w1 & Hgoc & Hrun).
  assert (∃ t, admin = User.Build (new_pk User_objects w) "admin" "admin@kala.local"
                         "" true true true t
             ∧ users_at (User.id admin) (db w1) = [admin]) as (t & Hadmin & Hat).
  { unfold get_or_create in Hgoc. rewrite (run_bind get_db) in Hgoc.
    simpl in Hgoc. rewrite Hnone in Hgoc. rewrite run_bind in Hgoc.
    destruct (create User_objects _ _) as [[r|e] w2] eqn:Hc; [| done].
    injection Hgoc as <- <- <-.
    apply create_run_pk in Hc as (t & -> & ->). exists t. split; [done |].
    unfold users_at. cbn -[new_pk Nat.eqb]. rewrite List.filter_app.
    cbn -[new_pk Nat.eqb].
    rewrite Nat.eqb_refl. rewrite filter_none; [done |].
    intros x Hx. apply Nat.eqb_neq.
    pose proof (new_pk_fresh User_objects (set_trace (trace w ++ [SUsers]) w) x Hx)
      as Hfresh.
    cbn -[new_pk] in Hfresh. lia. }
  assert (negb (User.has_usable_password admin) = false) as Hus by (by rewrite Hadmin).
  cbv beta iota in Hrun. rewrite Hus in Hrun.
  apply bind_Ok_inv in Hrun as (admin' & w1' & [= <- <-] & Hrun).
  apply bind_Ok_inv in Hrun as (b1 & w2 & H1 & Hrun).
  apply bind_Ok_inv in Hrun as (b2 & w3 & H2 & Hrun).
  apply bind_Ok_inv in Hrun as (s1 & w4 & H3 & Hrun).
  apply bind_Ok_inv in Hrun as (s2 & w5 & H4 & Hrun).
  apply bind_Ok_inv in Hrun as (s3 & w6 & H5 & Hrun).
  assert (User.username admin = "admin") as Hname by (by rewrite Hadmin).
  eapply get_or_create_user_keeps_others in H1; [| exact Hat | by rewrite Hname].
  eapply get_or_create_user_keeps_others in H2; [| exact H1 | by rewrite Hname].
  eapply get_or_create_user_keeps_others in H3; [| exact H2 | by rewrite Hname].
  eapply get_or_create_user_keeps_others in H4; [| exact H3 | by rewrite Hname].
  eapply get_or_create_user_keeps_others in H5; [| exact H4 | by rewrite Hname].
  cbv zeta in Hrun.
  apply bind_Ok_inv in Hrun as ([] & w7 & P1 & Hrun).
  apply bind_Ok_inv in Hrun as ([] & w8 & P2 & Hrun).
  apply bind_Ok_inv in Hrun as ([] & w9 & P3 & Hrun).
  apply bind_Ok_inv in Hrun as ([] & w10 & P4 & Hrun).
  apply bind_Ok_inv in Hrun as ([] & w11 & P5 & [= <- <-]).
  exists admin. split_and!.
  - by rewrite !lookup_insert_ne, lookup_insert_eq by done.
  - unfold users_at in *.
    rewrite <- H5.
    pose proof (create_profile_keeps_users b1 "buyer" "+91-9876543210" "Jaipur" w6) as Q1.
    rewrite P1 in Q1.
    pose proof (create_profile_keeps_users b2 "buyer" "+91-9898989898" "Ahmedabad" w7) as Q2.
    rewrite P2 in Q2.
    pose proof (create_profile_keeps_users s1 "seller" "+91-9000000001" "Jaipur" w8) as Q3.
    rewrite P3 in Q3.
    pose proof (create_profile_keeps_users s2 "seller" "+91-9000000002" "Kolkata" w9) as Q4.
    rewrite P4 in Q4.
    pose proof (create_profile_keeps_users s3 "seller" "+91-9000000003" "Chennai" w10) as Q5.
    rewrite P5 in Q5.
    simpl in *. congruence.
  - by rewrite Hadmin.
  - by rewrite Hadmin.
  - by rewrite Hadmin.
Qed.

Lemma X8_get_or_create_user_sets_password_once_witness :
  User.has_usable_password seeded_neha = true.
Proof.
  apply (X8_get_or_create_user_sets_password_once "neha" "neha@kala.local" "Kala123!"
           fresh_world
           (_get_or_create_user "neha" "neha@kala.local" "Kala123!" fresh_world).2
           seeded_neha).
  by vm_compute.
Defined.

Lemma X9_new_admin_keeps_empty_password_witness :
  ∃ admin, seeded_users !! "admin" = Some admin
    ∧ users_at (User.id admin) (db (_create_users fresh_world).2) = [admin]
    ∧ User.password admin = ""
    ∧ User.is_staff admin = true ∧ User.is_superuser admin = true.
Proof.
  apply (X9_new_admin_keeps_empty_password fresh_world (_create_users fresh_world).2
           seeded_users).
  - reflexivity.
  - by vm_compute.
Defined.

(** ** The rows that [_create_product_activity] adds *)

Lemma random_choice_run {A} (l : list A) w a w' :
  random_choice l w = (Ok a, w') → a ∈ l ∧ db w' = db w.
Proof.
  unfold random_choice. rewrite run_bind. simpl.
  destruct (l !! _) as [x|] eqn:Hx; [| done]. intros [= <- <-].
  split; [| done]. by eapply list_elem_of_lookup_2.
Qed.

Lemma set_set_product_activities l1 l2 d :
  set_product_activities l2 (set_product_activities l1 d) = set_product_activities l2 d.
Proof. reflexivity. Qed.

Lemma forM_appends {A} (P : A → ProductActivity.t → Prop) (n : nat)
    (l : list A) (f : A → M unit) w w' :
  (∀ x w w', x ∈ l → f x w = (Ok tt, w') →
     ∃ new, db w' = set_product_activities (product_activities (db w) ++ new) (db w)
            ∧ length new = n ∧ Forall (P x) new) →
  forM_ l f w = (Ok tt, w') →
  ∃ new, db w' = set_product_activities (product_activities (db w) ++ new) (db w)
         ∧ length new = (length l * n)%nat
         ∧ Forall (λ a, ∃ x, x ∈ l ∧ P x a) new.
Proof.
  revert w. induction l as [|x l IH]; intros w Hf; simpl.
  - intros [= <-]. exists []. rewrite app_nil_r. split_and!; [by destruct (db w) | done..].
  - intros Hrun. apply bind_Ok_inv in Hrun as ([] & w1 & Hx & Hl).
    destruct (Hf x w w1) as (new1 & Hd1 & Hn1 & HP1); [by left | done |].
    destruct (IH w1) as (new2 & Hd2 & Hn2 & HP2); [| done |].
    { intros y v v' Hy. apply Hf. by right. }
    exists (new1 ++ new2)%list. split_and!.
    + rewrite Hd2, Hd1. simpl. by rewrite <- app_assoc.
    + rewrite length_app. lia.
    + apply Forall_app. split.
      * eapply Forall_impl; [exact HP1 |]. intros a Ha. exists x. split; [by left | done].
      * eapply Forall_impl; [exact HP2 |]. intros a (y & Hy & Ha).
        exists y. split; [by right | done].
Qed.

(** X10. [_create_product_activity], when it returns, has added three
    rows of [ProductActivity] for each product, after the rows that were
    there, and changed nothing else. Each new row is of a product of
    the list and of that product's seller, its kind is one of view,
    click, add_cart and purchase (never review), its user is one of the
    two buyers, and its details are the fixed pair of entries. *)
Theorem X10_three_activity_rows_per_product
    (sellers : list Seller.t) (products : list Product.t)
    (users : gmap string User.t) (w w' : World) :
  _create_product_activity sellers products users w = (Ok tt, w') →
  ∃ buyer1 buyer2 new,
    users !! "buyer1" = Some buyer1 ∧ users !! "buyer2" = Some buyer2
    ∧ db w' = set_product_activities (product_activities (db w) ++ new) (db w)
    ∧ length new = (length products * 3)%nat
    ∧ Forall (λ a,
        (∃ p, p ∈ products ∧ ProductActivity.product a = Product.id p
              ∧ Product.seller p = Some (ProductActivity.seller a))
        ∧ ProductActivity.activity_type a ∈ seeded_activity_types
        ∧ (ProductActivity.user a = Some (User.id buyer1)
           ∨ ProductActivity.user a = Some (User.id buyer2))
        ∧ ProductActivity.details a = [("source", "seed"); ("ref", "homepage")]) new.
Proof.
  unfold _create_product_activity. intros Hrun.
  apply bind_Ok_inv in Hrun as ([] & w0 & [= <-] & Hrun).
  apply bind_Ok_inv in Hrun as (buyer1 & w1 & Hb1 & Hrun).
  apply bind_Ok_inv in Hrun as (buyer2 & w2 & Hb2 & Hrun).
  unfold getitem in Hb1, Hb2.
  destruct (users !! "buyer1") as [b1|] eqn:Hu1; [| done]. injection Hb1 as -> <-.
  destruct (users !! "buyer2") as [b2|] eqn:Hu2; [| done]. injection Hb2 as -> <-.
  exists buyer1, buyer2. cbv zeta in Hrun.
  eapply (forM_appends
            (λ p a, (ProductActivity.product a = Product.id p
                     ∧ Product.seller p = Some (ProductActivity.seller a))
                    ∧ ProductActivity.activity_type a ∈ seeded_activity_types
                    ∧ (ProductActivity.user a = Some (User.id buyer1)
                       ∨ ProductActivity.user a = Some (User.id buyer2))
                    ∧ ProductActivity.details a = [("source", "seed"); ("ref", "homepage")])
            3) in Hrun.
  - destruct Hrun as (new & Hd & Hn & HP). exists new. split_and!; try done.
    eapply Forall_impl; [exact HP |]. intros a (p & Hp & (Ha1 & Ha2) & Ha3 & Ha4 & Ha5).
    split_and!; try done. by exists p.
  - clear. intros p v v' _ Hp.
    eapply (forM_appends (λ _ a, _) 1) in Hp.
    + destruct Hp as (new & Hd & Hn & HP). exists new. split_and!; [done | done |].
      eapply Forall_impl; [exact HP |]. intros a (_ & _ & Ha). exact Ha.
    + clear. intros _ v v' _ Hrun.
      apply bind_Ok_inv in Hrun as (ty & v1 & Hty & Hrun).
      apply bind_Ok_inv in Hrun as (u & v2 & Hu & Hrun).
      apply bind_Ok_inv in Hrun as (t0 & v3 & [= <- <-] & Hrun).
      apply random_choice_run in Hty as [Hty Hd1].
      apply random_choice_run in Hu as [Hu Hd2].
      destruct (Product.seller p) as [s|] eqn:Hs; [| done].
      apply bind_Ok_inv in Hrun as (a & v4 & Hc & [= <-]).
      apply create_run_pk in Hc as (t & -> & ->).
      eexists [_]. simpl. rewrite Hd2, Hd1. split_and!; [done | done |].
      constructor; [| done]. simpl. split_and!; try done.
      apply elem_of_cons in Hu as [->|Hu]; [by left |].
      apply list_elem_of_singleton in Hu as ->. by right.
Qed.

Lemma X10_three_activity_rows_per_product_witness :
  ∃ buyer1 buyer2 new,
    two_buyers !! "buyer1" = Some buyer1 ∧ two_buyers !! "buyer2" = Some buyer2
    ∧ db (_create_product_activity [] [lamp] two_buyers staffed_world).2
      = set_product_activities (product_activities (db staffed_world) ++ new)
          (db staffed_world)
    ∧ length new = (length [lamp] * 3)%nat
    ∧ Forall (λ a,
        (∃ p, p ∈ [lamp] ∧ ProductActivity.product a = Product.id p
              ∧ Product.seller p = Some (ProductActivity.seller a))
        ∧ ProductActivity.activity_type a ∈ seeded_activity_types
        ∧ (ProductActivity.user a = Some (User.id buyer1)
           ∨ ProductActivity.user a = Some (User.id buyer2))
        ∧ ProductActivity.details a = [("source", "seed"); ("ref", "homepage")]) new.
Proof.
  apply (X10_three_activity_rows_per_product [] [lamp] two_buyers staffed_world).
  by vm_compute.
Defined.

(** ** The totals of the sellers *)

Lemma totals_loop (l : list Seller.t) (done : list pk) w w' :
  forM_ l (λ seller,
    d ← get_db;
    let total_products :=
      Z.of_nat (length (select Product_objects
                  (λ p, eqb_of (Product.seller p) (Some (Seller.id seller))) d)) in
    n ← random_randint 50 200;
    save_fields Seller_objects (Seller.id seller)
                (Seller.with_totals total_products (n * 10000))) w = (Ok tt, w') →
  (∀ s, s ∈ sellers (db w) → Seller.id s ∈ done → totals_set (db w) s) →
  products (db w') = products (db w)
  ∧ (∀ s, s ∈ sellers (db w') →
       Seller.id s ∈ done ∨ Seller.id s ∈ map Seller.id l → totals_set (db w') s).
Proof.
  revert done w. induction l as [|x l IH]; intros done w; simpl.
  - intros [= <-] H. split; [done |]. intros s Hs [Hd|Hd]; [by apply H |].
    by apply elem_of_nil in Hd.
  - intros Hrun H. apply bind_Ok_inv in Hrun as ([] & w1 & Hx & Hl).
    apply bind_Ok_inv in Hx as (d & w0 & [= <- <-] & Hx). cbv zeta in Hx.
    apply bind_Ok_inv in Hx as (n & w0' & Hn & Hsave).
    assert (50 ≤ n ≤ 200 ∧ db w0' = db w) as [Hrange Hd0].
    { unfold random_randint in Hn. rewrite run_bind in Hn. simpl in Hn.
      injection Hn as <- <-. split; [by apply randint_range | done]. }
    apply save_fields_run in Hsave as (_ & Hd1 & _ & _). rewrite Hd0 in Hd1.
    destruct (IH (Seller.id x :: done) w1 Hl) as [Hprod Hgood].
    { intros s Hs Hin. rewrite Hd1 in Hs. simpl in Hs.
      apply list_elem_of_In, in_map_iff in Hs as (r & Hr & Hin').
      apply list_elem_of_In in Hin'.
      assert (products_of (Seller.id s) (db w1) = products_of (Seller.id s) (db w)) as Hcnt
        by (by rewrite Hd1).
      unfold totals_set. rewrite Hcnt.
      destruct (Nat.eqb_spec (Seller.id r) (Seller.id x)) as [Heq|Hne].
      - subst s. simpl. rewrite <- Heq. split; [done |]. by exists n.
      - subst s. apply H; [done |].
        apply elem_of_cons in Hin as [Heq|Hin]; [done | done]. }
    split.
    + rewrite Hprod, Hd1. done.
    + intros s Hs Hin. apply Hgood; [done |].
      destruct Hin as [Hin|Hin]; [left; by right |].
      apply elem_of_cons in Hin as [->|Hin]; [left; by left | by right].
Qed.

(** X11. When [_create_products] returns, every row of [Seller] that has
    the key of one of the sellers passed to it carries the number of the
    products that name this seller, counted in the table as it is then,
    and sales of a whole number of hundreds between 5000.00 and
    20000.00. *)
Theorem X11_create_products_sets_totals
    (categories : list Category.t) (regions : list Region.t)
    (artisans : list Artisan.t) (sellers_in : list Seller.t)
    (products_out : list Product.t) (w w' : World) :
  _create_products categories regions artisans sellers_in w = (Ok products_out, w') →
  ∀ s, s ∈ sellers (db w') →
       Seller.id s ∈ map Seller.id sellers_in → totals_set (db w') s.
Proof.
  unfold _create_products. intros Hrun.
  do 17 (apply bind_Ok_inv in Hrun as (? & ? & _ & Hrun)).
  apply bind_Ok_inv in Hrun as ([] & w1 & Hloop & [= <- <-]).
  apply (totals_loop sellers_in []) in Hloop as [_ Hgood].
  - intros s Hs Hin. apply Hgood; [done | by right].
  - by intros s _ ?%elem_of_nil.
Qed.

Lemma X11_create_products_sets_totals_witness :
  ∃ s, head (sellers (db products_again.2)) = Some s
       ∧ totals_set (db products_again.2) s.
Proof.
  eexists. split; [by vm_compute |].
  apply (X11_create_products_sets_totals
           (categories (db seeded_world)) (regions (db seeded_world))
           (artisans (db seeded_world)) (sellers (db seeded_world))
           (match products_again.1 with Ok l => l | Raise _ => [] end)
           seeded_world).
  - by vm_compute.
  - apply list_elem_of_In. vm_compute. by left.
  - apply list_elem_of_In. vm_compute. by left.
Defined.

(** ** Slugs and one-to-one fields *)

Lemma NoDup_map_update {A B} (f : A → B) (g : A → A) l :
  (∀ x, f (g x) = f x) → NoDup (map f l) → NoDup (map f (map g l)).
Proof.
  intros H. rewrite map_map. erewrite map_ext; [done |]. intros x. symmetry. apply H.
Qed.

Ltac same_field :=
  intros ?; simpl;
  repeat match goal with |- context [if ?b then _ else _] => destruct b end;
  reflexivity.

Ltac NoDup_tac :=
  repeat first
    [ assumption
    | apply NoDup_map_filter
    | apply NoDup_map_update; [same_field |]
    | by apply NoDup_map_snoc ].

Ltac catalog_db_tac :=
  unfold preserving, catalog_uniques; simpl;
  first
    [ done
    | intros (? & ? & ? & ? & ? & ? & ?); split_and!; NoDup_tac ].

Ltac catalog_tac := on_tac catalog_db_tac.

Lemma seed_keeps_catalog_uniques reset :
  respects (on_db (preserving catalog_uniques)) (handle reset).
Proof. destruct reset; respects_walk catalog_tac. Qed.

Lemma perform_keeps_catalog_uniques op w :
  catalog_uniques (db w) → catalog_uniques (db (step op w)).
Proof.
  unfold step. destruct op as [reset e| | | |m ids| |].
  - apply (respects_db_on _ _ (seed_keeps_catalog_uniques reset)
             (set_rng (BuildRng e 0) w)).
  - revert w. apply (respects_db_on (preserving catalog_uniques)).
    unfold perform. repeat respects_step catalog_tac.
  - revert w. apply (respects_db_on (preserving catalog_uniques)).
    unfold perform. repeat respects_step catalog_tac.
  - revert w. apply (respects_db_on (preserving catalog_uniques)).
    unfold perform. repeat respects_step catalog_tac.
  - change (preserving catalog_uniques (db w) (delete_of m ids (db w))).
    destruct m; catalog_db_tac.
  - change (preserving catalog_uniques (db w)
              (db (perform (ChangeProductPrice i price) w).2)).
    catalog_db_tac.
  - change (preserving catalog_uniques (db w)
              (db (perform (ChangeOrderItem i form) w).2)).
    catalog_db_tac.
Qed.

(** X12. In every state that the operations lead to from an empty
    database, no two categories, regions, artisans, products or cultural
    stories have the same slug, no two profiles belong to the same user
    and no two sellers to the same user. *)
Theorem X12_slugs_and_owners_unique (w : World) :
  reachable w → catalog_uniques (db w).
Proof.
  induction 1 as [w Hw | op w _ IH].
  - rewrite Hw. unfold catalog_uniques. simpl. split_and!; apply NoDup_nil_2.
  - by apply perform_keeps_catalog_uniques.
Qed.

Lemma X12_slugs_and_owners_unique_witness :
  catalog_uniques (db (step (SeedData false demo_entropy) fresh_world)).
Proof.
  apply (X12_slugs_and_owners_unique (step (SeedData false demo_entropy) fresh_world)).
  apply reachable_step, reachable_empty. reflexivity.
Defined.

(** ** Runs that cannot return *)

Lemma blocked_bind_l {A B} P (m : M A) (k : A → M B) :
  blocked P m → blocked P (m ≫= k).
Proof.
  intros Hm w HP b w' Hrun. apply bind_Ok_inv in Hrun as (a & w1 & Hrun & _).
  by eapply Hm.
Qed.

Lemma blocked_bind_r {A B} P Q (m : M A) (k : A → M B) :
  returns P m Q → (∀ a, blocked (Q a) (k a)) → blocked P (m ≫= k).
Proof.
  intros Hm Hk w HP b w' Hrun. apply bind_Ok_inv in Hrun as (a & w1 & Hrun & Hrun').
  eapply Hk; [| exact Hrun']. by eapply Hm.
Qed.

Lemma returns_preserving P {A} (m : M A) :
  respects (on_db (preserving P)) m → returns P m (λ _, P).
Proof.
  intros H w a w' HP Hrun. pose proof (respects_db_on _ _ H w) as Hw.
  rewrite Hrun in Hw. by apply Hw.
Qed.

Lemma blocked_atomic P (m : M unit) w :
  blocked P m → P (db w) →
  ∃ e, (atomic m w).1 = Raise e ∧ db (atomic m w).2 = db w.
Proof.
  intros Hm HP. unfold atomic. destruct (m w) as [[[]|e] w'] eqn:Hrun.
  - by destruct (Hm w HP tt w').
  - by exists e.
Qed.

Ltac preserved_tac :=
  on_tac ltac:(unfold preserving; simpl; done).

(** [blocked_walk] goes through the stages that leave [P] as it is. *)
Ltac blocked_step :=
  lazymatch goal with
  | |- blocked ?P (_ ≫= _) =>
      eapply (blocked_bind_r P (λ _, P));
        [ apply returns_preserving; respects_walk preserved_tac | intros ? ]
  end.

Lemma create_gallery_blocked artisans products regions :
  blocked (gallery_title_twice "Loom in Motion")
    (_create_gallery artisans products regions).
Proof.
  intros w HP [] w' Hrun. unfold _create_gallery in Hrun.
  do 6 (apply bind_Ok_inv in Hrun as (? & ? & Hpre & Hrun);
        first [ injection Hpre as <- <-
              | unfold index in Hpre; destruct (_ !! _); [| done];
                injection Hpre as <- <- ]).
  cbn [forM_] in Hrun. apply bind_Ok_inv in Hrun as ([] & w1 & Hfirst & _).
  apply bind_Ok_inv in Hfirst as (rc & w2 & Hgoc & _).
  unfold get_or_create in Hgoc. rewrite (run_bind get_db) in Hgoc.
  unfold gallery_title_twice in HP. cbn [get_db fst snd db set_trace] in Hgoc.
  destruct (select GalleryImage_objects _ _) as [|x [|y l]] eqn:Hsel; simpl in HP;
    [lia | lia | done].
Qed.

(** X13. [GalleryImage.title] is not unique, and the seeder looks the
    images up by title: once two images have the title of the first
    seeded image, every run without [--reset] raises and leaves the
    database as it was. *)
Theorem X13_two_images_with_a_seeded_title (w : World) :
  gallery_title_twice "Loom in Motion" (db w) →
  ∃ e, (handle false w).1 = Raise e ∧ db (handle false w).2 = db w.
Proof.
  intros HP. apply (blocked_atomic (gallery_title_twice "Loom in Motion")); [| done].
  unfold atomic_block. do 12 blocked_step.
  apply blocked_bind_l, create_gallery_blocked.
Qed.

Lemma X13_two_images_with_a_seeded_title_witness :
  ∃ e, (handle false doubled_world).1 = Raise e
       ∧ db (handle false doubled_world).2 = db doubled_world.
Proof.
  apply (X13_two_images_with_a_seeded_title doubled_world).
  unfold gallery_title_twice. vm_compute. lia.
Defined.

Lemma create_products_returns_orphan categories regions artisans sellers :
  returns (orphan_product "blue-pottery-vase")
    (_create_products categories regions artisans sellers)
    (λ products _, ∃ p rest, products = p :: rest ∧ Product.seller p = None).
Proof.
  intros w products w' (p & Hsel & Hnone) Hrun. unfold _create_products in Hrun.
  do 16 (apply bind_Ok_inv in Hrun as (? & ? & Hpre & Hrun);
         first [ injection Hpre as <- <-
               | unfold index in Hpre; destruct (_ !! _); [| done];
                 injection Hpre as <- <- ]).
  apply bind_Ok_inv in Hrun as (l & w1 & Hmap & Hrun).
  apply bind_Ok_inv in Hrun as ([] & w2 & _ & [= <- <-]).
  cbn [mapM] in Hmap.
  apply bind_Ok_inv in Hmap as (b & v1 & Hfirst & Hmap).
  apply bind_Ok_inv in Hmap as (bs & v2 & _ & [= <- <-]).
  exists b, bs. split; [done |].
  cbv beta iota zeta in Hfirst.
  apply bind_Ok_inv in Hfirst as (rating & u1 & [= <- <-] & Hfirst).
  apply bind_Ok_inv in Hfirst as (reviews & u2 & [= <- <-] & Hfirst).
  apply bind_Ok_inv in Hfirst as ([b' c] & u3 & Hgoc & [= <- <-]).
  rewrite (get_or_create_found Product_objects Product.slug _ _ _ p) in Hgoc.
  - by injection Hgoc as <- <- <-.
  - exact Hsel.
Qed.

Lemma create_seller_products_blocked sellers products :
  (∃ p rest, products = p :: rest ∧ Product.seller p = None) →
  blocked (λ _, True) (_create_seller_products sellers products).
Proof.
  intros (p & rest & -> & Hnone) w _ [] w' Hrun. unfold _create_seller_products in Hrun.
  apply bind_Ok_inv in Hrun as ([] & w0 & _ & Hrun).
  cbn [forM_] in Hrun. apply bind_Ok_inv in Hrun as ([] & w1 & Hfirst & _).
  apply bind_Ok_inv in Hfirst as (n & w2 & _ & Hfirst).
  by rewrite Hnone in Hfirst.
Qed.

(** X14. A product that has lost its seller stops the seeder: when the
    product with the slug of the first seeded product is in the table
    without a seller (as it is after its seller has been deleted), every
    run without [--reset] raises and leaves the database as it was. *)
Theorem X14_product_without_seller (w : World) :
  orphan_product "blue-pottery-vase" (db w) →
  ∃ e, (handle false w).1 = Raise e ∧ db (handle false w).2 = db w.
Proof.
  intros HP. apply (blocked_atomic (orphan_product "blue-pottery-vase")); [| done].
  unfold atomic_block. do 8 blocked_step.
  eapply blocked_bind_r; [apply create_products_returns_orphan |].
  intros products w1 Horphan b w2 Hrun.
  apply bind_Ok_inv in Hrun as ([] & w3 & Hlist & _).
  by eapply (create_seller_products_blocked _ _ Horphan w1 I).
Qed.

Lemma X14_product_without_seller_witness :
  ∃ e, (handle false unsold_world).1 = Raise e
       ∧ db (handle false unsold_world).2 = db unsold_world.
Proof.
  apply (X14_product_without_seller unsold_world).
  unfold orphan_product. vm_compute. eexists. split; reflexivity.
Defined.

(** The seeded products stay when their sellers are deleted, and the
    next run fails on the first of them. *)
Lemma reseeding_after_sellers_are_deleted :
  length (products (db unsold_world)) = 6%nat
  ∧ sellers (db unsold_world) = []
  ∧ (handle false unsold_world).1 = Raise IntegrityError.
Proof. by vm_compute. Qed.

(** ** A run after a run with [--reset] *)

Lemma atomic_block_reset w :
  atomic_block true w = atomic_block false (set_db (reset_db (db w)) w).
Proof.
  unfold atomic_block.
  rewrite (run_bind (if true then _reset_data else ret tt)).
  rewrite (run_bind (if false then _reset_data else ret tt)).
  cbv iota. rewrite reset_data_run.
  generalize (set_db (reset_db (db w)) w). intros v. reflexivity.
Qed.

Lemma handle_Ok_inv reset w w1 :
  handle reset w = (Ok tt, w1) → atomic_block reset w = (Ok tt, w1).
Proof.
  unfold handle, atomic. by destruct (atomic_block reset w) as [[[]|e] w'].
Qed.

Lemma run_again v0 w1 w :
  atomic_block false v0 = (Ok tt, w1) →
  db w = db w1 → media w = media w1 → pillow w = pillow w1 →
  ∃ w2, handle false w = (Ok tt, w2) ∧ calm 18 (db w1) (db w2).
Proof.
  intros Hblock Hd Hm Hp.
  destruct (replays_atomic_block _ tt w1 Hblock) as [_ Hagain].
  destruct (Hagain w) as ([] & w2 & Hrun2 & _ & Hcalm & _).
  { by apply settled_same. }
  exists w2. split.
  - unfold handle, atomic. by rewrite Hrun2.
  - by rewrite <- Hd.
Qed.

(** X15. What holds of a second run holds after a run with [--reset]
    too: a run without [--reset] on the database and files that a
    [--reset] run has left returns, adds eighteen rows of
    [ProductActivity], writes the totals of the sellers again and
    changes nothing else. *)
Theorem X15_plain_run_after_reset_run (w0 w1 w : World) :
  handle true w0 = (Ok tt, w1) →
  db w = db w1 → media w = media w1 → pillow w = pillow w1 →
  ∃ w2, handle false w = (Ok tt, w2) ∧ calm 18 (db w1) (db w2).
Proof.
  intros Hrun Hd Hm Hp. apply handle_Ok_inv in Hrun.
  rewrite atomic_block_reset in Hrun. by eapply run_again.
Qed.

Lemma X15_plain_run_after_reset_run_witness :
  ∃ w2, handle false (handle true staffed_world).2 = (Ok tt, w2)
        ∧ calm 18 (db (handle true staffed_world).2) (db w2).
Proof.
  apply (X15_plain_run_after_reset_run staffed_world (handle true staffed_world).2
           (handle true staffed_world).2);
    [by vm_compute | reflexivity..].
Defined.

(** ** Deleting a user *)

Lemma mem_true_iff i ids : mem i ids = true ↔ i ∈ ids.
Proof.
  unfold mem. rewrite existsb_exists. split.
  - intros (x & Hx & ->%Nat.eqb_eq). by apply list_elem_of_In.
  - intros H. exists i. split; [by apply list_elem_of_In | apply Nat.eqb_refl].
Qed.

Lemma filter_negb_mem {A} (f : A → pk) ids l a :
  a ∈ List.filter (λ r, negb (mem (f r) ids)) l → a ∈ l ∧ f a ∉ ids.
Proof.
  rewrite list_elem_of_In, filter_In, <- list_elem_of_In. intros [Hin H].
  split; [done |]. intros Hmem%mem_true_iff. by rewrite Hmem in H.
Qed.

Lemma pks_where_elem {Row} (mgr : Manager Row) sel d r :
  r ∈ rows mgr d → sel r = true → pk_of mgr r ∈ pks_where mgr sel d.
Proof.
  intros Hr Hsel. unfold pks_where, select.
  apply list_elem_of_In, in_map, filter_In. split; [by apply list_elem_of_In | done].
Qed.

(** X16. After the deletion of a user no row refers to the user, to a
    shop of the user or to an order of the user: the profile, the
    shops with their listings and their activity log, the story posts,
    the orders with their items and the favourites are gone, and the
    activity of the user in other shops has no user any more. The
    products stay, those of the user's shops without seller. *)
Theorem X16_deleting_a_user (d : DB) (u : pk) :
  let d' := delete_users [u] d in
  (∀ x, x ∈ users d' → User.id x ≠ u)
  ∧ (∀ x, x ∈ user_profiles d' → UserProfile.user x ≠ u)
  ∧ (∀ x, x ∈ sellers d' → Seller.user x ≠ u)
  ∧ (∀ x, x ∈ story_posts d' → StoryPost.user x ≠ u)
  ∧ (∀ x, x ∈ orders d' → Order.user x ≠ u)
  ∧ (∀ x, x ∈ favorites d' → Favorite.user x ≠ u)
  ∧ (∀ x, x ∈ product_activities d' → ProductActivity.user x ≠ Some u)
  ∧ (∀ shop, shop ∈ sellers d → Seller.user shop = u →
       (∀ x, x ∈ seller_products d' → SellerProduct.seller x ≠ Seller.id shop)
       ∧ (∀ x, x ∈ product_activities d' → ProductActivity.seller x ≠ Seller.id shop)
       ∧ (∀ x, x ∈ products d' → Product.seller x ≠ Some (Seller.id shop)))
  ∧ (∀ order, order ∈ orders d → Order.user order = u →
       ∀ x, x ∈ order_items d' → OrderItem.order x ≠ Order.id order)
  ∧ Forall2 (λ p p', (∃ c r a s, p' = Product.with_fks c r a s p)
                     ∧ Product.category p' = Product.category p
                     ∧ Product.region p' = Product.region p
                     ∧ Product.artisan p' = Product.artisan p
                     ∧ (Product.seller p' = Product.seller p
                        ∨ Product.seller p' = None))
      (products d) (products d').
Proof.
  cbv zeta. unfold delete_users, delete_sellers, delete_orders.
  set (shops := pks_where Seller_objects _ _).
  set (gone := pks_where Order_objects _ _).
  cbn -[mem omem]. split_and!.
  - intros x [_ Hx]%filter_negb_mem Heq. apply Hx. rewrite Heq. by left.
  - intros x [_ Hx]%filter_negb_mem Heq. apply Hx. rewrite Heq. by left.
  - intros x [Hin Hx]%filter_negb_mem Hu. apply Hx.
    apply (pks_where_elem Seller_objects); [done |].
    apply mem_true_iff. rewrite Hu. by left.
  - intros x [_ Hx]%filter_negb_mem Heq. apply Hx. rewrite Heq. by left.
  - intros x [Hin Hx]%filter_negb_mem Hu. apply Hx.
    apply (pks_where_elem Order_objects); [done |].
    apply mem_true_iff. rewrite Hu. by left.
  - intros x [_ Hx]%filter_negb_mem Heq. apply Hx. rewrite Heq. by left.
  - intros x Hx Hu. apply list_elem_of_In, in_map_iff in Hx as (a & <- & _).
    destruct (omem (ProductActivity.user a) [u]) eqn:Ha; [done |].
    simpl in Hu. rewrite Hu in Ha. simpl in Ha. unfold mem in Ha. simpl in Ha.
    by rewrite Nat.eqb_refl in Ha.
  - intros shop Hshop Hu.
    assert (Seller.id shop ∈ shops) as Hin.
    { apply (pks_where_elem Seller_objects); [done |].
      apply mem_true_iff. rewrite Hu. by left. }
    split_and!.
    + intros x [_ Hx]%filter_negb_mem Heq. apply Hx. by rewrite Heq.
    + intros x Hx Heq. apply list_elem_of_In, in_map_iff in Hx as (a & <- & Ha).
      apply list_elem_of_In, filter_negb_mem in Ha as [_ Ha]. apply Ha.
      destruct (omem _ _); simpl in Heq; rewrite Heq; exact Hin.
    + intros x Hx Heq. apply list_elem_of_In, in_map_iff in Hx as (a & <- & _).
      destruct (omem (Product.seller a) (map _ _)) eqn:Ha; [done |].
      rewrite Heq in Ha. apply mem_true_iff in Hin.
      change (mem (Seller.id shop) shops = false) in Ha. by rewrite Hin in Ha.
  - intros order Horder Hu x [_ Hx]%filter_negb_mem Heq. apply Hx. rewrite Heq.
    apply (pks_where_elem Order_objects); [done |].
    apply mem_true_iff. rewrite Hu. by left.
  - apply Forall2_map_self. intros p.
    destruct (omem (Product.seller p) _); simpl.
    + split_and!; try done; [eauto | by right].
    + split_and!; try done; [| by left].
      eexists _, _, _, _. symmetry. apply with_fks_same.
Qed.

(** ** A run with [--reset] *)

Lemma reset_db_superusers d :
  NoDup (map User.id (users d)) → favorites_have_products d →
  reset_db d = set_users (List.filter User.is_superuser (users d)) empty_db.
Proof.
  intros Hnd Hfav.
  pose (w := BuildWorld d ∅ (BuildRng (λ _, 0) 0) (λ _ _, 0) false 0 0 []).
  destruct (reset_data_leaves_superusers w Hnd Hfav) as [_ H].
  rewrite reset_data_run in H. cbn [snd] in H. by rewrite db_set_db in H.
Qed.

Lemma users_at_elem i d r : users_at i d = [r] → r ∈ users d ∧ User.id r = i.
Proof.
  intros Hat.
  assert (r ∈ users_at i d) as Hin by (rewrite Hat; apply list_elem_of_here).
  apply list_elem_of_In, filter_In in Hin as [Hin Heq].
  split; [by apply list_elem_of_In | by apply Nat.eqb_eq].
Qed.

Lemma users_at_only i d r x : users_at i d = [r] → x ∈ users d → User.id x = i → x = r.
Proof.
  intros Hat Hx Hid.
  assert (x ∈ users_at i d) as Hin.
  { apply list_elem_of_In, filter_In. split; [by apply list_elem_of_In |].
    by apply Nat.eqb_eq. }
  rewrite Hat in Hin. by apply list_elem_of_singleton in Hin.
Qed.

Lemma users_at_NoDup l u :
  NoDup (map User.id l) → u ∈ l →
  List.filter (λ x, Nat.eqb (User.id x) (User.id u)) l = [u].
Proof.
  intros Hnd Hu. rewrite <- (filter_key_unique User.id l u Hnd Hu).
  apply filter_ext. intros x. unfold eqb_of.
  destruct (Nat.eqb_spec (User.id x) (User.id u)) as [Heq|Hne].
  - by rewrite bool_decide_eq_true_2.
  - by rewrite bool_decide_eq_false_2.
Qed.

(** The lookup of a user, or the row that it creates, leaves the other
    rows of the table as they are. *)
Lemma get_or_create_keeps_user name mk w user created w1 i0 r0 :
  (∀ i t, User.id (mk i t) = i) → (∀ i t, User.username (mk i t) = name) →
  get_or_create User_objects User.username name mk w = (Ok (user, created), w1) →
  users_at i0 (db w) = [r0] →
  users_at i0 (db w1) = [r0]
  ∧ User.username user = name
  ∧ (User.id user = i0 → user = r0 ∧ created = false).
Proof.
  intros Hmk Hmkn Hgoc Hat. pose proof (users_at_elem _ _ _ Hat) as [Hr0 Hid0].
  assert (User.username user = name) as Hname.
  { apply (get_or_create_run _ _ repassworded) in Hgoc as (Hsel & _).
    - assert (user ∈ select User_objects (λ x, eqb_of (User.username x) name) (db w1))
        as Hin by (rewrite Hsel; apply list_elem_of_here).
      apply list_elem_of_In, filter_In in Hin as [_ Heqb].
      by apply bool_decide_eq_true in Heqb.
    - done. }
  unfold get_or_create in Hgoc. rewrite (run_bind get_db) in Hgoc. simpl in Hgoc.
  destruct (select User_objects _ (db w)) as [|x [|y l]] eqn:Hsel; [| | done].
  - rewrite run_bind in Hgoc.
    destruct (create User_objects _ w) as [[r|e] w2] eqn:Hc; [| done].
    injection Hgoc as <- <- <-.
    apply create_run_pk in Hc as (t & -> & ->).
    pose proof (new_pk_fresh User_objects w r0 Hr0) as Hfresh.
    cbn -[new_pk] in Hfresh. split_and!; [| done |].
    + unfold users_at in *. cbn -[new_pk Nat.eqb].
      rewrite List.filter_app, Hat. cbn -[new_pk Nat.eqb]. rewrite Hmk.
      destruct (Nat.eqb_spec (new_pk User_objects w) i0) as [Heq|_]; [lia | done].
    + rewrite Hmk. lia.
  - injection Hgoc as <- <- <-. split_and!; [done | done |].
    intros Hid. split; [| done]. eapply users_at_only; [done | | done].
    assert (x ∈ select User_objects (λ x, eqb_of (User.username x) name) (db w))
      as Hin by (rewrite Hsel; apply list_elem_of_here).
    by apply list_elem_of_In, filter_In in Hin as [Hin%list_elem_of_In _].
Qed.

Lemma save_password_keeps_user i pw w w2 i0 r0 :
  save_fields User_objects i (User.with_password pw) w = (Ok tt, w2) →
  users_at i0 (db w) = [r0] → i ≠ i0 →
  users_at i0 (db w2) = [r0].
Proof.
  intros Hsave Hat Hne. apply save_fields_run in Hsave as (_ & -> & _ & _).
  unfold users_at in *. cbn -[Nat.eqb]. rewrite filter_map_comm.
  - rewrite Hat. cbn -[Nat.eqb].
    pose proof (users_at_elem _ _ _ Hat) as [_ Hid].
    destruct (Nat.eqb_spec (User.id r0) i) as [Heq|_]; [congruence | done].
  - intros x. cbv beta.
    match goal with |- context [if ?b then _ else _] => by destruct b end.
Qed.

(** A row with a usable password, or with another user name, is not
    written when the seeder looks a user up and sets a password. *)
Lemma user_then_keeps {B} name mk (cond : User.t → bool → bool) pw
    (k : User.t → M B) w b w' i0 r0 :
  (∀ i t, User.id (mk i t) = i) → (∀ i t, User.username (mk i t) = name) →
  (∀ u, cond u false = true → User.has_usable_password u = false) →
  (∀ u w w', k u w = (Ok b, w') → users_at i0 (db w) = [r0] →
             users_at i0 (db w') = [r0]) →
  ('(user, created) ← get_or_create User_objects User.username name mk;
   user ← (if cond user created
           then let user := User.set_password pw user in
                save_fields User_objects (User.id user)
                            (User.with_password (User.password user));;
                ret user
           else ret user);
   k user) w = (Ok b, w') →
  users_at i0 (db w) = [r0] →
  User.has_usable_password r0 = true ∨ User.username r0 ≠ name →
  users_at i0 (db w') = [r0].
Proof.
  intros Hmk Hmkn Hcond Hk Hrun Hat Hr0.
  apply bind_Ok_inv in Hrun as ([user created] & w1 & Hgoc & Hrun).
  apply get_or_create_keeps_user with (i0 := i0) (r0 := r0) in Hgoc
    as (Hat1 & Hname & Hsame); [| done..].
  apply bind_Ok_inv in Hrun as (user' & w2 & Hif & Hrun).
  eapply Hk; [exact Hrun |].
  destruct (cond user created) eqn:Hc; [| by injection Hif as <- <-].
  apply bind_Ok_inv in Hif as ([] & w3 & Hsave & [= <- <-]).
  eapply save_password_keeps_user; [exact Hsave | done |].
  cbn. intros Hid. destruct (Hsame Hid) as [-> ->].
  apply Hcond in Hc. destruct Hr0 as [Hus|Hne]; congruence.
Qed.

Lemma get_or_create_user_keeps username email password w u w' i0 r0 :
  _get_or_create_user username email password w = (Ok u, w') →
  users_at i0 (db w) = [r0] →
  User.has_usable_password r0 = true ∨ User.username r0 ≠ username →
  users_at i0 (db w') = [r0].
Proof.
  intros Hrun. eapply (user_then_keeps username
                         (λ i t, User.Build i username email "" false false true t)
                         (λ u c, c || negb (User.has_usable_password u)) password ret
                         w u w' i0 r0).
  - done.
  - done.
  - intros x Hx. by apply negb_true_iff in Hx.
  - by intros x v v' [= _ <-].
  - revert Hrun. unfold _get_or_create_user. intros Hrun.
    apply bind_Ok_inv in Hrun as ([user created] & w1 & Hgoc & Hrun).
    rewrite run_bind, Hgoc. cbv beta iota. rewrite run_bind.
    destruct (created || negb (User.has_usable_password user)).
    + apply bind_Ok_inv in Hrun as ([] & w2 & Hsave & [= <- <-]).
      rewrite run_bind, Hsave. reflexivity.
    + injection Hrun as <- <-. reflexivity.
Qed.

Lemma create_profile_keeps_user user user_type phone city w x w' i0 r0 :
  _create_profile user user_type phone city w = (Ok x, w') →
  users_at i0 (db w) = [r0] → users_at i0 (db w') = [r0].
Proof.
  intros Hrun Hat. unfold users_at.
  pose proof (create_profile_keeps_users user user_type phone city w) as H.
  rewrite Hrun in H. cbn [snd] in H. by rewrite H.
Qed.

Lemma not_elem_of_seeded name r0 :
  name ∈ seeded_usernames →
  User.has_usable_password r0 = true ∨ User.username r0 ∉ seeded_usernames →
  User.has_usable_password r0 = true ∨ User.username r0 ≠ name.
Proof.
  intros Hn [?|Hr]; [by left | right]. intros Heq. apply Hr. by rewrite Heq.
Qed.

Lemma create_users_keeps w users w' i0 r0 :
  _create_users w = (Ok users, w') →
  users_at i0 (db w) = [r0] →
  User.has_usable_password r0 = true ∨ User.username r0 ∉ seeded_usernames →
  users_at i0 (db w') = [r0].
Proof.
  unfold _create_users. intros Hrun Hat Hr0.
  apply bind_Ok_inv in Hrun as ([] & w0 & [= <-] & Hrun).
  revert Hrun.
  change (users_at i0 (db w)) with (users_at i0 (db (set_trace (trace w ++ [SUsers]) w)))
    in Hat.
  revert Hat. generalize (set_trace (trace w ++ [SUsers]) w). clear w. intros w Hat Hrun.
  eapply (user_then_keeps "admin"
            (λ i t, User.Build i "admin" "admin@kala.local" "" true true true t)
            (λ u _, negb (User.has_usable_password u))
            "Admin123!" _ w users w' i0 r0); [done | done | | | exact Hrun | done |].
  - intros x Hx. by apply negb_true_iff in Hx.
  - intros admin v v' Hk Hv. cbv beta in Hk.
    repeat match type of Hk with
    | (_get_or_create_user ?n _ _ ≫= _) _ = _ =>
        let u := fresh "u" in let v1 := fresh "v" in let Hu := fresh "Hu" in
        apply bind_Ok_inv in Hk as (u & v1 & Hu & Hk);
        apply get_or_create_user_keeps with (i0 := i0) (r0 := r0) in Hu;
          [ clear Hv; rename Hu into Hv
          | exact Hv
          | apply not_elem_of_seeded;
              [unfold seeded_usernames; by apply (bool_decide_unpack _) | done] ]
    end.
    cbv zeta in Hk.
    repeat match type of Hk with
    | (_create_profile _ _ _ _ ≫= _) _ = _ =>
        let x := fresh "x" in let v1 := fresh "v" in let Hp := fresh "Hp" in
        apply bind_Ok_inv in Hk as (x & v1 & Hp & Hk);
        apply create_profile_keeps_user with (i0 := i0) (r0 := r0) in Hp;
          [clear Hv; rename Hp into Hv | exact Hv]
    end.
    injection Hk as _ <-. exact Hv.
  - apply not_elem_of_seeded; [| done].
    unfold seeded_usernames. by apply (bool_decide_unpack _).
Qed.

(** A row with an unusable password under the user name that is looked
    up gets the password. *)
Lemma user_then_sets name mk (cond : User.t → bool → bool) pw w u w' i0 r0 :
  (∀ i t, User.id (mk i t) = i) → (∀ i t, User.username (mk i t) = name) →
  (∀ u, User.has_usable_password u = false → cond u false = true) →
  ('(user, created) ← get_or_create User_objects User.username name mk;
   user ← (if cond user created
           then let user := User.set_password pw user in
                save_fields User_objects (User.id user)
                            (User.with_password (User.password user));;
                ret user
           else ret user);
   ret user) w = (Ok u, w') →
  users_at i0 (db w) = [r0] →
  User.username r0 = name → User.has_usable_password r0 = false →
  users_at i0 (db w') = [User.set_password pw r0].
Proof.
  intros Hmk Hmkn Hcond Hrun Hat Hname Hus.
  apply bind_Ok_inv in Hrun as ([user created] & w1 & Hgoc & Hrun).
  pose proof Hgoc as Hgoc'.
  apply get_or_create_keeps_user with (i0 := i0) (r0 := r0) in Hgoc
    as (Hat1 & _ & Hsame); [| done..].
  apply (get_or_create_run _ _ repassworded) in Hgoc' as (Hsel & _); [| done].
  pose proof (users_at_elem _ _ _ Hat1) as [Hr0 Hid0].
  assert (r0 = user) as <-.
  { assert (r0 ∈ select User_objects (λ x, eqb_of (User.username x) name) (db w1))
      as Hin.
    { apply list_elem_of_In, filter_In. split; [by apply list_elem_of_In |].
      by apply bool_decide_eq_true. }
    rewrite Hsel in Hin. by apply list_elem_of_singleton in Hin. }
  destruct (Hsame Hid0) as [_ ->].
  apply bind_Ok_inv in Hrun as (user' & w2 & Hif & [= <- <-]).
  rewrite (Hcond _ Hus) in Hif.
  apply bind_Ok_inv in Hif as ([] & w3 & Hsave & [= <- <-]).
  apply save_fields_run in Hsave as (_ & -> & _ & _).
  unfold users_at in *. cbn -[Nat.eqb]. rewrite filter_map_comm.
  - rewrite Hat1. cbn -[Nat.eqb]. by rewrite Hid0, Nat.eqb_refl.
  - intros x. cbv beta.
    match goal with |- context [if ?b then _ else _] => by destruct b end.
Qed.

Lemma get_or_create_user_sets username email password w u w' i0 r0 :
  _get_or_create_user username email password w = (Ok u, w') →
  users_at i0 (db w) = [r0] →
  User.username r0 = username → User.has_usable_password r0 = false →
  users_at i0 (db w') = [User.set_password password r0].
Proof.
  intros Hrun. eapply (user_then_sets username
                         (λ i t, User.Build i username email "" false false true t)
                         (λ u c, c || negb (User.has_usable_password u)) password
                         w u w' i0 r0).
  - done.
  - done.
  - intros x Hx. by rewrite Hx.
  - revert Hrun. unfold _get_or_create_user. intros Hrun.
    apply bind_Ok_inv in Hrun as ([user created] & w1 & Hgoc & Hrun).
    rewrite run_bind, Hgoc. cbv beta iota. rewrite run_bind.
    destruct (created || negb (User.has_usable_password user)).
    + apply bind_Ok_inv in Hrun as ([] & w2 & Hsave & [= <- <-]).
      rewrite run_bind, Hsave. reflexivity.
    + injection Hrun as <- <-. reflexivity.
Qed.

(** The row of a superuser through the steps of [_create_users]: it
    gets the password at the step that looks its name up, when its
    password is unusable, and is left alone by the other steps. *)
Ltac user_walk Hk Hv i0 r0 Hname :=
  repeat match type of Hk with
  | (_get_or_create_user ?n _ _ ≫= _) _ = _ =>
      let u := fresh "u" in let v1 := fresh "v" in let Hu := fresh "Hu" in
      apply bind_Ok_inv in Hk as (u & v1 & Hu & Hk);
      first
        [ apply get_or_create_user_sets with (i0 := i0) (r0 := r0) in Hu;
            [ clear Hv; rename Hu into Hv
            | exact Hv
            | rewrite Hname; reflexivity
            | assumption ]
        | eapply get_or_create_user_keeps with (i0 := i0) in Hu;
            [ clear Hv; rename Hu into Hv
            | exact Hv
            | first [ left; reflexivity
                    | right; rewrite Hname; discriminate ] ] ]
  | (_create_profile _ _ _ _ ≫= _) _ = _ =>
      let x := fresh "x" in let v1 := fresh "v" in let Hp := fresh "Hp" in
      apply bind_Ok_inv in Hk as (x & v1 & Hp & Hk);
      eapply create_profile_keeps_user with (i0 := i0) in Hp;
        [clear Hv; rename Hp into Hv | exact Hv]
  end.

Lemma create_users_sets w users w' i0 r0 :
  _create_users w = (Ok users, w') →
  users_at i0 (db w) = [r0] →
  User.has_usable_password r0 = false → User.username r0 ∈ seeded_usernames →
  users_at i0 (db w')
  = [User.set_password (seeded_password (User.username r0)) r0].
Proof.
  unfold _create_users. intros Hrun Hat Hus Hin.
  apply bind_Ok_inv in Hrun as ([] & w0 & [= <-] & Hrun).
  change (users_at i0 (db w)) with (users_at i0 (db (set_trace (trace w ++ [SUsers]) w)))
    in Hat.
  revert Hat Hrun. generalize (set_trace (trace w ++ [SUsers]) w). clear w.
  intros w Hv Hrun.
  apply bind_Ok_inv in Hrun as ([admin0 c] & w1 & Hgoc & Hk).
  apply bind_Ok_inv in Hk as (admin & w2 & Hif & Hk).
  assert (('(user, created) ← get_or_create User_objects User.username "admin"
               (λ i t, User.Build i "admin" "admin@kala.local" "" true true true t);
           user ← (if negb (User.has_usable_password user)
                   then let user := User.set_password "Admin123!" user in
                        save_fields User_objects (User.id user)
                          (User.with_password (User.password user));;
                        ret user
                   else ret user);
           ret user) w = (Ok admin, w2)) as Hadmin.
  { rewrite run_bind, Hgoc. cbv beta iota. rewrite run_bind.
    by destruct (_ w1) as [[?|?] ?]; [injection Hif as -> -> | ]. }
  clear Hgoc Hif. unfold seeded_usernames in Hin.
  repeat (apply elem_of_cons in Hin as [Hname|Hin]);
    [ .. | by apply elem_of_nil in Hin ]; rewrite Hname;
    cbv [seeded_password eqb_of]; cbn [bool_decide decide_rel]; 
    first
      [ apply (user_then_sets "admin" _ (λ u _, negb (User.has_usable_password u))
                 "Admin123!" w admin w2 i0 r0) in Hadmin;
          [ | done | done | by intros x -> | exact Hv | exact Hname | exact Hus ]
      | apply (user_then_keeps "admin"
                 (λ i t, User.Build i "admin" "admin@kala.local" "" true true true t)
                 (λ u _, negb (User.has_usable_password u))
                 "Admin123!" ret w admin w2 i0 r0) in Hadmin;
          [ | done | done | intros x Hx; by apply negb_true_iff in Hx
            | by intros x v v' [= _ <-] | exact Hv
            | right; rewrite Hname; discriminate ] ];
    clear Hv; rename Hadmin into Hv;
    user_walk Hk Hv i0 r0 Hname; cbv zeta in Hk; user_walk Hk Hv i0 r0 Hname;
    injection Hk as _ <-; exact Hv.
Qed.

Lemma atomic_block_user (r1 : User.t) w w' i0 r0 :
  (∀ v users v', _create_users v = (Ok users, v') →
     users_at i0 (db v) = [r0] → users_at i0 (db v') = [r1]) →
  atomic_block false w = (Ok tt, w') →
  users_at i0 (db w) = [r0] →
  users_at i0 (db w') = [r1].
Proof.
  unfold atomic_block. intros Hstage Hrun Hat.
  apply bind_Ok_inv in Hrun as ([] & w0 & [= <-] & Hrun).
  apply bind_Ok_inv in Hrun as ([] & w1 & Hdirs & Hrun).
  apply bind_Ok_inv in Hrun as ([] & w2 & Himg & Hrun).
  apply bind_Ok_inv in Hrun as (users & w3 & Husers & Hrun).
  assert (db w1 = db w) as Hd1.
  { assert (respects (on_db eq) _ensure_media_dirs) as H
      by respects_walk ltac:(on_tac ltac:(reflexivity)).
    pose proof (respects_db_on _ _ H w) as Hd. by rewrite Hdirs in Hd. }
  assert (db w2 = db w1) as Hd2.
  { assert (respects (on_db eq) _create_images) as H
      by respects_walk ltac:(on_tac ltac:(reflexivity)).
    pose proof (respects_db_on _ _ H w1) as Hd. by rewrite Himg in Hd. }
  rewrite <- Hd1, <- Hd2 in Hat.
  apply Hstage in Husers; [| done].
  match type of Hrun with
  | ?m w3 = _ =>
      assert (respects (on_db (untouched User_objects)) m) as H
        by respects_walk untouched_tac;
      pose proof (respects_db_on _ _ H w3) as Hd
  end.
  rewrite Hrun in Hd. unfold untouched in Hd. cbn [snd rows User_objects] in Hd.
  unfold users_at. by rewrite Hd.
Qed.

(** C10 (as amended). Under the schema invariants that user primary
    keys are distinct and every favourite refers to a product: a run
    with [--reset] that raises leaves the database as it was; a run that
    returns has done what a run without [--reset] does on the database
    that holds the superusers of before and nothing else. Every
    superuser of before is still in the table, in place, changed in its
    password at most; a superuser with a usable password, or with a
    name that the seeder does not look up, is unchanged; a superuser
    with an unusable password and a name that the seeder looks up has
    the password that the seeder sets for that name. *)
Theorem C10_reset_keeps_superusers (w : World) :
  NoDup (map User.id (users (db w))) →
  favorites_have_products (db w) →
  (∀ e, (handle true w).1 = Raise e → db (handle true w).2 = db w)
  ∧ (∀ w', handle true w = (Ok tt, w') →
       handle false
         (set_db (set_users (List.filter User.is_superuser (users (db w))) empty_db) w)
       = (Ok tt, w')
       ∧ (∃ old new, users (db w') = (old ++ new)%list
                     ∧ Forall2 repassworded
                         (List.filter User.is_superuser (users (db w))) old)
       ∧ (∀ u, u ∈ users (db w) → User.is_superuser u = true →
            User.has_usable_password u = true
            ∨ User.username u ∉ seeded_usernames →
            u ∈ users (db w'))
       ∧ (∀ u, u ∈ users (db w) → User.is_superuser u = true →
            User.has_usable_password u = false →
            User.username u ∈ seeded_usernames →
            User.set_password (seeded_password (User.username u)) u
              ∈ users (db w'))).
Proof.
  intros Hnd Hfav. split.
  { intros e. unfold handle, atomic.
    by destruct (atomic_block true w) as [[[]|e'] w1]. }
  intros w' Hrun. apply handle_Ok_inv in Hrun.
  rewrite atomic_block_reset, (reset_db_superusers _ Hnd Hfav) in Hrun.
  set (v := set_db _ w) in *.
  assert (handle false v = (Ok tt, w')) as Hplain
    by (unfold handle, atomic; by rewrite Hrun).
  assert (∀ u, u ∈ users (db w) → User.is_superuser u = true →
               users_at (User.id u) (db v) = [u]) as Hat.
  { intros u Hu Hsuper. unfold users_at, v. cbn [db set_db users set_users].
    apply users_at_NoDup.
    - apply NoDup_map_filter. exact Hnd.
    - apply list_elem_of_In, filter_In. split; [by apply list_elem_of_In | done]. }
  split_and!; [done | | |].
  - pose proof (respects_db_on _ _ seed_keeps_users v) as Hkept.
    by rewrite Hplain in Hkept.
  - intros u Hu Hsuper Hr0.
    assert (users_at (User.id u) (db w') = [u]) as Hat'.
    { eapply (atomic_block_user u); [| exact Hrun | by apply Hat].
      intros v0 users v' Hstage Hv0. by eapply create_users_keeps. }
    by apply users_at_elem in Hat' as [Hin _].
  - intros u Hu Hsuper Hus Hname.
    assert (users_at (User.id u) (db w')
            = [User.set_password (seeded_password (User.username u)) u]) as Hat'.
    { eapply (atomic_block_user _); [| exact Hrun | by apply Hat].
      intros v0 users v' Hstage Hv0. by eapply create_users_sets. }
    by apply users_at_elem in Hat' as [Hin _].
Qed.

Lemma C10_reset_keeps_superusers_witness :
  root_user ∈ users (db (handle true staffed_world).2).
Proof.
  destruct (C10_reset_keeps_superusers staffed_world) as [_ Hret].
  - by apply (bool_decide_unpack _).
  - intros f Hf. exists lamp. split; [apply list_elem_of_here |].
    vm_compute in Hf.
    repeat (apply elem_of_cons in Hf as [->|Hf]; [reflexivity |]).
    by apply elem_of_nil in Hf.
  - destruct (Hret (handle true staffed_world).2) as (_ & _ & Hkeep & _);
      [by vm_compute |].
    apply Hkeep; [apply list_elem_of_here | reflexivity | by left].
Defined.

(** C10 (as stated) fails: a run with [--reset] gives the administrator
    whose password is unusable the password of the seeder. *)
Lemma C10_reset_run_sets_password :
  (handle true locked_world).1 = Ok tt
  ∧ locked_admin ∈ users (db locked_world)
  ∧ User.is_superuser locked_admin = true
  ∧ User.password locked_admin = "!locked"
  ∧ (locked_admin ∉ users (db (handle true locked_world).2))
  ∧ users_at 1 (db (handle true locked_world).2)
    = [User.with_password "pbkdf2_sha256$Admin123!" locked_admin].
Proof.
  split_and!; [by vm_compute | apply list_elem_of_here | done | done | | by vm_compute].
  vm_compute. intros H.
  repeat (apply elem_of_cons in H as [H|H]; [discriminate H |]).
  by apply elem_of_nil in H.
Qed.

(** ** What the stages construct *)

Section holds.
Context {Row K : Type} `{EqDecision K} (mgr : Manager Row) (key : Row → K)
  (E : relation Row) `{!Tracked mgr key E}.

Lemma holds_stable r d d' :
  stable d d' → holds mgr key E r d → holds mgr key E r d'.
Proof.
  intros Hs (r' & Hsel & HE).
  destruct (evolves_found mgr key E d d' _ r'
              (tracked_stable (mgr := mgr) _ _ Hs) Hsel) as (r'' & Hsel' & HE').
  exists r''. split; [done | by etrans].
Qed.

Lemma found_stable k d d' :
  stable d d' → found mgr key k d → found mgr key k d'.
Proof.
  intros Hs. apply (evolves_nonempty mgr key E).
  by apply (tracked_stable (mgr := mgr)).
Qed.

Lemma select_key k d r :
  r ∈ select mgr (λ x, eqb_of (key x) k) d → key r = k.
Proof.
  intros Hin. apply list_elem_of_In, filter_In in Hin as [_ Heqb].
  by apply bool_decide_eq_true in Heqb.
Qed.

Lemma select_holds k d r :
  select mgr (λ x, eqb_of (key x) k) d = [r] → key r = k ∧ holds mgr key E r d.
Proof.
  intros Hsel.
  assert (key r = k) as Hk
    by (apply (select_key k d); rewrite Hsel; apply list_elem_of_here).
  split; [done |]. exists r. rewrite Hk. split; [done | reflexivity].
Qed.

Lemma holds_found r d : holds mgr key E r d → found mgr key (key r) d.
Proof. intros (r' & Hsel & _). unfold found. by rewrite Hsel. Qed.

Lemma get_or_create_holds k mk w r c w' :
  (∀ i t, key (mk i t) = k) →
  get_or_create mgr key k mk w = (Ok (r, c), w') →
  settled w w' ∧ key r = k ∧ holds mgr key E r (db w').
Proof.
  intros Hmk Hrun.
  apply (get_or_create_run mgr key E) in Hrun as (Hsel & Hs & _); [| done].
  split; [done |]. by apply select_holds.
Qed.
End holds.

Lemma replays_settled {A} n (E : A → A → Prop) (m m' : M A) w a w' :
  replays n E m m' → m w = (Ok a, w') → settled w w'.
Proof. intros H Hrun. by destruct (H w a w' Hrun). Qed.

Lemma enter_run S w x w' : enter S w = (Ok x, w') → settled w w'.
Proof. apply (replays_settled _ _ _ _ _ _ _ (replays_enter S)). Qed.

Lemma index_run {A} (l : list A) i w a w' :
  index l i w = (Ok a, w') → l !! i = Some a ∧ w' = w.
Proof. unfold index. destruct (l !! i); [| done]. by intros [= <- <-]. Qed.

Lemma getitem_run {A} (d : gmap string A) k w a w' :
  getitem d k w = (Ok a, w') → d !! k = Some a ∧ w' = w.
Proof. unfold getitem. destruct (d !! k); [| done]. by intros [= <- <-]. Qed.

Lemma holds_settled {Row K : Type} `{EqDecision K} (mgr : Manager Row)
    (key : Row → K) (E : relation Row) `{!Tracked mgr key E} r w w' :
  settled w w' → holds mgr key E r (db w) → holds mgr key E r (db w').
Proof. intros (Hs & _). by apply holds_stable. Qed.

Lemma found_settled {Row K : Type} `{EqDecision K} (mgr : Manager Row)
    (key : Row → K) (E : relation Row) `{!Tracked mgr key E} k w w' :
  settled w w' → found mgr key k (db w) → found mgr key k (db w').
Proof. intros (Hs & _). by apply (found_stable mgr key E). Qed.

(** The steps of a stage that has returned, one after the other *)
Ltac stage_step :=
  match goal with
  | H : (_ ≫= _) _ = (Ok _, _) |- _ =>
      let x := fresh "x" in let w1 := fresh "w" in let Hs := fresh "Hstep" in
      apply bind_Ok_inv in H as (x & w1 & Hs & H); cbv beta iota zeta in H
  | H : mapM _ (_ :: _) _ = _ |- _ => cbn [mapM] in H
  | H : mapM _ [] _ = _ |- _ => cbn [mapM] in H
  | H : forM_ (_ :: _) _ _ = _ |- _ => cbn [forM_] in H
  | H : forM_ [] _ _ = _ |- _ => cbn [forM_] in H
  | H : (match ?x with _ => _ end) _ = (Ok _, _) |- _ =>
      destruct x; cbv beta iota zeta in H
  | H : raise _ _ = (Ok _, _) |- _ => discriminate H
  | H : ret _ _ = (Ok _, _) |- _ => first [injection H as <- <- | injection H as <-]
  | H : enter _ _ = (Ok _, _) |- _ => apply enter_run in H
  | H : index _ _ _ = (Ok _, _) |- _ => apply index_run in H as [H ->]
  | H : getitem _ _ _ = (Ok _, _) |- _ => apply getitem_run in H as [H ->]
  | H : random_randint _ _ _ = (Ok _, _) |- _ =>
      apply (replays_settled _ _ _ _ _ _ _ (replays_random_randint _ _)) in H
  | H : random_uniform_round2 _ _ _ = (Ok _, _) |- _ =>
      apply (replays_settled _ _ _ _ _ _ _ (replays_random_uniform _ _)) in H
  | H : get_or_create _ _ _ _ _ = (Ok (_, _), _) |- _ =>
      let Hk := fresh "Hkey" in let Hh := fresh "Hholds" in
      eapply get_or_create_holds in H as (H & Hk & Hh); [| apply _ | done]
  | H : get_or_create _ _ _ _ _ = (Ok ?x, _) |- _ => is_var x; destruct x as [? ?]
  | H : get_db _ = (Ok _, _) |- _ => injection H as <- <-
  end.

Ltac stage_inv := repeat stage_step.

(** What has been found stays found in the processes that follow. *)
Ltac transport :=
  repeat match goal with
  | Hs : settled ?wi ?wj, H : holds _ _ _ _ (db ?wi) |- _ =>
      apply (holds_settled _ _ _ _ _ _ Hs) in H
  | Hs : settled ?wi ?wj, H : found _ _ _ (db ?wi) |- _ =>
      apply (found_settled _ _ _ _ _ _ Hs) in H
  end.

Lemma create_regions_constructs w regions w' o :
  _create_regions w = (Ok regions, w') → o_regions o = regions →
  constructed SRegions o (db w').
Proof.
  unfold _create_regions. intros Hrun Ho. stage_inv. transport.
  simpl. rewrite Ho. repeat (constructor; [by split |]). constructor.
Qed.

Lemma create_categories_constructs w categories w' o :
  _create_categories w = (Ok categories, w') → o_categories o = categories →
  constructed SCategories o (db w').
Proof.
  unfold _create_categories. intros Hrun Ho. stage_inv. transport.
  simpl. rewrite Ho. repeat (constructor; [by split |]). constructor.
Qed.

Lemma create_artisans_constructs regions w artisans w' o :
  _create_artisans regions w = (Ok artisans, w') → o_artisans o = artisans →
  constructed SArtisans o (db w').
Proof.
  unfold _create_artisans. intros Hrun Ho. stage_inv. transport.
  simpl. rewrite Ho. repeat (constructor; [by split |]). constructor.
Qed.

(** *** Users *)

Lemma set_password_step (b : bool) pw t w1 u w2 :
  (if b
   then let user := User.set_password pw t in
        save_fields User_objects (User.id user)
                    (User.with_password (User.password user));;
        ret user
   else ret t) w1 = (Ok u, w2) →
  select User_objects (λ x, eqb_of (User.username x) (User.username t)) (db w1) = [t] →
  settled w1 w2 ∧ User.username u = User.username t
  ∧ holds User_objects User.username repassworded u (db w2).
Proof.
  intros Hrun Hsel. destruct b.
  - cbv zeta in Hrun. apply bind_Ok_inv in Hrun as ([] & w3 & Hsave & [= <- <-]).
    apply save_fields_run in Hsave as (_ & Hd & Hm & Hp).
    split_and!; [| done |].
    + eapply (settled_save_fields User_objects User.username repassworded);
        [exact Hd | done | done | done | done |].
      intros x. split; [by destruct x | done].
    + apply (select_holds User_objects User.username repassworded
               (User.username t)).
      rewrite Hd. by apply (select_put_map _ _ repassworded).
  - injection Hrun as <- <-. split_and!; [reflexivity | done |].
    by apply (select_holds User_objects User.username repassworded) in Hsel as [_ ?].
Qed.

Lemma user_then_holds name mk (b : User.t → bool → bool) pw w u w' :
  (∀ i t, User.username (mk i t) = name) →
  ('(user, created) ← get_or_create User_objects User.username name mk;
   if b user created
   then let user := User.set_password pw user in
        save_fields User_objects (User.id user)
                    (User.with_password (User.password user));;
        ret user
   else ret user) w = (Ok u, w') →
  settled w w' ∧ User.username u = name
  ∧ holds User_objects User.username repassworded u (db w').
Proof.
  intros Hmk Hrun.
  apply bind_Ok_inv in Hrun as ([user created] & w1 & Hgoc & Hrun).
  apply (get_or_create_run _ _ repassworded) in Hgoc as (Hsel & Hs & _); [| done].
  assert (User.username user = name) as Hname.
  { apply (select_key User_objects User.username name (db w1)).
    rewrite Hsel. apply list_elem_of_here. }
  rewrite <- Hname in Hsel.
  apply set_password_step in Hrun as (Hs2 & Hu & Hh); [| exact Hsel].
  split_and!; [by etrans | congruence | done].
Qed.

Lemma get_or_create_user_holds username email password w u w' :
  _get_or_create_user username email password w = (Ok u, w') →
  settled w w' ∧ User.username u = username
  ∧ holds User_objects User.username repassworded u (db w').
Proof.
  unfold _get_or_create_user. intros Hrun.
  by apply (user_then_holds username _
              (λ u c, c || negb (User.has_usable_password u))) in Hrun.
Qed.

Lemma create_profile_found user user_type phone city w x w' :
  _create_profile user user_type phone city w = (Ok x, w') →
  settled w w' ∧ found UserProfile_objects UserProfile.user (User.id user) (db w').
Proof.
  unfold _create_profile. intros Hrun. stage_inv. split; [done |].
  rewrite <- Hkey. by eapply holds_found.
Qed.

Ltac unit_step :=
  match goal with
  | H : _get_or_create_user _ _ _ _ = (Ok _, _) |- _ =>
      let Hn := fresh "Hname" in let Hh := fresh "Hholds" in
      apply get_or_create_user_holds in H as (H & Hn & Hh)
  | H : _create_profile _ _ _ _ _ = (Ok _, _) |- _ =>
      let Hf := fresh "Hfound" in
      apply create_profile_found in H as (H & Hf)
  end.

Ltac stage_inv' := repeat first [unit_step | stage_step].

Lemma create_users_constructs w users w' o :
  _create_users w = (Ok users, w') → o_users o = users →
  constructed SUsers o (db w').
Proof.
  unfold _create_users. intros Hrun Ho.
  apply bind_Ok_inv in Hrun as ([] & w0 & Henter%enter_run & Hrun).
  apply bind_Ok_inv in Hrun as ([admin0 c] & w1 & Hgoc & Hrun).
  apply bind_Ok_inv in Hrun as (admin & w2 & Hif & Hrun).
  assert (settled w0 w2 ∧ User.username admin = "admin"
          ∧ holds User_objects User.username repassworded admin (db w2))
    as (Hadmin & Hname & Hholds).
  { apply (user_then_holds "admin"
             (λ i t, User.Build i "admin" "admin@kala.local" "" true true true t)
             (λ u _, negb (User.has_usable_password u)) "Admin123!"); [done |].
    by rewrite run_bind, Hgoc. }
  clear Hgoc Hif. stage_inv'. transport.
  simpl. rewrite Ho.
  repeat (constructor;
          [eexists; split; [reflexivity |]; split_and!; eauto |]).
  constructor.
Qed.

(** *** Sellers and products *)

Lemma create_sellers_constructs users regions w sellers w' o :
  _create_sellers users regions w = (Ok sellers, w') →
  o_users o = users → o_sellers o = sellers →
  constructed SSellers o (db w').
Proof.
  unfold _create_sellers. intros Hrun Hu Ho. stage_inv. transport.
  simpl. rewrite Hu, Ho.
  repeat (constructor; [eexists; split_and!; eauto |]).
  constructor.
Qed.

Lemma save_totals_settled (sellers : list Seller.t) w x w' :
  forM_ sellers (λ seller,
    d ← get_db;
    let total_products :=
      Z.of_nat (length (select Product_objects
                  (λ p, eqb_of (Product.seller p) (Some (Seller.id seller))) d)) in
    n ← random_randint 50 200;
    save_fields Seller_objects (Seller.id seller)
                (Seller.with_totals total_products (n * 10000))) w = (Ok x, w') →
  settled w w'.
Proof.
  revert w. induction sellers as [|s l IH]; intros w Hrun; cbn [forM_] in Hrun.
  - by injection Hrun as _ <-.
  - apply bind_Ok_inv in Hrun as ([] & w1 & Hbody & Hrun).
    apply IH in Hrun. etrans; [| exact Hrun]. clear Hrun IH.
    stage_inv. etrans; [exact Hstep0 |].
    apply save_fields_run in Hbody as (_ & Hd & Hm & Hp).
    eapply (settled_save_fields Seller_objects Seller.user retotalled);
      [exact Hd | done | done | done | done |].
    intros y. by destruct y.
Qed.

Lemma create_products_constructs categories regions artisans sellers w products w' o :
  _create_products categories regions artisans sellers w = (Ok products, w') →
  o_products o = products →
  constructed SProducts o (db w').
Proof.
  unfold _create_products. intros Hrun Ho. stage_inv.
  match goal with
  | H : forM_ sellers _ _ = (Ok _, _) |- _ => apply save_totals_settled in H
  end.
  transport. simpl. rewrite Ho.
  repeat (constructor; [by split |]). constructor.
Qed.

(** A loop whose steps each construct something that lasts *)
Lemma forM_each {A} (R : relation World) `{!PreOrder R} (Q : A → World → Prop)
    (l : list A) (f : A → M unit) w x w' :
  (∀ a v y v', f a v = (Ok y, v') → R v v' ∧ Q a v') →
  (∀ a v v', R v v' → Q a v → Q a v') →
  forM_ l f w = (Ok x, w') →
  R w w' ∧ Forall (λ a, Q a w') l.
Proof.
  intros Hf HQ. revert w. induction l as [|a l IH]; intros w Hrun; cbn [forM_] in Hrun.
  - injection Hrun as _ <-. by split.
  - apply bind_Ok_inv in Hrun as (y & w1 & Ha & Hrun).
    apply Hf in Ha as [Hs1 Hq]. apply IH in Hrun as [Hs2 Hl].
    split; [by etrans |]. constructor; [by eapply HQ | done].
Qed.

Lemma holds_key_found {Row K : Type} `{EqDecision K} (mgr : Manager Row)
    (key : Row → K) (E : relation Row) `{!Tracked mgr key E} r k d :
  key r = k → holds mgr key E r d → found mgr key k d.
Proof. intros <-. apply holds_found. Qed.

(** The lookups that have found a row, as facts about the keys *)
Ltac found_tac :=
  match goal with
  | Hk : _ = _, Hh : holds _ _ _ _ _ |- found _ _ _ _ =>
      exact (holds_key_found _ _ _ _ _ _ Hk Hh)
  end.

Lemma create_seller_products_constructs sellers products w x w' o :
  _create_seller_products sellers products w = (Ok x, w') →
  o_products o = products →
  constructed SSellerProducts o (db w').
Proof.
  unfold _create_seller_products. intros Hrun Ho.
  apply bind_Ok_inv in Hrun as ([] & w0 & Henter%enter_run & Hrun).
  eapply (forM_each settled
            (λ p v, ∃ s, Product.seller p = Some s
                         ∧ found SellerProduct_objects
                             (λ r, (SellerProduct.seller r, SellerProduct.product r))
                             (s, Product.id p) (db v))) in Hrun as [_ Hall].
  - simpl. by rewrite Ho.
  - clear. intros p v y v' Hrun.
    apply bind_Ok_inv in Hrun as (n & v1 & Hn & Hrun).
    destruct (Product.seller p) as [s|] eqn:Hs; [| done].
    stage_inv. split; [by etrans |]. exists s. split; [done |]. found_tac.
  - clear. intros p v v' Hs (s & Hp & Hf). exists s. split; [done |].
    by apply (found_settled _ _ eq _ v v').
Qed.

Lemma create_stories_constructs regions w x w' o :
  _create_stories regions w = (Ok x, w') → constructed SStories o (db w').
Proof.
  unfold _create_stories. intros Hrun. stage_inv. transport.
  simpl. repeat (constructor; [found_tac |]). constructor.
Qed.

Lemma create_gallery_constructs artisans products regions w x w' o :
  _create_gallery artisans products regions w = (Ok x, w') →
  constructed SGallery o (db w').
Proof.
  unfold _create_gallery. intros Hrun. stage_inv. transport.
  simpl. repeat (constructor; [found_tac |]). constructor.
Qed.

Lemma create_newsletters_constructs users w x w' o :
  _create_newsletters users w = (Ok x, w') → o_users o = users →
  constructed SNewsletters o (db w').
Proof.
  unfold _create_newsletters. intros Hrun Ho. stage_inv. transport.
  simpl. rewrite Ho.
  repeat (constructor; [eexists; split; [eassumption | found_tac] |]). constructor.
Qed.

(** *** Story posts, orders and activity *)

Lemma create_unless_exists_found {Row K : Type} `{EqDecision K} (mgr : Manager Row)
    (key : Row → K) (E : relation Row) `{!Tracked mgr key E} k mk w x w' :
  (∀ i t, key (mk i t) = k) →
  (d ← get_db;
   match select mgr (λ x, eqb_of (key x) k) d with
   | [] => create mgr mk;; ret tt
   | _ :: _ => ret tt
   end) w = (Ok x, w') →
  settled w w' ∧ found mgr key k (db w').
Proof.
  intros Hmk. rewrite (run_bind get_db). simpl. intros Hrun. unfold found.
  destruct (select mgr _ (db w)) as [|r0 l] eqn:Hsel.
  - rewrite run_bind in Hrun.
    destruct (create mgr mk w) as [[r2|e] w2] eqn:Hc; [| done].
    injection Hrun as _ <-.
    apply create_run in Hc as (i & t & -> & Hd & Hm & Hp). split.
    + eapply (settled_insert mgr key E); [done.. |]. by rewrite Hmk.
    + rewrite Hd. by rewrite (select_put_snoc mgr key E k).
  - injection Hrun as _ <-. split; [reflexivity |]. by rewrite Hsel.
Qed.

Lemma order_item_found order product w x w' :
  order_item order product w = (Ok x, w') →
  settled w w'
  ∧ found OrderItem_objects (λ r, (OrderItem.order r, OrderItem.product r))
      (Order.id order, Product.id product) (db w').
Proof.
  unfold order_item. intros Hrun. stage_inv. split; [done |]. found_tac.
Qed.

Ltac unit_step' :=
  match goal with
  | H : (get_db ≫= _) _ = (Ok _, _) |- _ =>
      let Hf := fresh "Hfound" in
      eapply create_unless_exists_found in H as (H & Hf); [| apply _ | done]
  | H : order_item _ _ _ = (Ok _, _) |- _ =>
      let Hf := fresh "Hfound" in
      apply order_item_found in H as (H & Hf)
  end.

Ltac stage_inv'' := repeat first [unit_step | unit_step' | stage_step].

Lemma create_story_posts_constructs users w x w' o :
  _create_story_posts users w = (Ok x, w') → o_users o = users →
  constructed SStoryPosts o (db w').
Proof.
  unfold _create_story_posts. intros Hrun Ho. stage_inv''. transport.
  simpl. rewrite Ho.
  repeat (constructor; [eexists; split; [eassumption | assumption] |]). constructor.
Qed.

Lemma holds_eq_select {Row K : Type} `{EqDecision K} (mgr : Manager Row)
    (key : Row → K) r k d :
  key r = k → holds mgr key eq r d → select mgr (λ x, eqb_of (key x) k) d = [r].
Proof. intros <- (r' & Hsel & ->). exact Hsel. Qed.

Lemma create_orders_constructs users products w x w' o :
  _create_orders users products w = (Ok x, w') →
  o_users o = users → o_products o = products →
  constructed SOrders o (db w').
Proof.
  unfold _create_orders. intros Hrun Hu Ho. stage_inv''. transport.
  simpl. rewrite Hu, Ho.
  eexists _, _, _, _, _, _, _. split_and!; try eassumption.
  - by apply holds_eq_select.
  - by apply holds_eq_select.
  - repeat (constructor; [assumption |]). constructor.
Qed.

#[global] Instance activity_kept_preorder :
  PreOrder (λ v v' : World, kept ProductActivity_objects (db v) (db v')).
Proof.
  split.
  - intros v. unfold kept. reflexivity.
  - intros v1 v2 v3. unfold kept. apply transitivity.
Qed.

Lemma activity_step (types : list string) (buyers : list User.t) (p : Product.t)
    v x v' :
  (activity_type ← random_choice types;
   user ← random_choice buyers;
   _ ← now;
   match Product.seller p with
   | None => raise IntegrityError
   | Some seller =>
       create ProductActivity_objects
         (λ i t, ProductActivity.Build i seller (Product.id p)
                   activity_type (Some (User.id user))
                   [("source", "seed"); ("ref", "homepage")] t);;
       ret tt
   end) v = (Ok x, v') →
  ∃ a, product_activities (db v') = (product_activities (db v) ++ [a])%list
       ∧ ProductActivity.product a = Product.id p
       ∧ Product.seller p = Some (ProductActivity.seller a).
Proof.
  intros Hrun.
  apply bind_Ok_inv in Hrun as (ty & v1 & Hty & Hrun).
  apply bind_Ok_inv in Hrun as (u & v2 & Hu & Hrun).
  apply bind_Ok_inv in Hrun as (t0 & v3 & [= <- <-] & Hrun).
  apply random_choice_run in Hty as [_ Hd1].
  apply random_choice_run in Hu as [_ Hd2].
  destruct (Product.seller p) as [s|] eqn:Hs; [| done].
  apply bind_Ok_inv in Hrun as (a & v4 & Hc & Hret). injection Hret as _ <-.
  apply create_run_pk in Hc as (t & -> & ->).
  eexists. simpl. rewrite Hd2, Hd1. by split_and!.
Qed.

Lemma create_product_activity_constructs sellers products users w x w' o :
  _create_product_activity sellers products users w = (Ok x, w') →
  o_products o = products →
  constructed SProductActivity o (db w').
Proof.
  unfold _create_product_activity. intros Hrun Ho.
  apply bind_Ok_inv in Hrun as ([] & w0 & _ & Hrun).
  apply bind_Ok_inv in Hrun as (buyer1 & w1 & _ & Hrun).
  apply bind_Ok_inv in Hrun as (buyer2 & w2 & _ & Hrun).
  cbv zeta in Hrun.
  eapply (forM_each (λ v v', kept ProductActivity_objects (db v) (db v'))
            (λ p v, ∃ s, Product.seller p = Some s
                         ∧ (3 ≤ length (select ProductActivity_objects
                                          (λ a, eqb_of (ProductActivity.seller a,
                                                        ProductActivity.product a)
                                                       (s, Product.id p)) (db v)))%nat))
    in Hrun as [_ Hall].
  - simpl. by rewrite Ho.
  - clear. intros p v y v' Hrun. cbn [seq forM_] in Hrun.
    apply bind_Ok_inv in Hrun as (y1 & v1 & (a1 & Hd1 & Hp1 & Hs1)%activity_step & Hrun).
    apply bind_Ok_inv in Hrun as (y2 & v2 & (a2 & Hd2 & Hp2 & Hs2)%activity_step & Hrun).
    apply bind_Ok_inv in Hrun as (y3 & v3 & (a3 & Hd3 & Hp3 & Hs3)%activity_step & Hrun).
    injection Hrun as _ <-. unfold kept, select. cbn [rows ProductActivity_objects].
    rewrite Hd3, Hd2, Hd1. split.
    + rewrite <- !app_assoc. by apply prefix_app_r.
    + exists (ProductActivity.seller a1). split; [done |].
      assert (ProductActivity.seller a2 = ProductActivity.seller a1) as Hs21 by congruence.
      assert (ProductActivity.seller a3 = ProductActivity.seller a1) as Hs31 by congruence.
      rewrite !List.filter_app, !length_app. cbn [List.filter].
      unfold eqb_of. rewrite Hp1, Hp2, Hp3, Hs21, Hs31.
      rewrite !bool_decide_eq_true_2 by done. simpl. lia.
  - clear. intros p v v' Hkept (s & Hp & Hn). exists s. split; [done |].
    destruct Hkept as [l Hl]. unfold select in *.
    cbn [rows ProductActivity_objects] in *.
    rewrite Hl, List.filter_app, length_app. lia.
Qed.

Lemma create_newsletters_keeps_activity users w :
  product_activities (db (_create_newsletters users w).2) = product_activities (db w).
Proof.
  assert (respects (on_db (untouched ProductActivity_objects))
            (_create_newsletters users)) as H
    by respects_walk untouched_tac.
  apply (respects_db_on _ _ H w).
Qed.

(** *** What has been constructed is still there after the later stages *)

Ltac lasts Hst :=
  cbv beta in *;
  repeat match goal with
  | H : holds _ _ _ _ _ |- _ => apply (holds_stable _ _ _ _ _ _ Hst) in H
  | H : found _ _ _ _ |- _ => apply (found_stable _ _ _ _ _ _ Hst) in H
  end.

Lemma constructed_stable S o d d' :
  S ≠ SProductActivity → stable d d' → constructed S o d → constructed S o d'.
Proof.
  intros HS Hst. destruct S; simpl; try done.
  - intros H. eapply Forall_impl; [exact H |]. intros kn (u & ? & ? & Hh & Hp). exists u.
    lasts Hst. split_and!; try done. destruct Hp as [?|Hp]; [by left | right].
    by lasts Hst.
  - intros H. eapply Forall2_impl; [exact H |]. intros slug r [? Hh]. by lasts Hst.
  - intros H. eapply Forall2_impl; [exact H |]. intros slug r [? Hh]. by lasts Hst.
  - intros H. eapply Forall2_impl; [exact H |]. intros slug r [? Hh]. by lasts Hst.
  - intros H. eapply Forall2_impl; [exact H |]. intros k s (u & ? & ? & Hh).
    exists u. by lasts Hst.
  - intros H. eapply Forall2_impl; [exact H |]. intros slug r [? Hh]. by lasts Hst.
  - intros H. eapply Forall_impl; [exact H |]. intros p (s & ? & Hf). exists s. by lasts Hst.
  - intros H. eapply Forall_impl; [exact H |]. intros slug Hf. by lasts Hst.
  - intros H. eapply Forall_impl; [exact H |]. intros kc (u & ? & Hf). exists u. by lasts Hst.
  - intros H. eapply Forall_impl; [exact H |]. intros title Hf. by lasts Hst.
  - intros (b1 & b2 & o1 & o2 & p0 & p1 & p5 & ? & ? & ? & ? & ? & H1 & H2 & Hitems).
    exists b1, b2, o1, o2, p0, p1, p5.
    apply (select_holds Order_objects _ eq) in H1 as [Hk1 H1].
    apply (select_holds Order_objects _ eq) in H2 as [Hk2 H2].
    lasts Hst. split_and!; try done.
    + by apply holds_eq_select.
    + by apply holds_eq_select.
    + eapply Forall_impl; [exact Hitems |]. intros op Hf. by lasts Hst.
  - intros H. eapply Forall_impl; [exact H |]. intros k (u & ? & Hf). exists u. by lasts Hst.
Qed.

Lemma constructed_activity o d d' :
  product_activities d' = product_activities d →
  constructed SProductActivity o d → constructed SProductActivity o d'.
Proof.
  intros Hd. simpl. unfold select. cbn [rows ProductActivity_objects]. by rewrite Hd.
Qed.

Lemma completed_next n S o d d' :
  stage_order !! n = Some S → (n ≤ 11)%nat →
  stable d d' → completed n o d → constructed S o d' → completed (Datatypes.S n) o d'.
Proof.
  intros Hn Hle Hst Hdone HS. unfold completed in *.
  rewrite (take_S_r _ _ S) by done. apply Forall_app. split; [| by constructor].
  apply Forall_forall. intros S' HS'.
  apply constructed_stable with (d := d); [| done |].
  - intros ->. apply (elem_of_take _ _ _) in HS' as (i & Hi & Hlt).
    assert (i ≤ 10)%nat as Hi10 by lia. clear -Hi Hi10.
    do 11 (destruct i as [|i]; [discriminate Hi |]). lia.
  - by apply (proj1 (Forall_forall _ _) Hdone).
Qed.

Lemma completed_last o d d' :
  stable d d' → product_activities d' = product_activities d →
  completed 12 o d → constructed SNewsletters o d' → completed 13 o d'.
Proof.
  intros Hst Hact Hdone HS. unfold completed, stage_order in *. cbn [take] in *.
  repeat match goal with
  | H : Forall _ (_ :: _) |- _ => apply Forall_cons in H as [? H]
  end.
  repeat (apply Forall_cons; split;
          [first [ by apply constructed_activity with (d := d)
                 | by apply constructed_stable with (d := d) ] |]).
  apply Forall_cons. split; [done | constructor].
Qed.

Lemma replays_stable {A} n (E : A → A → Prop) (m m' : M A) w a w' :
  replays n E m m' → m w = (Ok a, w') → stable (db w) (db w').
Proof. intros H Hrun. by destruct (replays_settled _ _ _ _ _ _ _ H Hrun). Qed.

Lemma related_items_refl {A} (E : relation A) `{!Reflexive E} (m : gmap string A) :
  related_items E m m.
Proof. intros k. by destruct (m !! k); constructor. Qed.

(** C8. On every run the seeder enters its stages in the order users,
    regions, categories, artisans, sellers, products, seller products,
    stories, story posts, gallery, orders, product activity,
    newsletters, a stage after all stages before it have returned. A
    run that returns is the chain of the thirteen stage calls in that
    order, each started in the process that the call before it has
    left and given what the earlier calls have returned; and when a
    stage starts, every stage before it has constructed its entities:
    the rows that it looks up or creates are in the database under the
    keys of the seeder, and they are still there at the end. *)
Theorem C8_stage_order (reset : bool) (w : World) :
  (∃ entered, entered `prefix_of` stage_order
              ∧ trace (handle reset w).2 = (trace w ++ entered)%list
              ∧ (∀ a, (handle reset w).1 = Ok a → entered = stage_order))
  ∧ (∀ w', handle reset w = (Ok tt, w') →
     ∃ users regions categories artisans sellers products
       w0 w1 w2 w3 w4 w5 w6 w7 w8 w9 w10 w11 w12,
       let o := BuildOutputs users regions categories artisans sellers products in
       ((if reset then _reset_data else ret tt);;
        _ensure_media_dirs;; _create_images) w = (Ok tt, w0)
       ∧ _create_users w0 = (Ok users, w1) ∧ completed 1 o (db w1)
       ∧ _create_regions w1 = (Ok regions, w2) ∧ completed 2 o (db w2)
       ∧ _create_categories w2 = (Ok categories, w3) ∧ completed 3 o (db w3)
       ∧ _create_artisans regions w3 = (Ok artisans, w4) ∧ completed 4 o (db w4)
       ∧ _create_sellers users regions w4 = (Ok sellers, w5)
       ∧ completed 5 o (db w5)
       ∧ _create_products categories regions artisans sellers w5 = (Ok products, w6)
       ∧ completed 6 o (db w6)
       ∧ _create_seller_products sellers products w6 = (Ok tt, w7)
       ∧ completed 7 o (db w7)
       ∧ _create_stories regions w7 = (Ok tt, w8) ∧ completed 8 o (db w8)
       ∧ _create_story_posts users w8 = (Ok tt, w9) ∧ completed 9 o (db w9)
       ∧ _create_gallery artisans products regions w9 = (Ok tt, w10)
       ∧ completed 10 o (db w10)
       ∧ _create_orders users products w10 = (Ok tt, w11) ∧ completed 11 o (db w11)
       ∧ _create_product_activity sellers products users w11 = (Ok tt, w12)
       ∧ completed 12 o (db w12)
       ∧ _create_newsletters users w12 = (Ok tt, w') ∧ completed 13 o (db w')).
Proof.
  split; [apply stage_trace |].
  intros w' Hrun. apply handle_Ok_inv in Hrun. unfold atomic_block in Hrun.
  apply bind_Ok_inv in Hrun as ([] & v0 & Hreset & Hrun).
  apply bind_Ok_inv in Hrun as ([] & v1 & Hdirs & Hrun).
  apply bind_Ok_inv in Hrun as ([] & w0 & Himg & Hrun).
  apply bind_Ok_inv in Hrun as (users & w1 & Husers & Hrun).
  apply bind_Ok_inv in Hrun as (regions & w2 & Hregions & Hrun).
  apply bind_Ok_inv in Hrun as (categories & w3 & Hcategories & Hrun).
  apply bind_Ok_inv in Hrun as (artisans & w4 & Hartisans & Hrun).
  apply bind_Ok_inv in Hrun as (sellers & w5 & Hsellers & Hrun).
  apply bind_Ok_inv in Hrun as (products & w6 & Hproducts & Hrun).
  apply bind_Ok_inv in Hrun as ([] & w7 & Hlistings & Hrun).
  apply bind_Ok_inv in Hrun as ([] & w8 & Hstories & Hrun).
  apply bind_Ok_inv in Hrun as ([] & w9 & Hposts & Hrun).
  apply bind_Ok_inv in Hrun as ([] & w10 & Hgallery & Hrun).
  apply bind_Ok_inv in Hrun as ([] & w11 & Horders & Hrun).
  apply bind_Ok_inv in Hrun as ([] & w12 & Hactivity & Hrun).
  exists users, regions, categories, artisans, sellers, products,
    w0, w1, w2, w3, w4, w5, w6, w7, w8, w9, w10, w11, w12.
  cbv zeta. set (o := BuildOutputs users regions categories artisans sellers products).
  assert (related_items repassworded users users) as Hu
    by apply related_items_refl, _.
  assert (completed 1 o (db w1)) as H1.
  { unfold completed, stage_order. cbn [take]. constructor; [| constructor].
    by eapply create_users_constructs. }
  assert (completed 2 o (db w2)) as H2.
  { apply (completed_next 1 SRegions o (db w1)); [done | lia | | done |].
    - apply (replays_stable _ _ _ _ _ _ _ replays_create_regions Hregions).
    - by eapply create_regions_constructs. }
  assert (completed 3 o (db w3)) as H3.
  { apply (completed_next 2 SCategories o (db w2)); [done | lia | | done |].
    - apply (replays_stable _ _ _ _ _ _ _ replays_create_categories Hcategories).
    - by eapply create_categories_constructs. }
  assert (completed 4 o (db w4)) as H4.
  { apply (completed_next 3 SArtisans o (db w3)); [done | lia | | done |].
    - apply (replays_stable _ _ _ _ _ _ _ (replays_create_artisans _) Hartisans).
    - by eapply create_artisans_constructs. }
  assert (completed 5 o (db w5)) as H5.
  { apply (completed_next 4 SSellers o (db w4)); [done | lia | | done |].
    - apply (replays_stable _ _ _ _ _ _ _
               (replays_create_sellers _ _ _ Hu) Hsellers).
    - by eapply create_sellers_constructs. }
  assert (completed 6 o (db w6)) as H6.
  { apply (completed_next 5 SProducts o (db w5)); [done | lia | | done |].
    - apply (replays_stable _ _ _ _ _ _ _
               (replays_create_products _ _ _ sellers sellers ltac:(reflexivity))
               Hproducts).
    - by eapply create_products_constructs. }
  assert (length products = 6%nat) as Hlen.
  { assert (constructed SProducts o (db w6)) as Hp
      by (by eapply create_products_constructs).
    simpl in Hp. by apply Forall2_length in Hp. }
  assert (completed 7 o (db w7)) as H7.
  { apply (completed_next 6 SSellerProducts o (db w6)); [done | lia | | done |].
    - apply (replays_stable _ _ _ _ _ _ _
               (replays_create_seller_products sellers sellers products) Hlistings).
    - by eapply create_seller_products_constructs. }
  assert (completed 8 o (db w8)) as H8.
  { apply (completed_next 7 SStories o (db w7)); [done | lia | | done |].
    - apply (replays_stable _ _ _ _ _ _ _ (replays_create_stories _) Hstories).
    - by eapply create_stories_constructs. }
  assert (completed 9 o (db w9)) as H9.
  { apply (completed_next 8 SStoryPosts o (db w8)); [done | lia | | done |].
    - apply (replays_stable _ _ _ _ _ _ _
               (replays_create_story_posts _ _ Hu) Hposts).
    - by eapply create_story_posts_constructs. }
  assert (completed 10 o (db w10)) as H10.
  { apply (completed_next 9 SGallery o (db w9)); [done | lia | | done |].
    - apply (replays_stable _ _ _ _ _ _ _ (replays_create_gallery _ _ _) Hgallery).
    - by eapply create_gallery_constructs. }
  assert (completed 11 o (db w11)) as H11.
  { apply (completed_next 10 SOrders o (db w10)); [done | lia | | done |].
    - apply (replays_stable _ _ _ _ _ _ _
               (replays_create_orders _ _ products Hu) Horders).
    - by eapply create_orders_constructs. }
  assert (completed 12 o (db w12)) as H12.
  { apply (completed_next 11 SProductActivity o (db w11)); [done | lia | | done |].
    - apply (replays_stable _ _ _ _ _ _ _
               (replays_create_product_activity sellers sellers _ _ _ Hu Hlen)
               Hactivity).
    - by eapply create_product_activity_constructs. }
  assert (completed 13 o (db w')) as H13.
  { apply (completed_last o (db w12)); [| | done |].
    - apply (replays_stable _ _ _ _ _ _ _
               (replays_create_newsletters _ _ Hu) Hrun).
    - pose proof (create_newsletters_keeps_activity users w12) as Hact.
      by rewrite Hrun in Hact.
    - by eapply create_newsletters_constructs. }
  split_and!; try done.
  by rewrite run_bind, Hreset, run_bind, Hdirs.
Qed.

Lemma C8_stage_order_witness : ∃ o, completed 13 o (db seeded_world).
Proof.
  destruct (C8_stage_order false fresh_world) as [_ Hret].
  destruct (Hret seeded_world) as
    (users & regions & categories & artisans & sellers & products & Hchain);
    [by vm_compute |].
  exists (BuildOutputs users regions categories artisans sellers products).
  destruct Hchain as (w0 & w1 & w2 & w3 & w4 & w5 & w6 & w7 & w8 & w9 & w10 & w11
                      & w12 & Hchain).
  cbv zeta in Hchain. apply Hchain.
Defined.
